(** * react-form-autosave: a shallow embedding of the persistence engine

    The development follows the layout of the library:
    - [Js]         the JavaScript values the engine stores and merges;
    - [Merge]      middleware/merge.ts;
    - [History]    history/historyManager.ts;
    - [Transform]  middleware/transform.ts, with the runtime functions
                   behind its base64 helpers;
    - [Debounce]   middleware/debounce.ts, with timers and a clock;
    - [Validate]   middleware/validate.ts;
    - [Storage]    storage/adapters.ts;
    - [Sync]       sync/syncManager.ts;
    - [Hook]       hooks/useFormPersist.ts: the load on mount, the write
                   path and the history kept by the hook;
    - [Sample]     data for the examples;
    - [Schedules]  bursts of calls on the throttle and the debounce alone;
    - [Envelope]   unwrapData of middleware/transform.ts;
    - [Broadcast]  the outgoing messages of sync/syncManager.ts;
    - [Actions]    clear, reset, getPersistedValue and revert of the hook;
    - [Group]      utils/clearGroup.ts.

    Part I holds the definitions, translated function by function from the
    TypeScript sources; Part II holds the lemmas and theorems about them. *)

From Stdlib Require Import ZArith NArith Lia Bool.
From stdpp Require Import base option list strings pretty gmap.

Open Scope string_scope.
Open Scope list_scope.
Open Scope Z_scope.

(* ===================================================================== *)
(** * Part I: definitions                                                 *)
(* ===================================================================== *)

(** ** JavaScript values *)

Module Js.

(** The values that flow through the engine: what [JSON.parse] can return,
    plus [undefined], which property reads of absent keys produce.  Numbers
    are the integers; none of the functions modelled here does arithmetic on
    payload numbers other than comparing timestamps and versions.  An object
    is its list of own enumerable properties in insertion order, which is the
    order [Object.keys] and the spread operator walk them in. *)
#[local] Unset Elimination Schemes.

Inductive value : Type :=
| VUndefined : value
| VNull : value
| VBool : bool -> value
| VNum : Z -> value
| VStr : string -> value
| VArr : list value -> value
| VObj : list (string * value) -> value.

#[local] Set Elimination Schemes.

Definition obj : Type := list (string * value).

(** [o[key]] restricted to own properties: [None] stands for a read that
    finds no own property. *)
Fixpoint get (key : string) (o : obj) : option value :=
  match o with
  | [] => None
  | (k, v) :: rest => if String.eqb k key then Some v else get key rest
  end.

(** [o[key] = v]: overwrite the property in place when the object has it,
    otherwise add it after the existing ones. *)
Fixpoint set (key : string) (v : value) (o : obj) : obj :=
  match o with
  | [] => [(key, v)]
  | (k, w) :: rest =>
      if String.eqb k key then (k, v) :: rest else (k, w) :: set key v rest
  end.

(** [Object.keys(o)] *)
Definition keys (o : obj) : list string := map fst o.

(** [{ ...target, ...source }] once [target] has been copied: every own
    property of [source] is assigned onto the copy, in order. *)
Definition assign (target source : obj) : obj :=
  fold_left (fun acc kv => set (fst kv) (snd kv) acc) source target.

(** [typeof v === 'object' && v !== null && !Array.isArray(v) &&
    toString.call(v) === '[object Object]'] *)
Definition isPlainObject (v : value) : bool :=
  match v with
  | VObj _ => true
  | _ => false
  end.

(** [a ?? b] *)
Definition nullish (a b : value) : value :=
  match a with
  | VUndefined | VNull => b
  | _ => a
  end.

(** [v !== undefined] *)
Definition defined (v : value) : bool :=
  match v with
  | VUndefined => false
  | _ => true
  end.

(** [o[key]] as a value: [undefined] when the property is absent. *)
Definition read (key : string) (o : obj) : value :=
  default VUndefined (get key o).

(** JavaScript truthiness, for [!x] and [x && y]. *)
Definition truthy (v : value) : bool :=
  match v with
  | VUndefined | VNull => false
  | VBool b => b
  | VNum n => negb (Z.eqb n 0)
  | VStr s => negb (String.eqb s "")
  | VArr _ | VObj _ => true
  end.

(** A thrown [Error]: what [catch] clauses inspect.  A callee that throws
    something else reaches the engine as [new Error(String(e))]. *)
Record Error : Type := mkError { name : string; message : string }.

(** The outcome of a call that may throw. *)
Inductive result (A : Type) : Type :=
| Ok (a : A)
| Throw (e : Error).

Arguments Ok {A} a.
Arguments Throw {A} e.

Definition bind {A B} (r : result A) (f : A -> result B) : result B :=
  match r with
  | Ok a => f a
  | Throw e => Throw e
  end.

End Js.

(** ** middleware/merge.ts *)

Module Merge.
Import Js.

Definition dangerousKeys : list string :=
  ["__proto__"; "constructor"; "prototype"].

(** [dangerousKeys.includes(key)] *)
Definition includes (l : list string) (key : string) : bool :=
  existsb (String.eqb key) l.

(** What the spread [...v] contributes: the own enumerable properties of
    [v].  An array spreads its elements under their indices, a string its
    characters; [null], [undefined], booleans and numbers spread nothing. *)
Fixpoint indexed {A} (i : nat) (l : list A) : list (string * A) :=
  match l with
  | [] => []
  | x :: rest => (pretty i, x) :: indexed (S i) rest
  end.

Fixpoint chars (s : string) : list value :=
  match s with
  | EmptyString => []
  | String c rest => VStr (String c EmptyString) :: chars rest
  end.

Definition ownProperties (v : value) : obj :=
  match v with
  | VObj o => o
  | VArr l => indexed 0 l
  | VStr s => indexed 0 (chars s)
  | _ => []
  end.

(** [shallowMerge(stored, initial)] *)
Definition shallowMerge (stored initial : value) : value :=
  match initial with
  | VObj i => VObj (assign i (ownProperties stored))
  | _ => nullish stored initial
  end.

(** [deepMerge(stored, initial)].  The [for] loop over [Object.keys(stored)]
    is the inner [go]; [result] starts as the copy [{ ...initial }]. *)
Fixpoint deepMerge (stored initial : value) {struct stored} : value :=
  match stored with
  | VObj s =>
      match initial with
      | VObj i =>
          VObj ((fix go (ks : obj) (result : obj) {struct ks} : obj :=
                   match ks with
                   | [] => result
                   | (key, storedValue) :: rest =>
                       if includes dangerousKeys key then go rest result
                       else
                         match storedValue, get key i with
                         | VObj _, Some (VObj _ as initialValue) =>
                             go rest (set key (deepMerge storedValue initialValue) result)
                         | _, _ =>
                             if defined storedValue
                             then go rest (set key storedValue result)
                             else go rest result
                         end
                   end) s i)
      | _ => nullish stored initial
      end
  | _ => nullish stored initial
  end.

(** One turn of the loop of [deepMerge], for the lemmas that unfold it. *)
Definition deepMerge_step (i : obj) (result : obj) (kv : string * value) : obj :=
  let (key, storedValue) := kv in
  if includes dangerousKeys key then result
  else
    match storedValue, get key i with
    | VObj _, Some (VObj _ as initialValue) =>
        set key (deepMerge storedValue initialValue) result
    | _, _ => if defined storedValue then set key storedValue result else result
    end.

(** What the loop leaves under a key that is not dangerous. *)
Definition mergedProperty (storedValue : option value) (initialValue : option value)
    : option value :=
  match storedValue with
  | None | Some VUndefined => initialValue
  | Some (VObj _ as sv) =>
      match initialValue with
      | Some (VObj _ as iv) => Some (deepMerge sv iv)
      | _ => Some sv
      end
  | Some sv => Some sv
  end.

(** Whether one of the dangerous keys occurs in [v], at any depth. *)
Fixpoint hasDangerousKey (v : value) : bool :=
  match v with
  | VObj o =>
      existsb (fun kv => includes dangerousKeys (fst kv) || hasDangerousKey (snd kv)) o
  | VArr l => existsb hasDangerousKey l
  | _ => false
  end.

End Merge.

(** ** history/historyManager.ts *)

Module History.

Section HistoryManager.
Context {T : Type}.

(** [interface HistoryState<T>] *)
Record HistoryState : Type := mkHistoryState {
  states : list T;
  index : Z;
  maxLength : Z
}.

(** [arr.slice(0, end)]: a negative [end] counts from the back. *)
Definition slice0 (finish : Z) (arr : list T) : list T :=
  if finish <? 0
  then take (Z.to_nat (Z.of_nat (length arr) + finish)) arr
  else take (Z.to_nat finish) arr.

(** [arr[i]]: [None] is [undefined], for an index outside the array. *)
Definition nth_js (arr : list T) (i : Z) : option T :=
  if i <? 0 then None else arr !! Z.to_nat i.

(** [arr.shift()], for its effect on the array. *)
Definition shift (arr : list T) : list T := tail arr.

(** [new HistoryManager(initialState, maxLength)] *)
Definition create (initialState : T) (maxLength : Z) : HistoryState :=
  {| states := [initialState]; index := 0; maxLength := maxLength |}.

Definition current (h : HistoryState) : option T := nth_js (states h) (index h).

Definition length_ (h : HistoryState) : Z := Z.of_nat (length (states h)).

Definition canUndo (h : HistoryState) : bool := 0 <? index h.

Definition canRedo (h : HistoryState) : bool := index h <? length_ h - 1.

(** [push(newState)] *)
Definition push (newState : T) (h : HistoryState) : HistoryState :=
  let newStates := slice0 (index h + 1) (states h) ++ [newState] in
  let newStates :=
    if maxLength h <? Z.of_nat (length newStates) then shift newStates else newStates in
  {| states := newStates;
     index := Z.of_nat (length newStates) - 1;
     maxLength := maxLength h |}.

(** [undo()]: the new manager state; the value returned is its [current]. *)
Definition undo (h : HistoryState) : HistoryState :=
  if negb (canUndo h) then h
  else {| states := states h; index := index h - 1; maxLength := maxLength h |}.

(** [redo()] *)
Definition redo (h : HistoryState) : HistoryState :=
  if negb (canRedo h) then h
  else {| states := states h; index := index h + 1; maxLength := maxLength h |}.

(** [goTo(targetIndex)] *)
Definition goTo (targetIndex : Z) (h : HistoryState) : HistoryState :=
  let clampedIndex := Z.max 0 (Z.min targetIndex (length_ h - 1)) in
  {| states := states h; index := clampedIndex; maxLength := maxLength h |}.

(** [reset(newInitialState)] *)
Definition reset (newInitialState : T) (h : HistoryState) : HistoryState :=
  {| states := [newInitialState]; index := 0; maxLength := maxLength h |}.

(** A call on the manager, and a sequence of calls run in order. *)
Inductive op : Type :=
| Push (newState : T)
| Undo
| Redo
| GoTo (targetIndex : Z)
| Reset (newInitialState : T).

Definition apply (h : HistoryState) (o : op) : HistoryState :=
  match o with
  | Push s => push s h
  | Undo => undo h
  | Redo => redo h
  | GoTo i => goTo i h
  | Reset s => reset s h
  end.

Definition run (ops : list op) (h : HistoryState) : HistoryState :=
  fold_left apply ops h.

(** The data-model invariant of a history stack. *)
Definition well_formed (h : HistoryState) : Prop :=
  1 <= length_ h <= maxLength h /\ 0 <= index h <= length_ h - 1.

End HistoryManager.

Arguments HistoryState : clear implicits.
Arguments op : clear implicits.

End History.

(** ** middleware/transform.ts *)

Module Transform.
Import Js.

(** A JavaScript string: its UTF-16 code units.  [String.fromCharCode] and
    [charCodeAt] are then the identity on a unit. *)
Definition str : Type := list N.

(** core/constants.ts *)
Definition DEFAULT_COMPRESSION_THRESHOLD : Z := 1024.

Definition len (s : str) : Z := Z.of_nat (length s).

(** What [simpleCompress] appends when a run of [count] copies of [prevChar]
    ends: a marker, the count as a character and the character for a run of
    four or more, the run itself otherwise. *)
Definition emitRun (count : N) (prevChar : N) : str :=
  if (4 <=? count)%N
  then [0%N; count; prevChar]
  else repeat prevChar (N.to_nat count).

(** The [for] loop of [simpleCompress], from index [i] on: [chars] is
    [data.slice(i)].  Past the end [data[i]] is [undefined], which differs
    from every character, so the last run is emitted there. *)
Fixpoint compressLoop (chars : str) (prevChar : N) (count : N) (result : str) : str :=
  match chars with
  | [] => result ++ emitRun count prevChar
  | char :: rest =>
      if (char =? prevChar)%N && (count <? 255)%N
      then compressLoop rest prevChar (count + 1)%N result
      else compressLoop rest char 1%N (result ++ emitRun count prevChar)
  end.

(** [simpleCompress(data)] *)
Definition simpleCompress (data : str) : str :=
  if len data <? DEFAULT_COMPRESSION_THRESHOLD then data
  else
    match data with
    | [] => data
    | first :: rest =>
        let result := compressLoop rest first 1%N [] in
        if len result <? len data then 1%N :: result else data
    end.

(** The [while] loop of [simpleDecompress] over [data.slice(i)].  After a
    marker the count is [data.charCodeAt(i + 1)] and the character is
    [data[i + 2]]; when the string ends before that character, [char] is
    [undefined] and [char.repeat] throws a [TypeError]: [None]. *)
Fixpoint decompressLoop (chars : str) : option str :=
  match chars with
  | [] => Some []
  | 0%N :: count :: char :: rest =>
      option_map (app (repeat char (N.to_nat count))) (decompressLoop rest)
  | 0%N :: _ => None
  | c :: rest => option_map (cons c) (decompressLoop rest)
  end.

(** [simpleDecompress(data)] *)
Definition simpleDecompress (data : str) : option str :=
  match data with
  | 1%N :: rest => decompressLoop rest
  | _ => Some data
  end.

(** *** The built-ins behind [base64Encode] and [base64Decode]

    [encodeURIComponent], [decodeURIComponent], [btoa] and [atob] belong to
    the JavaScript runtime; they are written out here from ECMA-262 (Encode
    and Decode of the URI functions) and the HTML standard (forgiving-base64),
    with [None] for a thrown exception. *)

Definition inRange (lo hi c : N) : bool := ((lo <=? c) && (c <=? hi))%N.

(** The characters [encodeURIComponent] leaves alone: letters, digits and
    [- _ . ! ~ * ' ( )]. *)
Definition unreserved (c : N) : bool :=
  inRange 65 90 c || inRange 97 122 c || inRange 48 57 c ||
  existsb (N.eqb c) [45; 95; 46; 33; 126; 42; 39; 40; 41]%N.

Definition isHighSurrogate (c : N) : bool := inRange 55296 56319 c.
Definition isLowSurrogate (c : N) : bool := inRange 56320 57343 c.

(** The UTF-8 octets of a code point. *)
Definition utf8Octets (cp : N) : list N :=
  (if cp <? 128 then [cp]
   else if cp <? 2048 then [192 + cp / 64; 128 + cp mod 64]
   else if cp <? 65536 then
     [224 + cp / 4096; 128 + (cp / 64) mod 64; 128 + cp mod 64]
   else
     [240 + cp / 262144; 128 + (cp / 4096) mod 64;
      128 + (cp / 64) mod 64; 128 + cp mod 64])%N.

Definition hexUpper (d : N) : N := (if d <? 10 then 48 + d else 55 + d)%N.
Definition hexLower (d : N) : N := (if d <? 10 then 48 + d else 87 + d)%N.

(** ["%XX"] for one octet, in upper-case digits. *)
Definition percentUpper (b : N) : str :=
  [37; hexUpper (b / 16); hexUpper (b mod 16)]%N.

(** [encodeURIComponent(s)]; a lone surrogate throws a [URIError]. *)
Fixpoint encodeURIComponent (s : str) : option str :=
  match s with
  | [] => Some []
  | c :: rest =>
      if unreserved c then option_map (cons c) (encodeURIComponent rest)
      else if isLowSurrogate c then None
      else if isHighSurrogate c then
        match rest with
        | lo :: rest' =>
            if isLowSurrogate lo then
              let cp := ((c - 55296) * 1024 + (lo - 56320) + 65536)%N in
              option_map (app (concat (map percentUpper (utf8Octets cp))))
                         (encodeURIComponent rest')
            else None
        | [] => None
        end
      else
        option_map (app (concat (map percentUpper (utf8Octets c))))
                   (encodeURIComponent rest)
  end.

(** The value of a hexadecimal digit, in either case. *)
Definition hexValue (c : N) : option N :=
  (if inRange 48 57 c then Some (c - 48)
   else if inRange 65 70 c then Some (c - 55)
   else if inRange 97 102 c then Some (c - 87)
   else None)%N.

(** What [decodeURIComponent] reads: a character standing for itself or an
    escaped octet. *)
Inductive uriItem : Type :=
| Plain (c : N)
| Octet (b : N).

(** The escapes of a string; ["%"] not followed by two hexadecimal digits
    throws a [URIError]. *)
Fixpoint uriItems (s : str) : option (list uriItem) :=
  match s with
  | [] => Some []
  | c :: rest =>
      if (c =? 37)%N then
        match rest with
        | h :: l :: rest' =>
            match hexValue h, hexValue l with
            | Some x, Some y =>
                option_map (cons (Octet (x * 16 + y)%N)) (uriItems rest')
            | _, _ => None
            end
        | _ => None
        end
      else option_map (cons (Plain c)) (uriItems rest)
  end.

Definition isContinuation (b : N) : bool := inRange 128 191 b.

(** [UTF16EncodeCodePoint] *)
Definition utf16Units (cp : N) : str :=
  (if cp <? 65536 then [cp]
   else [55296 + (cp - 65536) / 1024; 56320 + (cp - 65536) mod 1024])%N.

(** The octets are read as UTF-8; a sequence that is not the UTF-8 encoding
    of a code point throws a [URIError]. *)
Fixpoint decodeItems (items : list uriItem) : option str :=
  match items with
  | [] => Some []
  | Plain c :: rest => option_map (cons c) (decodeItems rest)
  | Octet b0 :: rest =>
      if (b0 <? 128)%N then option_map (cons b0) (decodeItems rest)
      else if inRange 194 223 b0 then
        match rest with
        | Octet b1 :: rest' =>
            if isContinuation b1 then
              option_map (cons ((b0 - 192) * 64 + (b1 - 128))%N) (decodeItems rest')
            else None
        | _ => None
        end
      else if inRange 224 239 b0 then
        match rest with
        | Octet b1 :: Octet b2 :: rest' =>
            let cp := ((b0 - 224) * 4096 + (b1 - 128) * 64 + (b2 - 128))%N in
            if isContinuation b1 && isContinuation b2 &&
               (2048 <=? cp)%N && negb (inRange 55296 57343 cp)
            then option_map (cons cp) (decodeItems rest')
            else None
        | _ => None
        end
      else if inRange 240 244 b0 then
        match rest with
        | Octet b1 :: Octet b2 :: Octet b3 :: rest' =>
            let cp := ((b0 - 240) * 262144 + (b1 - 128) * 4096 +
                       (b2 - 128) * 64 + (b3 - 128))%N in
            if isContinuation b1 && isContinuation b2 && isContinuation b3 &&
               (65536 <=? cp)%N && (cp <=? 1114111)%N
            then option_map (app (utf16Units cp)) (decodeItems rest')
            else None
        | _ => None
        end
      else None
  end.

(** [decodeURIComponent(s)] *)
Definition decodeURIComponent (s : str) : option str :=
  match uriItems s with
  | Some items => decodeItems items
  | None => None
  end.

(** The base64 alphabet. *)
Definition base64Char (i : N) : N :=
  (if i <? 26 then 65 + i
   else if i <? 52 then 97 + (i - 26)
   else if i <? 62 then 48 + (i - 52)
   else if i =? 62 then 43
   else 47)%N.

Definition base64Index (c : N) : option N :=
  (if inRange 65 90 c then Some (c - 65)
   else if inRange 97 122 c then Some (c - 97 + 26)
   else if inRange 48 57 c then Some (c - 48 + 52)
   else if c =? 43 then Some 62
   else if c =? 47 then Some 63
   else None)%N.

Fixpoint base64Groups (bytes : list N) : str :=
  match bytes with
  | [] => []
  | [a] => [base64Char (a / 4); base64Char ((a mod 4) * 16); 61; 61]%N
  | [a; b] =>
      [base64Char (a / 4); base64Char ((a mod 4) * 16 + b / 16);
       base64Char ((b mod 16) * 4); 61]%N
  | a :: b :: c :: rest =>
      [base64Char (a / 4); base64Char ((a mod 4) * 16 + b / 16);
       base64Char ((b mod 16) * 4 + c / 64); base64Char (c mod 64)]%N
      ++ base64Groups rest
  end.

(** [base64Groups] is the characters of [base64Body] followed by the
    padding of [base64Padding]. *)
Fixpoint base64Body (bytes : list N) : str :=
  match bytes with
  | [] => []
  | [a] => [base64Char (a / 4); base64Char ((a mod 4) * 16)]%N
  | [a; b] =>
      [base64Char (a / 4); base64Char ((a mod 4) * 16 + b / 16);
       base64Char ((b mod 16) * 4)]%N
  | a :: b :: c :: rest =>
      [base64Char (a / 4); base64Char ((a mod 4) * 16 + b / 16);
       base64Char ((b mod 16) * 4 + c / 64); base64Char (c mod 64)]%N
      ++ base64Body rest
  end.

Fixpoint base64Padding (bytes : list N) : str :=
  match bytes with
  | [] => []
  | [_] => [61; 61]%N
  | [_; _] => [61]%N
  | _ :: _ :: _ :: rest => base64Padding rest
  end.

(** [btoa(s)]; a character above [U+00FF] throws. *)
Definition btoa (s : str) : option str :=
  if forallb (fun c => (c <? 256)%N) s then Some (base64Groups s) else None.

Definition isAsciiWhitespace (c : N) : bool :=
  existsb (N.eqb c) [9; 10; 12; 13; 32]%N.

(** [s] without its last character, when that is ["="]. *)
Definition dropEquals (s : str) : option str :=
  match rev s with
  | c :: r => if (c =? 61)%N then Some (rev r) else None
  | [] => None
  end.

(** Remove one or two trailing ["="] from a string whose length is a
    multiple of four. *)
Definition stripPadding (s : str) : str :=
  if (length s mod 4 =? 0)%nat then
    match dropEquals s with
    | Some once =>
        match dropEquals once with
        | Some twice => twice
        | None => once
        end
    | None => s
    end
  else s.

Fixpoint sextets (s : str) : option (list N) :=
  match s with
  | [] => Some []
  | c :: rest =>
      match base64Index c, sextets rest with
      | Some i, Some l => Some (i :: l)
      | _, _ => None
      end
  end.

(** Four sextets give three octets; three left over give two, two give
    one. *)
Fixpoint octets (l : list N) : list N :=
  match l with
  | a :: b :: c :: d :: rest =>
      [a * 4 + b / 16; (b mod 16) * 16 + c / 4; (c mod 4) * 64 + d]%N
      ++ octets rest
  | [a; b; c] => [a * 4 + b / 16; (b mod 16) * 16 + c / 4]%N
  | [a; b] => [a * 4 + b / 16]%N
  | _ => []
  end.

(** [atob(s)]: forgiving-base64 decode; [None] when it throws. *)
Definition atob (s : str) : option str :=
  let data := stripPadding (List.filter (fun c => negb (isAsciiWhitespace c)) s) in
  if (length data mod 4 =? 1)%nat then None
  else option_map octets (sextets data).

(** *** base64Encode and base64Decode *)

Definition isUpperHex (c : N) : bool := inRange 48 57 c || inRange 65 70 c.

(** [parseInt(p1, 16)] for the two characters matched by [[0-9A-F]{2}]. *)
Definition parseUpperHex (h l : N) : N :=
  ((if h <? 65 then h - 48 else h - 55) * 16 +
   (if l <? 65 then l - 48 else l - 55))%N.

(** [.replace(/%([0-9A-F]{2})/g, (_, p1) => String.fromCharCode(parseInt(p1, 16)))] *)
Fixpoint replaceEscapes (s : str) : str :=
  match s with
  | [] => []
  | c :: rest =>
      match rest with
      | h :: l :: rest' =>
          if (c =? 37)%N && isUpperHex h && isUpperHex l
          then parseUpperHex h l :: replaceEscapes rest'
          else c :: replaceEscapes rest
      | _ => c :: replaceEscapes rest
      end
  end.

(** [base64Encode(data)] in the browser branch; [None] when
    [encodeURIComponent] or [btoa] throws. *)
Definition base64Encode (data : str) : option str :=
  match encodeURIComponent data with
  | Some escaped => btoa (replaceEscapes escaped)
  | None => None
  end.

(** ['%' + ('00' + c.charCodeAt(0).toString(16)).slice(-2)]: the last two
    hexadecimal digits of the code, in lower case. *)
Definition percentLower (c : N) : str :=
  [37; hexLower ((c / 16) mod 16); hexLower (c mod 16)]%N.

(** [base64Decode(data)]: when [atob] or [decodeURIComponent] throws, the
    [catch] returns the input. *)
Definition base64Decode (data : str) : str :=
  match atob data with
  | Some bytes =>
      match decodeURIComponent (concat (map percentLower bytes)) with
      | Some decoded => decoded
      | None => data
      end
  | None => data
  end.

(** *** Well-formed strings

    A JavaScript string is a sequence of 16-bit code units; it is
    well-formed when every high surrogate is followed by a low surrogate and
    no low surrogate stands alone.  [scanSurrogates] reads a string with the
    flag [pending] set after a high surrogate, and fails on a unit that is
    out of place or not a 16-bit unit. *)
Fixpoint scanSurrogates (pending : bool) (s : str) : option bool :=
  match s with
  | [] => Some pending
  | c :: rest =>
      if negb (c <? 65536)%N then None
      else if pending then
        if isLowSurrogate c then scanSurrogates false rest else None
      else if isHighSurrogate c then scanSurrogates true rest
      else if isLowSurrogate c then None
      else scanSurrogates false rest
  end.

Definition wellFormed (s : str) : Prop := scanSurrogates false s = Some false.

(** What [JSON.stringify] produces: a well-formed string in which every
    control character is escaped, so that no unit is below [U+0020]. *)
Definition jsonText (s : str) : Prop :=
  Forall (fun c => (32 <= c)%N) s /\ wellFormed s.

(** *** createTransformPipeline *)

(** The runtime's [JSON.stringify] and [JSON.parse].  [JSON.stringify] is
    taken on values for which it yields a string or throws (it yields
    [undefined] for [undefined] itself, which the engine never stores);
    [JSON.parse] is [None] when it throws a [SyntaxError]. *)
Record Json : Type := mkJson {
  stringify : value -> result str;
  parse : str -> option value
}.

(** [TransformOptions<T>]: the caller's serializer and deserializer. *)
Record TransformOptions : Type := mkTransformOptions {
  serialize : option (value -> result str);
  deserialize : option (str -> result value)
}.

(** The [compress] argument: absent, a boolean, or [{ threshold? }]. *)
Inductive CompressOption : Type :=
| CompressAbsent
| CompressFlag (b : bool)
| CompressWith (threshold : option Z).

Definition shouldCompress (compress : CompressOption) : bool :=
  match compress with
  | CompressFlag true | CompressWith _ => true
  | _ => false
  end.

Definition compressionThreshold (compress : CompressOption) : Z :=
  match compress with
  | CompressWith (Some threshold) => threshold
  | _ => DEFAULT_COMPRESSION_THRESHOLD
  end.

(** The options leave serialization to JSON: no custom [serialize] and no
    custom [deserialize]. *)
Definition defaultJson (options : option TransformOptions) : Prop :=
  match options with
  | None => True
  | Some o => serialize o = None /\ deserialize o = None
  end.

Definition uriError : Error := {| name := "URIError"; message := "URI malformed" |}.

Section Pipeline.
Variable json : Json.
Variable options : option TransformOptions.
Variable compress : CompressOption.
Variable encrypt : bool.

(** [defaultSerialize] and [defaultDeserialize] *)
Definition defaultSerialize (data : value) : result str := stringify json data.

Definition defaultDeserialize (data : str) : value :=
  match parse json data with
  | Some v => v
  | None => VNull
  end.

(** [pipeline.serialize(data)] *)
Definition pipelineSerialize (data : value) : result str :=
  bind (match options with
        | Some {| serialize := Some custom |} => custom data
        | _ => defaultSerialize data
        end)
    (fun result =>
       let result :=
         if shouldCompress compress && (compressionThreshold compress <=? len result)
         then simpleCompress result else result in
       if encrypt then
         match base64Encode result with
         | Some encoded => Ok encoded
         | None => Throw uriError
         end
       else Ok result).

(** [pipeline.deserialize(data)]: any exception becomes [null]. *)
Definition pipelineDeserialize (data : str) : value :=
  let result := if encrypt then base64Decode data else data in
  match (if shouldCompress compress then simpleDecompress result else Some result) with
  | None => VNull
  | Some result =>
      match options with
      | Some {| deserialize := Some custom |} =>
          match custom result with
          | Ok v => v
          | Throw _ => VNull
          end
      | _ => defaultDeserialize result
      end
  end.

End Pipeline.

(** [wrapWithMetadata(data, version, expiration)] at clock time [now]. *)
Definition wrapWithMetadata (now : Z) (data : value) (version : Z)
    (expiration : option Z) : value :=
  let wrapped :=
    [("data", data); ("timestamp", VNum now); ("version", VNum version)] in
  match expiration with
  | Some minutes =>
      if 0 <? minutes
      then VObj (Js.set "expiresAt" (VNum (now + minutes * 60 * 1000)) wrapped)
      else VObj wrapped
  | None => VObj wrapped
  end.

(** [filterExcludedFields(data, exclude)] *)
Definition filterExcludedFields (data : obj) (exclude : list string) : obj :=
  match exclude with
  | [] => data
  | _ =>
      fold_left
        (fun filtered kv =>
           if existsb (String.eqb (fst kv)) exclude then filtered
           else Js.set (fst kv) (snd kv) filtered)
        data []
  end.

End Transform.

(** ** middleware/debounce.ts *)

Module Debounce.

Section Scheduler.
(** [A] is [Parameters<T>], the argument list handed to the callback. *)
Context {A : Type}.

(** A pending [setTimeout]: the time it is due and its registration number.
    Timers run in the order of their due times, and in registration order
    when due together. *)
Record timer : Type := mkTimer { due : Z; seq : nat }.

(** The variables closed over by [createDebouncedFn]. *)
Record DebouncedFn : Type := mkDebounced {
  d_timeoutId : option timer;
  d_lastArgs : option A
}.

(** The variables closed over by [createThrottledFn]. *)
Record ThrottledFn : Type := mkThrottled {
  t_lastCall : Z;
  t_timeoutId : option timer;
  t_lastArgs : option A
}.

(** One execution context: the clock read by [Date.now()], the timer
    counter, the calls the underlying callback has received (oldest first),
    and the two primitives. *)
Record world : Type := mkWorld {
  now : Z;
  nextSeq : nat;
  invoked : list A;
  debounce : DebouncedFn;
  throttle : ThrottledFn
}.

(** A fresh controller at clock time [t]: no timer, no arguments, and
    [lastCall = 0]. *)
Definition init (t : Z) : world :=
  {| now := t; nextSeq := 0%nat; invoked := [];
     debounce := {| d_timeoutId := None; d_lastArgs := None |};
     throttle := {| t_lastCall := 0; t_timeoutId := None; t_lastArgs := None |} |}.

(** [callback(...args)] *)
Definition callback (args : A) (w : world) : world :=
  {| now := now w; nextSeq := nextSeq w; invoked := invoked w ++ [args];
     debounce := debounce w; throttle := throttle w |}.

Definition setDebounce (d : DebouncedFn) (w : world) : world :=
  {| now := now w; nextSeq := nextSeq w; invoked := invoked w;
     debounce := d; throttle := throttle w |}.

Definition setThrottle (t : ThrottledFn) (w : world) : world :=
  {| now := now w; nextSeq := nextSeq w; invoked := invoked w;
     debounce := debounce w; throttle := t |}.

(** [setTimeout(f, delay)]: the timer and the world with the counter
    advanced.  A negative delay counts as zero. *)
Definition setTimeout (delay : Z) (w : world) : timer * world :=
  ({| due := now w + Z.max 0 delay; seq := nextSeq w |},
   {| now := now w; nextSeq := S (nextSeq w); invoked := invoked w;
      debounce := debounce w; throttle := throttle w |}).

(** *** createDebouncedFn *)

Definition debounce_cancel (w : world) : world :=
  setDebounce {| d_timeoutId := None; d_lastArgs := None |} w.

Definition debounce_flush (w : world) : world :=
  match d_timeoutId (debounce w), d_lastArgs (debounce w) with
  | Some _, Some argsToUse => callback argsToUse (debounce_cancel w)
  | _, _ => w
  end.

Definition debounce_pending (w : world) : bool :=
  match d_timeoutId (debounce w) with Some _ => true | None => false end.

(** [debounced(...args)]: remember the arguments, drop the running timer,
    start a new one. *)
Definition debounced (wait : Z) (args : A) (w : world) : world :=
  let (id, w) := setTimeout wait w in
  setDebounce {| d_timeoutId := Some id; d_lastArgs := Some args |} w.

(** The body of the timer started by [debounced]. *)
Definition debounce_timeout (w : world) : world :=
  let lastArgs := d_lastArgs (debounce w) in
  let w := setDebounce {| d_timeoutId := None; d_lastArgs := lastArgs |} w in
  match lastArgs with
  | Some argsToUse =>
      callback argsToUse (setDebounce {| d_timeoutId := None; d_lastArgs := None |} w)
  | None => w
  end.

(** *** createThrottledFn *)

Definition throttle_cancel (w : world) : world :=
  setThrottle {| t_lastCall := t_lastCall (throttle w);
                 t_timeoutId := None; t_lastArgs := None |} w.

(** [throttled(...args)] *)
Definition throttled (interval : Z) (args : A) (w : world) : world :=
  let t := throttle w in
  let remaining := interval - (now w - t_lastCall t) in
  if remaining <=? 0 then
    callback args
      (setThrottle {| t_lastCall := now w; t_timeoutId := None;
                      t_lastArgs := Some args |} w)
  else
    match t_timeoutId t with
    | None =>
        let (id, w) := setTimeout remaining w in
        setThrottle {| t_lastCall := t_lastCall t; t_timeoutId := Some id;
                       t_lastArgs := Some args |} w
    | Some id =>
        setThrottle {| t_lastCall := t_lastCall t; t_timeoutId := Some id;
                       t_lastArgs := Some args |} w
    end.

(** The body of the trailing timer started by [throttled]. *)
Definition throttle_timeout (w : world) : world :=
  let lastArgs := t_lastArgs (throttle w) in
  let w := setThrottle {| t_lastCall := now w; t_timeoutId := None;
                          t_lastArgs := lastArgs |} w in
  match lastArgs with
  | Some args =>
      setThrottle {| t_lastCall := now w; t_timeoutId := None; t_lastArgs := None |}
        (callback args w)
  | None => w
  end.

(** *** createSaveController *)

(** The arguments [debounceWait] and [throttleInterval?] of
    [createSaveController]. *)
Record SaveController : Type := mkController {
  debounceWait : Z;
  throttleInterval : option Z
}.

(** [!throttleInterval]: absent or zero. *)
Definition noThrottle (c : SaveController) : bool :=
  match throttleInterval c with
  | None => true
  | Some i => i =? 0
  end.

Definition save (c : SaveController) (args : A) (w : world) : world :=
  match throttleInterval c with
  | Some interval =>
      if interval =? 0 then debounced (debounceWait c) args w
      else throttled interval args (debounced (debounceWait c) args w)
  | None => debounced (debounceWait c) args w
  end.

Definition cancel (c : SaveController) (w : world) : world :=
  if noThrottle c then debounce_cancel w
  else throttle_cancel (debounce_cancel w).

Definition flush (c : SaveController) (w : world) : world := debounce_flush w.

Definition pending (c : SaveController) (w : world) : bool := debounce_pending w.

(** *** The event loop *)

(** Which timer body runs next. *)
Inductive owner : Type := OfDebounce | OfThrottle.

(** [t] is due by [target]; [None] is no bound, for running to quiescence. *)
Definition dueBy (target : option Z) (t : timer) : bool :=
  match target with
  | Some limit => due t <=? limit
  | None => true
  end.

Definition before (a b : timer) : bool :=
  (due a <? due b) || ((due a =? due b) && (seq a <=? seq b)%nat).

Definition dueTimer (target : option Z) (id : option timer) : option timer :=
  match id with
  | Some t => if dueBy target t then Some t else None
  | None => None
  end.

(** The earliest pending timer that is due by [target]. *)
Definition nextTimer (target : option Z) (w : world) : option (owner * timer) :=
  match dueTimer target (d_timeoutId (debounce w)),
        dueTimer target (t_timeoutId (throttle w)) with
  | None, None => None
  | Some a, None => Some (OfDebounce, a)
  | None, Some b => Some (OfThrottle, b)
  | Some a, Some b => if before a b then Some (OfDebounce, a) else Some (OfThrottle, b)
  end.

(** Run one timer: the clock moves to its due time and its body runs. *)
Definition fire (o : owner) (t : timer) (w : world) : world :=
  let w := {| now := Z.max (now w) (due t); nextSeq := nextSeq w;
              invoked := invoked w; debounce := debounce w;
              throttle := throttle w |} in
  match o with
  | OfDebounce => debounce_timeout w
  | OfThrottle => throttle_timeout w
  end.

(** Run at most [fuel] timers that are due by [target], earliest first. *)
Fixpoint runTimers (fuel : nat) (target : option Z) (w : world) : world :=
  match fuel with
  | O => w
  | S fuel =>
      match nextTimer target w with
      | None => w
      | Some (o, t) => runTimers fuel target (fire o t w)
      end
  end.

(** The number of pending timers.  A timer body starts no timer, so this
    many steps empty the queue. *)
Definition pendingTimers (w : world) : nat :=
  length (option_list (d_timeoutId (debounce w))) +
  length (option_list (t_timeoutId (throttle w))).

(** Let the clock reach [t], running every timer due on the way. *)
Definition advance (t : Z) (w : world) : world :=
  let w := runTimers (pendingTimers w) (Some t) w in
  {| now := Z.max (now w) t; nextSeq := nextSeq w; invoked := invoked w;
     debounce := debounce w; throttle := throttle w |}.

(** Quiescence: no further call is made and every pending timer runs. *)
Definition settle (w : world) : world := runTimers (pendingTimers w) None w.

(** A call made by the application at a given time. *)
Inductive call : Type :=
| Debounced (wait : Z) (args : A)
| Throttled (interval : Z) (args : A)
| Save (c : SaveController) (args : A)
| Cancel (c : SaveController)
| Flush (c : SaveController).

Definition perform (k : call) (w : world) : world :=
  match k with
  | Debounced wait args => debounced wait args w
  | Throttled interval args => throttled interval args w
  | Save c args => save c args w
  | Cancel c => cancel c w
  | Flush c => flush c w
  end.

(** Run a script of timed calls: before each call the clock advances to the
    time of the call. *)
Definition runScript (script : list (Z * call)) (w : world) : world :=
  fold_left (fun w tk => perform (snd tk) (advance (fst tk) w)) script w.

(** *** Bursts of calls, and the states a burst passes through *)

(** Consecutive calls are less than [wait] apart: the call after one made at
    [t] comes at some [t'] with [t <= t' < t + wait]. *)
Fixpoint rapid (wait t : Z) (rest : list (Z * A)) : Prop :=
  match rest with
  | [] => True
  | (t', _) :: rest' => t <= t' < t + wait /\ rapid wait t' rest'
  end.

(** Every call of the burst comes before [limit]. *)
Definition allBefore (limit : Z) (rest : list (Z * A)) : Prop :=
  Forall (fun ta => fst ta < limit) rest.

Definition debouncedCalls (wait : Z) (l : list (Z * A)) : list (Z * call) :=
  map (fun ta => (fst ta, Debounced wait (snd ta))) l.

Definition saveCalls (c : SaveController) (l : list (Z * A)) : list (Z * call) :=
  map (fun ta => (fst ta, Save c (snd ta))) l.

(** The world between two calls of a burst on a debounced function: the
    last call was made at [t] with [a], its timer is running, and the
    callback has not been reached. *)
Definition armed (wait t : Z) (a : A) (w : world) : Prop :=
  now w = t /\ invoked w = [] /\
  (exists n, d_timeoutId (debounce w) = Some {| due := t + Z.max 0 wait; seq := n |}) /\
  d_lastArgs (debounce w) = Some a /\
  t_timeoutId (throttle w) = None.

(** The world after the first [save] of a burst on the combined controller:
    the throttle has run the callback at once and the debounce timer is
    running. *)
Definition led (wait t0 : Z) (a0 : A) (w : world) : Prop :=
  now w = t0 /\ invoked w = [a0] /\
  (exists n, d_timeoutId (debounce w) = Some {| due := t0 + Z.max 0 wait; seq := n |}) /\
  d_lastArgs (debounce w) = Some a0 /\
  t_lastCall (throttle w) = t0 /\
  t_timeoutId (throttle w) = None /\
  t_lastArgs (throttle w) = Some a0.

(** The world after a later [save] of the burst, made at [t] with [a]: both
    timers are running and both hold [a]. *)
Definition trailing (wait interval t0 : Z) (a0 : A) (t : Z) (a : A) (w : world) : Prop :=
  now w = t /\ invoked w = [a0] /\
  (exists n, d_timeoutId (debounce w) = Some {| due := t + Z.max 0 wait; seq := n |}) /\
  d_lastArgs (debounce w) = Some a /\
  t_lastCall (throttle w) = t0 /\
  (exists m, t_timeoutId (throttle w) = Some {| due := t0 + interval; seq := m |}) /\
  t_lastArgs (throttle w) = Some a.

Definition combined (wait interval : Z) : SaveController :=
  {| debounceWait := wait; throttleInterval := Some interval |}.

End Scheduler.

Arguments world : clear implicits.
Arguments call : clear implicits.
Arguments DebouncedFn : clear implicits.
Arguments ThrottledFn : clear implicits.

End Debounce.

(** ** middleware/validate.ts *)

Module Validate.
Import Js.

(** [type PersistError] *)
Inductive PersistError : Type :=
| STORAGE_FULL
| QUOTA_EXCEEDED
| CORRUPTED_DATA
| PARSE_ERROR
| VALIDATION_FAILED
| MIGRATION_FAILED
| UNKNOWN.

(** [interface PersistErrorInfo] *)
Record PersistErrorInfo : Type := mkErrorInfo {
  type : PersistError;
  key : string;
  info_message : string;
  error : option Error
}.

(** ['key' in o] *)
Definition has (key : string) (o : obj) : bool :=
  match get key o with
  | Some _ => true
  | None => false
  end.

(** [typeof v === 'number'] *)
Definition isNumber (v : value) : bool :=
  match v with
  | VNum _ => true
  | _ => false
  end.

(** [isValidPersistedData(data)].  Only an object can pass: ['data' in x]
    is false on an array, and the first test rejects everything else. *)
Definition isValidPersistedData (data : value) : bool :=
  match data with
  | VObj persisted =>
      has "data" persisted &&
      has "timestamp" persisted && isNumber (read "timestamp" persisted) &&
      has "version" persisted && isNumber (read "version" persisted)
  | _ => false
  end.

(** The number a value is read as on the right of [>]: [None] is [NaN].
    [coerce] is the runtime's conversion of strings, arrays and objects. *)
Definition toNumber (coerce : value -> option Z) (v : value) : option Z :=
  match v with
  | VNum n => Some n
  | VNull => Some 0
  | VBool b => Some (if b then 1 else 0)
  | VUndefined => None
  | _ => coerce v
  end.

(** [data.x] for a value that passed [isValidPersistedData]. *)
Definition field (key : string) (data : value) : value :=
  match data with
  | VObj o => read key o
  | _ => VUndefined
  end.

(** [isExpired(data)] when [Date.now()] is [now]. *)
Definition isExpired (coerce : value -> option Z) (now : Z) (data : value) : bool :=
  match field "expiresAt" data with
  | VUndefined => false
  | expiresAt =>
      match toNumber coerce expiresAt with
      | Some e => e <? now
      | None => false
      end
  end.

(** [needsMigration(storedVersion, currentVersion)] *)
Definition needsMigration (storedVersion currentVersion : Z) : bool :=
  storedVersion <? currentVersion.

(** [type MigrateFn<T>]: the caller's migration, which may throw. *)
Definition MigrateFn : Type := value -> Z -> result value.

(** [migrateData(data, storedVersion, currentVersion, migrateFn)] *)
Definition migrateData (data : value) (storedVersion currentVersion : Z)
    (migrateFn : option MigrateFn) : value :=
  if negb (needsMigration storedVersion currentVersion) then data
  else
    match migrateFn with
    | None => data
    | Some f =>
        match f data storedVersion with
        | Ok migrated => migrated
        | Throw _ => VNull
        end
    end.

(** [createErrorInfo(type, key, message, error)] *)
Definition createErrorInfo (type : PersistError) (key message : string)
    (error : option Error) : PersistErrorInfo :=
  {| type := type; key := key; info_message := message; error := error |}.

(** [s.toLowerCase()] on the letters A to Z. *)
Definition lowerAscii (c : Ascii.ascii) : Ascii.ascii :=
  let n := Ascii.nat_of_ascii c in
  if ((65 <=? n) && (n <=? 90))%nat then Ascii.ascii_of_nat (n + 32) else c.

Fixpoint toLowerCase (s : string) : string :=
  match s with
  | EmptyString => EmptyString
  | String c rest => String (lowerAscii c) (toLowerCase rest)
  end.

(** [hay.includes(needle)] *)
Fixpoint includes (needle hay : string) : bool :=
  String.prefix needle hay ||
  match hay with
  | EmptyString => false
  | String _ rest => includes needle rest
  end.

(** [detectErrorType(error)] for an [Error]. *)
Definition detectErrorType (e : Error) : PersistError :=
  let message := toLowerCase (message e) in
  let name := toLowerCase (name e) in
  if String.eqb name "quotaexceedederror" || includes "quota" message ||
     includes "storage full" message || includes "exceeded the quota" message
  then QUOTA_EXCEEDED
  else if String.eqb name "syntaxerror" || includes "json" message ||
          includes "parse" message || includes "unexpected token" message
  then PARSE_ERROR
  else UNKNOWN.

(** [validateData(data, validateFn)] *)
Definition validateData (data : value) (validateFn : option (value -> result bool)) : bool :=
  match validateFn with
  | None => true
  | Some f =>
      match f data with
      | Ok b => b
      | Throw _ => false
      end
  end.

End Validate.

(** ** storage/adapters.ts *)

Module Storage.
Import Js Transform.

(** The contents of a key/value backend. *)
Abbreviation store := (gmap string str).

(** [interface StorageAdapter] over a backend. *)
Record StorageAdapter : Type := mkAdapter {
  getItem : string -> store -> option str;
  setItem : string -> str -> store -> result store;
  removeItem : string -> store -> store
}.

(** [createMemoryStorage()] *)
Definition createMemoryStorage : StorageAdapter :=
  {| getItem := fun key st => st !! key;
     setItem := fun key v st => Ok (<[key := v]> st);
     removeItem := fun key st => delete key st |}.

(** [createBrowserStorageAdapter(storage)].  [rejects] is the browser's
    refusal of a write, the error [storage.setItem] throws when the quota is
    exceeded. *)
Definition createBrowserStorageAdapter
    (rejects : string -> str -> store -> option Error) : StorageAdapter :=
  {| getItem := fun key st => st !! key;
     setItem := fun key v st =>
       match rejects key v st with
       | Some e => Throw e
       | None => Ok (<[key := v]> st)
       end;
     removeItem := fun key st => delete key st |}.

(** [getStringByteSize(str)]: [blob] is [new Blob([str]).size] where [Blob]
    exists. *)
Definition getStringByteSize (blob : option (str -> Z)) (s : str) : Z :=
  match blob with
  | Some size => size s
  | None => len s * 2
  end.

End Storage.

(** ** sync/syncManager.ts *)

Module Sync.
Import Js Transform.

Inductive MessageType : Type := Update | Clear | Request.

Inductive Source : Type := FromStorage | FromBroadcast.

Inductive Strategy : Type := LatestWins | MergeStrategy | AskUser.

(** [interface SyncMessage<T>]; an absent [data] is [undefined]. *)
Record SyncMessage : Type := mkMessage {
  msg_type : MessageType;
  msg_key : string;
  msg_data : value;
  msg_timestamp : Z;
  msg_tabId : string
}.

(** The fields of a [StorageEvent] the manager reads; [null] is [None]. *)
Record StorageEvent : Type := mkStorageEvent {
  ev_key : option string;
  ev_newValue : option str
}.

Section Manager.
(** [C] names the functions handed to the manager: the callback registered
    with [onSync(cb)] and the [onSync] hook of the options.  They are
    observers: the model records their invocations. *)
Context {C : Type}.

(** [interface SyncOptions<T>], as far as the manager reads it. *)
Record SyncOptions : Type := mkSyncOptions {
  strategy : option Strategy;
  opt_onSync : option C;
  conflictResolver : bool;
  channel : option string
}.

(** The fields of a [SyncManager]. *)
Record SyncManager : Type := mkManager {
  key : string;
  options : SyncOptions;
  tabId : string;
  callback : option C;
  isDestroyed : bool
}.

(** An invocation [f(data, source)]. *)
Record invocation : Type := mkInvocation {
  callee : C;
  payload : value;
  source : Source
}.

(** [f?.(data, source)] *)
Definition invoke (f : option C) (data : value) (src : Source) : list invocation :=
  match f with
  | Some c => [{| callee := c; payload := data; source := src |}]
  | None => []
  end.

(** [new SyncManager(key, options)] with the given tab identifier. *)
Definition create (k : string) (o : SyncOptions) (id : string) : SyncManager :=
  {| key := k; options := o; tabId := id; callback := None; isDestroyed := false |}.

(** [onSync(callback)] *)
Definition onSync (cb : C) (m : SyncManager) : SyncManager :=
  {| key := key m; options := options m; tabId := tabId m;
     callback := Some cb; isDestroyed := isDestroyed m |}.

(** [destroy()] *)
Definition destroy (m : SyncManager) : SyncManager :=
  {| key := key m; options := options m; tabId := tabId m;
     callback := None; isDestroyed := true |}.

(** [handleIncomingData(data, source)]: the three branches of the source
    make the same two calls. *)
Definition handleIncomingData (m : SyncManager) (data : value) (src : Source)
    : list invocation :=
  match default LatestWins (strategy (options m)) with
  | LatestWins =>
      invoke (callback m) data src ++ invoke (opt_onSync (options m)) data src
  | _ =>
      if conflictResolver (options m)
      then invoke (callback m) data src ++ invoke (opt_onSync (options m)) data src
      else invoke (callback m) data src ++ invoke (opt_onSync (options m)) data src
  end.

Definition isUpdate (t : MessageType) : bool :=
  match t with Update => true | _ => false end.

Definition isClear (t : MessageType) : bool :=
  match t with Clear => true | _ => false end.

(** [handleBroadcastMessage(event)] for [event.data = message]. *)
Definition handleBroadcastMessage (m : SyncManager) (message : SyncMessage)
    : list invocation :=
  if isDestroyed m then []
  else if String.eqb (msg_tabId message) (tabId m) then []
  else if negb (String.eqb (msg_key message) (key m)) then []
  else if isUpdate (msg_type message) && defined (msg_data message)
  then handleIncomingData m (msg_data message) FromBroadcast
  else if isClear (msg_type message)
  then invoke (opt_onSync (options m)) VUndefined FromBroadcast
  else [].

(** [parsed.data] *)
Definition dataOf (parsed : value) : value :=
  match parsed with
  | VObj o => read "data" o
  | _ => VUndefined
  end.

(** [handleStorageEvent(event)] *)
Definition handleStorageEvent (json : Json) (m : SyncManager) (event : StorageEvent)
    : list invocation :=
  if isDestroyed m then []
  else
    match ev_key event with
    | None => []
    | Some k =>
        if negb (String.eqb k (key m)) then []
        else
          match ev_newValue event with
          | None => invoke (opt_onSync (options m)) VUndefined FromStorage
          | Some newValue =>
              match parse json newValue with
              | Some parsed =>
                  if truthy parsed && truthy (dataOf parsed)
                  then handleIncomingData m (dataOf parsed) FromStorage
                  else []
              | None => []
              end
          end
    end.

End Manager.

Arguments SyncOptions : clear implicits.
Arguments SyncManager : clear implicits.
Arguments invocation : clear implicits.

End Sync.

(** ** hooks/useFormPersist.ts *)

Module Hook.
Import Js Transform Validate Storage.

(** core/constants.ts *)
Definition DEFAULT_KEY_PREFIX : string := "rfp:".
Definition DEFAULT_MAX_HISTORY : Z := 50.

(** The [history] option: absent or [false], [true], or
    [{ maxHistory? }]. *)
Inductive HistoryOption : Type :=
| HistoryOff
| HistoryOn
| HistoryWith (maxHistory : option Z).

(** The merged options the hook reads.  A callback that only observes
    ([onRestore], [onError], [onStorageFull]) is present or absent; [merge]
    is the function [getMergeFunction] returned. *)
Record FormPersistOptions : Type := mkOptions {
  enabled : bool;
  expiration : option Z;
  exclude : list string;
  transform : option TransformOptions;
  onRestore : bool;
  onError : bool;
  onStorageFull : bool;
  merge : value -> value -> result value;
  version : option Z;
  migrate : option MigrateFn;
  compress : CompressOption;
  validate : option (value -> result bool);
  beforePersist : option (value -> result value);
  keyPrefix : option string;
  warnSize : option Z;
  history_option : HistoryOption
}.

(** What the hook finds around it: whether it runs on a server, the
    runtime's JSON and number conversion, [Blob], and the storage adapter
    [getStorageAdapter] resolved. *)
Record Environment : Type := mkEnvironment {
  isSSR : bool;
  json : Json;
  coerce : value -> option Z;
  blob : option (str -> Z);
  storage : StorageAdapter
}.

(** The React state and refs of one hook instance. *)
Record HookState : Type := mkHookState {
  state : value;
  isPersisted : bool;
  isRestored : bool;
  lastSaved : option Z;
  isPaused : bool;
  size : Z;
  history : list value;
  historyIndex : Z;
  isMounted : bool
}.

(** What the hook does to the outside: the caller's callbacks it invokes
    and the warnings it prints. *)
Inductive effect : Type :=
| OnError (info : PersistErrorInfo)
| OnStorageFull (info : PersistErrorInfo)
| OnRestore (data : value)
| ConsoleWarn (dataSize limit : Z).

(** The backend, the hook, and the effects so far (oldest first). *)
Record world : Type := mkWorld {
  backend : store;
  hook : HookState;
  effects : list effect
}.

(** The options with another [validate] hook. *)
Definition withValidate (f : option (value -> result bool))
    (o : FormPersistOptions) : FormPersistOptions :=
  {| enabled := enabled o; expiration := expiration o; exclude := exclude o;
     transform := transform o; onRestore := onRestore o; onError := onError o;
     onStorageFull := onStorageFull o; merge := merge o; version := version o;
     migrate := migrate o; compress := compress o; validate := f;
     beforePersist := beforePersist o; keyPrefix := keyPrefix o;
     warnSize := warnSize o; history_option := history_option o |}.

(** The options with another [migrate] hook and schema version. *)
Definition withMigrate (v : option Z) (f : option MigrateFn)
    (o : FormPersistOptions) : FormPersistOptions :=
  {| enabled := enabled o; expiration := expiration o; exclude := exclude o;
     transform := transform o; onRestore := onRestore o; onError := onError o;
     onStorageFull := onStorageFull o; merge := merge o; version := v;
     migrate := f; compress := compress o; validate := validate o;
     beforePersist := beforePersist o; keyPrefix := keyPrefix o;
     warnSize := warnSize o; history_option := history_option o |}.

(** The hook once its mount effect has started. *)
Definition mounted (h : HookState) : HookState :=
  {| state := state h; isPersisted := isPersisted h; isRestored := isRestored h;
     lastSaved := lastSaved h; isPaused := isPaused h; size := size h;
     history := history h; historyIndex := historyIndex h; isMounted := true |}.

Section UseFormPersist.
Variable env : Environment.
Variable key : string.
Variable initialState : value.
Variable options : FormPersistOptions.

Definition fullKey : string :=
  default DEFAULT_KEY_PREFIX (keyPrefix options) +:+ key.

(** The first render: [useState(initialState)] and its companions. *)
Definition mount : HookState :=
  {| state := initialState; isPersisted := false; isRestored := false;
     lastSaved := None; isPaused := false; size := 0;
     history := [initialState]; historyIndex := 0; isMounted := false |}.

Definition emit (es : list effect) (w : world) : world :=
  {| backend := backend w; hook := hook w; effects := effects w ++ es |}.

(** [handleError(type, message, error)] *)
Definition handleError (type : PersistError) (message : string)
    (error : option Error) (w : world) : world :=
  let errorInfo := createErrorInfo type fullKey message error in
  let full :=
    match type with
    | QUOTA_EXCEEDED | STORAGE_FULL =>
        if onStorageFull options then [OnStorageFull errorInfo] else []
    | _ => []
    end in
  emit (full ++ (if onError options then [OnError errorInfo] else [])) w.

Definition transformerSerialize : value -> result str :=
  pipelineSerialize (json env) (transform options) (compress options) false.

Definition transformerDeserialize : str -> value :=
  pipelineDeserialize (json env) (transform options) (compress options) false.

(** [filterExcludedFields(processedData, exclude)] on whatever
    [beforePersist] returned: [Object.keys] throws on [null] and
    [undefined]. *)
Definition excludeFields (data : value) : result value :=
  match exclude options with
  | [] => Ok data
  | _ =>
      match data with
      | VNull | VUndefined =>
          Throw {| name := "TypeError";
                   message := "Cannot convert undefined or null to object" |}
      | _ => Ok (VObj (filterExcludedFields (Merge.ownProperties data) (exclude options)))
      end
  end.

(** The data [saveToStorage] validates and wraps: [beforePersist], then
    the exclusion filter. *)
Definition processData (dataToSave : value) : result value :=
  bind (match beforePersist options with
        | Some f => f dataToSave
        | None => Ok dataToSave
        end)
       excludeFields.

(** [warnSize && dataSize > warnSize] *)
Definition warning (dataSize : Z) : list effect :=
  match warnSize options with
  | Some limit =>
      if negb (limit =? 0) && (limit <? dataSize) then [ConsoleWarn dataSize limit] else []
  | None => []
  end.

(** The [catch] clause of [saveToStorage]. *)
Definition saveFailed (e : Error) (w : world) : world :=
  handleError (detectErrorType e) (message e) (Some e) w.

(** [saveToStorage(dataToSave)] when [Date.now()] is [now]. *)
Definition saveToStorage (now : Z) (dataToSave : value) (w : world) : world :=
  if negb (enabled options) || isPaused (hook w) || isSSR env then w
  else
    match processData dataToSave with
    | Throw e => saveFailed e w
    | Ok processedData =>
        if negb (validateData processedData (validate options)) then w
        else
          let wrapped :=
            wrapWithMetadata now processedData (default 1 (version options))
              (expiration options) in
          match transformerSerialize wrapped with
          | Throw e => saveFailed e w
          | Ok serialized =>
              let dataSize := getStringByteSize (blob env) serialized in
              let w := emit (warning dataSize) w in
              match setItem (storage env) fullKey serialized (backend w) with
              | Throw e => saveFailed e w
              | Ok st =>
                  let h := hook w in
                  {| backend := st;
                     hook := {| state := state h; isPersisted := true;
                                isRestored := isRestored h; lastSaved := Some now;
                                isPaused := isPaused h; size := dataSize;
                                history := history h;
                                historyIndex := historyIndex h;
                                isMounted := isMounted h |};
                     effects := effects w |}
              end
          end
    end.

(** [parsed.version] and [parsed.timestamp] after validation. *)
Definition numberOf (v : value) : Z :=
  match v with
  | VNum n => n
  | _ => 0
  end.

(** The state updates at the end of a successful load. *)
Definition restored (data : value) (timestamp : Z) (h : HookState) : HookState :=
  {| state := data; isPersisted := true; isRestored := true;
     lastSaved := Some timestamp; isPaused := isPaused h; size := size h;
     history := [data]; historyIndex := 0; isMounted := isMounted h |}.

(** [loadFromStorage()] when [Date.now()] is [now]. *)
Definition loadFromStorage (now : Z) (w : world) : world :=
  match getItem (storage env) fullKey (backend w) with
  | None => w
  | Some [] => w
  | Some raw =>
      let parsed := transformerDeserialize raw in
      if negb (truthy parsed)
      then handleError CORRUPTED_DATA "Failed to parse stored data" None w
      else if negb (isValidPersistedData parsed)
      then handleError CORRUPTED_DATA "Invalid data structure" None w
      else if isExpired (coerce env) now parsed
      then {| backend := removeItem (storage env) fullKey (backend w);
              hook := hook w; effects := effects w |}
      else
        let data :=
          migrateData (field "data" parsed) (numberOf (field "version" parsed))
            (default 1 (version options)) (migrate options) in
        match data with
        | VNull => handleError MIGRATION_FAILED "Failed to migrate data" None w
        | _ =>
            match merge options data initialState with
            | Throw e => handleError UNKNOWN (message e) (Some e) w
            | Ok data =>
                {| backend := backend w;
                   hook := restored data (numberOf (field "timestamp" parsed)) (hook w);
                   effects := effects w ++ (if onRestore options then [OnRestore data] else []) |}
            end
        end
  end.

(** The effect that loads on mount. *)
Definition loadOnMount (now : Z) (w : world) : world :=
  if isSSR env || negb (enabled options) || isMounted (hook w) then w
  else
    loadFromStorage now
      {| backend := backend w; hook := mounted (hook w); effects := effects w |}.

(** *** The history kept by the hook *)

Definition maxHistory : Z :=
  match history_option options with
  | HistoryWith (Some m) => m
  | _ => DEFAULT_MAX_HISTORY
  end.

Definition historyEnabled : bool :=
  match history_option options with
  | HistoryOff => false
  | _ => true
  end.

Definition withHistory (l : list value) (i : Z) (s : value) (h : HookState) : HookState :=
  {| state := s; isPersisted := isPersisted h; isRestored := isRestored h;
     lastSaved := lastSaved h; isPaused := isPaused h; size := size h;
     history := l; historyIndex := i; isMounted := isMounted h |}.

(** The state updates of [setState(newState)]; the save it schedules goes
    through the save controller. *)
Definition setState (newState : value) (h : HookState) : HookState :=
  if historyEnabled then
    let newHistory := History.slice0 (historyIndex h + 1) (history h) ++ [newState] in
    let newHistory :=
      if maxHistory <? Z.of_nat (length newHistory)
      then History.shift newHistory else newHistory in
    withHistory newHistory (Z.min (historyIndex h + 1) (maxHistory - 1)) newState h
  else withHistory (history h) (historyIndex h) newState h.

Definition canUndo (h : HookState) : bool := 0 <? historyIndex h.

Definition canRedo (h : HookState) : bool :=
  historyIndex h <? Z.of_nat (length (history h)) - 1.

(** [undo()] and [redo()] *)
Definition undo (h : HookState) : HookState :=
  if negb (canUndo h) then h
  else
    let newIndex := historyIndex h - 1 in
    withHistory (history h) newIndex
      (default VUndefined (History.nth_js (history h) newIndex)) h.

Definition redo (h : HookState) : HookState :=
  if negb (canRedo h) then h
  else
    let newIndex := historyIndex h + 1 in
    withHistory (history h) newIndex
      (default VUndefined (History.nth_js (history h) newIndex)) h.

(** The state updates of [reset()]; it then clears the stored value. *)
Definition resetState (h : HookState) : HookState :=
  withHistory [initialState] 0 initialState h.

(** A call that touches the hook's history. *)
Inductive historyCall : Type :=
| SetState (newState : value)
| UndoCall
| RedoCall
| ResetCall.

Definition historyStep (h : HookState) (c : historyCall) : HookState :=
  match c with
  | SetState s => setState s h
  | UndoCall => undo h
  | RedoCall => redo h
  | ResetCall => resetState h
  end.

(** The invariant of the history the hook keeps. *)
Definition historyWellFormed (h : HookState) : Prop :=
  1 <= Z.of_nat (length (history h)) <= maxHistory /\
  0 <= historyIndex h <= Z.of_nat (length (history h)) - 1.

End UseFormPersist.

End Hook.

(** ** Sample data for the examples *)

Module Sample.
Import Js Transform Validate Storage Hook.

(** The code units of an ASCII text, and the text between double quotes. *)
Definition units (s : string) : str :=
  map (fun c => N.of_nat (Ascii.nat_of_ascii c)) (String.list_ascii_of_string s).

Definition quoted (s : string) : str := 34%N :: units s ++ [34%N].

(** A runtime whose [JSON.parse] knows the texts of a table and throws on
    any other, and whose [JSON.stringify] is given. *)
Definition jsonOf (table : list (str * value)) (print : value -> result str) : Json :=
  {| stringify := print;
     parse := fun text =>
       snd <$> List.find (fun entry => bool_decide (fst entry = text)) table |}.

Definition noPrinter (_ : value) : result str :=
  Throw {| name := "TypeError"; message := "not serializable" |}.

(** An envelope written at time 1000 that expired at time 2000, and the
    JSON text that stores it. *)
Definition expiredEnvelope : value :=
  VObj [("data", VObj [("name", VStr "John")]); ("timestamp", VNum 1000);
        ("version", VNum 1); ("expiresAt", VNum 2000)].

Definition expiredText : str :=
  units "{" ++ quoted "data" ++ units ":{" ++ quoted "name" ++ units ":" ++
  quoted "John" ++ units "}," ++ quoted "timestamp" ++ units ":1000," ++
  quoted "version" ++ units ":1," ++ quoted "expiresAt" ++ units ":2000}".

(** An envelope of schema version 1 without expiry. *)
Definition oldEnvelope : value :=
  VObj [("data", VObj [("name", VStr "John")]); ("timestamp", VNum 1000);
        ("version", VNum 1)].

Definition oldText : str :=
  units "{" ++ quoted "data" ++ units ":{" ++ quoted "name" ++ units ":" ++
  quoted "John" ++ units "}," ++ quoted "timestamp" ++ units ":1000," ++
  quoted "version" ++ units ":1}".

(** Backends holding one of these texts under the key of the form
    ["form"]. *)
Definition expiredStore : store := {[ "rfp:form" := expiredText ]}.

Definition oldStore : store := {[ "rfp:form" := oldText ]}.

Definition environment : Environment :=
  {| isSSR := false;
     json := jsonOf [(expiredText, expiredEnvelope); (oldText, oldEnvelope)] noPrinter;
     coerce := fun _ => None;
     blob := None;
     storage := createMemoryStorage |}.

(** The built-in defaults, with every observer callback supplied. *)
Definition options : FormPersistOptions :=
  {| enabled := true; expiration := None; exclude := []; transform := None;
     onRestore := true; onError := true; onStorageFull := true;
     merge := fun stored initial => Ok (Merge.shallowMerge stored initial);
     version := Some 1; migrate := None; compress := CompressAbsent;
     validate := None; beforePersist := None; keyPrefix := None;
     warnSize := None; history_option := HistoryOff |}.

Definition initialState : value := VObj [("name", VStr ""); ("email", VStr "")].

Definition failure : Error := {| name := "Error"; message := "boom" |}.

Definition throwingMigrate : MigrateFn := fun _ _ => Throw failure.

Definition throwingValidate : value -> result bool := fun _ => Throw failure.

(** A fresh hook over a backend. *)
Definition fresh (st : store) : world :=
  {| backend := st; hook := mount initialState; effects := [] |}.

(** A string of two thousand letters, the JSON text that stores it, and a
    runtime that prints and parses it. *)
Definition longValue : value :=
  VStr (String.string_of_list_ascii (repeat (Ascii.ascii_of_nat 97) 2000)).

Definition longText : str := 34%N :: repeat 97%N 2000 ++ [34%N].

Definition longJson : Json :=
  jsonOf [(longText, longValue)] (fun _ => Ok longText).

End Sample.

(** ** middleware/debounce.ts: bursts on the throttle alone *)

Module Schedules.
Import Debounce.

Section Schedules.
Context {A : Type}.

(** The calls after one made at [t] come at times that do not decrease. *)
Fixpoint ascending (t : Z) (rest : list (Z * A)) : Prop :=
  match rest with
  | [] => True
  | (t', _) :: rest' => t <= t' /\ ascending t' rest'
  end.

Definition throttledCalls (interval : Z) (l : list (Z * A)) : list (Z * call A) :=
  map (fun ta => (fst ta, Throttled interval (snd ta))) l.

(** The world after the first call of a burst on a throttled function
    alone: the callback has run and no timer is pending. *)
Definition throttleLed (t0 : Z) (a0 : A) (w : world A) : Prop :=
  now w = t0 /\ invoked w = [a0] /\
  d_timeoutId (debounce w) = None /\
  t_lastCall (throttle w) = t0 /\
  t_timeoutId (throttle w) = None /\
  t_lastArgs (throttle w) = Some a0.

(** The world after a later call of the burst, made at [t] with [a]: the
    trailing timer is set for the end of the window and holds [a]. *)
Definition throttleTrailing (interval t0 : Z) (a0 : A) (t : Z) (a : A)
    (w : world A) : Prop :=
  now w = t /\ invoked w = [a0] /\
  d_timeoutId (debounce w) = None /\
  t_lastCall (throttle w) = t0 /\
  (exists m, t_timeoutId (throttle w) = Some {| due := t0 + interval; seq := m |}) /\
  t_lastArgs (throttle w) = Some a.

(** The world between two calls of a burst on a debounced function, with
    whatever the callback has received before. *)
Definition armedAfter (log : list A) (wait t : Z) (a : A) (w : world A) : Prop :=
  now w = t /\ invoked w = log /\
  (exists n, d_timeoutId (debounce w) = Some {| due := t + Z.max 0 wait; seq := n |}) /\
  d_lastArgs (debounce w) = Some a /\
  t_timeoutId (throttle w) = None.

End Schedules.

End Schedules.

(** ** middleware/transform.ts: reading an envelope back *)

Module Envelope.
Import Js Transform Validate.

(** [unwrapData(wrapped)] when [Date.now()] is [now].  A truthy value of
    type ['object'] is an object or an array; on an array both properties
    read as [undefined]. *)
Definition unwrapData (coerce : value -> option Z) (now : Z) (wrapped : value) : value :=
  match wrapped with
  | VObj _ | VArr _ =>
      let expiresAt := field "expiresAt" wrapped in
      if truthy expiresAt &&
         match toNumber coerce expiresAt with
         | Some e => e <? now
         | None => false
         end
      then VNull
      else field "data" wrapped
  | _ => VNull
  end.

End Envelope.

(** ** sync/syncManager.ts: outgoing messages *)

Module Broadcast.
Import Js Sync.

Section Broadcast.
Context {C : Type}.

(** The guard and the [postMessage] shared by [broadcast],
    [broadcastClear] and [requestSync]: nothing is posted by a destroyed
    manager, on a server, or without a channel.  [channelOpen] says whether
    the constructor obtained a [BroadcastChannel]. *)
Definition post (isSSR channelOpen : bool) (m : SyncManager C)
    (message : SyncMessage) : list SyncMessage :=
  if isDestroyed m || isSSR then []
  else if channelOpen then [message] else [].

(** [broadcast(data)] when [Date.now()] is [now]. *)
Definition broadcast (isSSR channelOpen : bool) (now : Z) (data : value)
    (m : SyncManager C) : list SyncMessage :=
  post isSSR channelOpen m
    {| msg_type := Update; msg_key := key m; msg_data := data;
       msg_timestamp := now; msg_tabId := tabId m |}.

(** [broadcastClear()] *)
Definition broadcastClear (isSSR channelOpen : bool) (now : Z)
    (m : SyncManager C) : list SyncMessage :=
  post isSSR channelOpen m
    {| msg_type := Clear; msg_key := key m; msg_data := VUndefined;
       msg_timestamp := now; msg_tabId := tabId m |}.

(** [requestSync()] *)
Definition requestSync (isSSR channelOpen : bool) (now : Z)
    (m : SyncManager C) : list SyncMessage :=
  post isSSR channelOpen m
    {| msg_type := Request; msg_key := key m; msg_data := VUndefined;
       msg_timestamp := now; msg_tabId := tabId m |}.

(** The invocations a manager makes for the messages delivered to it. *)
Definition deliver (m : SyncManager C) (messages : list SyncMessage)
    : list (invocation C) :=
  concat (map (handleBroadcastMessage m) messages).

End Broadcast.

End Broadcast.

(** ** hooks/useFormPersist.ts: the other actions *)

Module Actions.
Import Js Transform Validate Storage Hook.

(** The adapters [getStorageAdapter] builds itself: the in-memory one and
    the wrapper of a browser storage. *)
Definition builtin (a : StorageAdapter) : Prop :=
  a = createMemoryStorage \/
  exists rejects, a = createBrowserStorageAdapter rejects.

Section Actions.
Variable env : Environment.
Variable key : string.
Variable initialState : value.
Variable options : FormPersistOptions.

(** The bookkeeping [clear()] resets. *)
Definition unpersisted (h : HookState) : HookState :=
  {| state := state h; isPersisted := false; isRestored := isRestored h;
     lastSaved := None; isPaused := isPaused h; size := 0;
     history := history h; historyIndex := historyIndex h;
     isMounted := isMounted h |}.

(** [clear()] *)
Definition clear (w : world) : world :=
  {| backend := removeItem (storage env) (fullKey key options) (backend w);
     hook := unpersisted (hook w);
     effects := effects w |}.

(** [reset()] *)
Definition reset (w : world) : world :=
  clear {| backend := backend w;
           hook := resetState initialState (hook w);
           effects := effects w |}.

(** [getPersistedValue()] when [Date.now()] is [now]; [null] is [VNull]. *)
Definition getPersistedValue (now : Z) (w : world) : value :=
  if isSSR env then VNull
  else
    match getItem (storage env) (fullKey key options) (backend w) with
    | None => VNull
    | Some [] => VNull
    | Some raw =>
        let parsed := transformerDeserialize env options raw in
        if negb (truthy parsed) || negb (isValidPersistedData parsed) then VNull
        else if isExpired (coerce env) now parsed then VNull
        else field "data" parsed
    end.

Definition withState (s : value) (h : HookState) : HookState :=
  {| state := s; isPersisted := isPersisted h; isRestored := isRestored h;
     lastSaved := lastSaved h; isPaused := isPaused h; size := size h;
     history := history h; historyIndex := historyIndex h;
     isMounted := isMounted h |}.

(** [revert()] *)
Definition revert (now : Z) (w : world) : world :=
  let persisted := getPersistedValue now w in
  if truthy persisted
  then {| backend := backend w; hook := withState persisted (hook w);
          effects := effects w |}
  else w.



End Actions.

End Actions.

(** ** More sample data for the examples *)

Module SaveSample.
Import Js Transform Validate Storage Hook.

Definition form : value := VObj [("name", VStr "John")].

(** A runtime that prints the envelope of [form] written at time 1000 and
    parses its text. *)
Definition printing : Json :=
  Sample.jsonOf [(Sample.oldText, Sample.oldEnvelope)] (fun _ => Ok Sample.oldText).

Definition environment : Environment :=
  {| isSSR := false; json := printing; coerce := fun _ => None; blob := None;
     storage := createMemoryStorage |}.

(** A browser storage that is full. *)
Definition quotaError : Error :=
  {| name := "QuotaExceededError"; message := "The quota has been exceeded." |}.

Definition fullEnvironment : Environment :=
  {| isSSR := false; json := printing; coerce := fun _ => None; blob := None;
     storage := createBrowserStorageAdapter (fun _ _ _ => Some quotaError) |}.

(** The sample options with a history of at most three states. *)
Definition historyOptions : FormPersistOptions :=
  {| enabled := true; expiration := None; exclude := []; transform := None;
     onRestore := true; onError := true; onStorageFull := true;
     merge := fun stored initial => Ok (Merge.shallowMerge stored initial);
     version := Some 1; migrate := None; compress := CompressAbsent;
     validate := None; beforePersist := None; keyPrefix := None;
     warnSize := None; history_option := HistoryWith (Some 3) |}.

End SaveSample.

(** ** utils/clearGroup.ts *)

Module Group.
Import Transform.

(** A browser [Storage]: its entries in the order of [key(i)]. *)
Definition Storage : Type := list (string * str).

Definition key (i : nat) (storage : Storage) : option string :=
  fst <$> storage !! i.

Definition getItem (k : string) (storage : Storage) : option str :=
  snd <$> List.find (fun entry => String.eqb (fst entry) k) storage.

Definition removeItem (k : string) (storage : Storage) : Storage :=
  List.filter (fun entry => negb (String.eqb (fst entry) k)) storage.

(** [s.startsWith(prefix)] and [s.slice(n)] *)
Definition startsWith (s prefix : string) : bool := String.prefix prefix s.

Fixpoint slice (n : nat) (s : string) : string :=
  match n, s with
  | O, _ => s
  | S n', String _ rest => slice n' rest
  | S _, EmptyString => EmptyString
  end.

(** [for (let i = 0; i < storage.length; i++) { const key = storage.key(i); ... }]
    from index [i] on, with [count] indices left; [visit] is the loop body
    for a key that is not [null]. *)
Fixpoint scan {A : Type} (visit : string -> A -> A) (storage : Storage)
    (count i : nat) (acc : A) : A :=
  match count with
  | O => acc
  | S count' =>
      scan visit storage count' (S i)
        (match key i storage with
         | Some k => visit k acc
         | None => acc
         end)
  end.

(** [key && key.startsWith(fullPrefix)] *)
Definition inGroup (fullPrefix k : string) : bool :=
  negb (String.eqb k "") && startsWith k fullPrefix.

Definition fullPrefix (prefix : string) : string :=
  Hook.DEFAULT_KEY_PREFIX +:+ prefix.

(** [clearGroup(prefix, storage)]: the number returned and the storage it
    leaves. *)
Definition clearGroup (isSSR : bool) (prefix : string) (storage : Storage)
    : Z * Storage :=
  if isSSR then (0, storage)
  else
    let keysToRemove :=
      scan (fun k keys => if inGroup (fullPrefix prefix) k then keys ++ [k] else keys)
        storage (length storage) 0 [] in
    (Z.of_nat (length keysToRemove),
     fold_left (fun st k => removeItem k st) keysToRemove storage).

(** [getGroupKeys(prefix, storage)] *)
Definition getGroupKeys (isSSR : bool) (prefix : string) (storage : Storage)
    : list string :=
  if isSSR then []
  else
    scan (fun k keys =>
            if inGroup (fullPrefix prefix) k
            then keys ++ [slice (String.length Hook.DEFAULT_KEY_PREFIX) k]
            else keys)
      storage (length storage) 0 [].

(** [hasGroupData(prefix, storage)] *)
Definition hasGroupData (isSSR : bool) (prefix : string) (storage : Storage) : bool :=
  0 <? Z.of_nat (length (getGroupKeys isSSR prefix storage)).

(** [getGroupSize(prefix, storage)] *)
Definition getGroupSize (isSSR : bool) (prefix : string) (storage : Storage) : Z :=
  if isSSR then 0
  else
    scan (fun k totalSize =>
            if inGroup (fullPrefix prefix) k
            then
              match getItem k storage with
              | Some (_ :: _ as value) =>
                  totalSize + (Z.of_nat (String.length k) + Z.of_nat (length value))
              | _ => totalSize
              end
            else totalSize)
      storage (length storage) 0 0
    * 2.

End Group.

(* ===================================================================== *)
(** * Part II: lemmas and theorems                                        *)
(* ===================================================================== *)

Module HistoryFacts.
Import History.

Section Facts.
Context {T : Type}.
Implicit Types (h : HistoryState T) (o : op T).

Lemma slice0_length (e : Z) (l : list T) :
  0 <= e -> Z.of_nat (length (slice0 e l)) = Z.min e (Z.of_nat (length l)).
Proof.
  intros He. unfold slice0.
  destruct (Z.ltb_spec e 0); [lia|].
  rewrite length_take. lia.
Qed.

Lemma push_well_formed s h : well_formed h -> well_formed (push s h).
Proof.
  unfold well_formed, push, length_, shift. cbn [states index maxLength].
  intros [[Hl1 Hl2] [Hi1 Hi2]].
  set (ns := slice0 (index h + 1) (states h) ++ [s]).
  assert (Hns : Z.of_nat (length ns) = index h + 2).
  { unfold ns. rewrite length_app, Nat2Z.inj_add, slice0_length by lia. cbn. lia. }
  destruct (Z.ltb_spec (maxLength h) (Z.of_nat (length ns))) as [Hlt|Hge].
  - assert (Hlen : length (tail ns) = Nat.pred (length ns)) by (destruct ns; reflexivity).
    rewrite Hlen. lia.
  - lia.
Qed.

Lemma apply_well_formed o h : well_formed h -> well_formed (apply h o).
Proof.
  intros Hwf. destruct o as [s| | |i|s]; cbn [apply].
  - by apply push_well_formed.
  - unfold undo, canUndo. destruct Hwf as [Hl Hi].
    destruct (Z.ltb_spec 0 (index h)); cbn [negb]; [|by split].
    split; cbn [states index maxLength length_]; unfold length_ in *; cbn; lia.
  - unfold redo, canRedo. destruct Hwf as [Hl Hi].
    destruct (Z.ltb_spec (index h) (length_ h - 1)); cbn [negb]; [|by split].
    split; unfold length_ in *; cbn; lia.
  - unfold goTo. destruct Hwf as [Hl Hi].
    split; unfold length_ in *; cbn; lia.
  - unfold reset. destruct Hwf as [Hl Hi].
    split; unfold length_ in *; cbn; lia.
Qed.

Lemma run_well_formed ops : forall h, well_formed h -> well_formed (run ops h).
Proof.
  induction ops as [|o ops IH]; intros h Hwf; [exact Hwf|].
  cbn. apply IH. by apply apply_well_formed.
Qed.

Lemma create_well_formed (s : T) (m : Z) : 1 <= m -> well_formed (create s m).
Proof. intros Hm. unfold well_formed, create, length_. cbn. lia. Qed.

Lemma run_maxLength ops : forall h, maxLength (run ops h) = maxLength h.
Proof.
  induction ops as [|o ops IH]; intros h; [reflexivity|].
  change (run (o :: ops) h) with (run ops (apply h o)).
  rewrite IH. destruct o; cbn; try reflexivity.
  - unfold undo. by destruct (negb _).
  - unfold redo. by destruct (negb _).
Qed.

Lemma push_length s h :
  well_formed h -> length_ (push s h) = Z.min (index h + 2) (maxLength h).
Proof.
  unfold well_formed, push, length_, shift. cbn [states index maxLength].
  intros [[Hl1 Hl2] [Hi1 Hi2]].
  set (ns := slice0 (index h + 1) (states h) ++ [s]).
  assert (Hns : Z.of_nat (length ns) = index h + 2).
  { unfold ns. rewrite length_app, Nat2Z.inj_add, slice0_length by lia. cbn. lia. }
  destruct (Z.ltb_spec (maxLength h) (Z.of_nat (length ns))) as [Hlt|Hge]; [|lia].
  assert (Hlen : length (tail ns) = Nat.pred (length ns)) by (destruct ns; reflexivity).
  rewrite Hlen. lia.
Qed.

Lemma last_tail_snoc (l : list T) (s : T) :
  l <> [] -> last (tail (l ++ [s])) = Some s.
Proof.
  destruct l as [|x l]; [done|]. intros _. cbn. apply last_snoc.
Qed.

(** The newest entry is never the one discarded. *)
Lemma push_keeps_newest s h : well_formed h -> last (states (push s h)) = Some s.
Proof.
  intros [[Hl1 Hl2] [Hi1 Hi2]]. unfold push, shift. cbn [states].
  destruct (_ <? _).
  - apply last_tail_snoc. intros Hnil.
    assert (Hlen := slice0_length (index h + 1) (states h) ltac:(lia)).
    rewrite Hnil in Hlen. unfold length_ in *. cbn in Hlen. lia.
  - apply last_snoc.
Qed.

(** At capacity, with nothing to redo, a push drops the oldest entry and
    appends. *)
Lemma push_at_capacity s h :
  well_formed h -> length_ h = maxLength h -> canRedo h = false ->
  states (push s h) = tail (states h) ++ [s].
Proof.
  intros [[Hl1 Hl2] [Hi1 Hi2]] Hcap Hredo. unfold canRedo in Hredo.
  apply Z.ltb_ge in Hredo. unfold push, shift, slice0, length_ in *.
  cbn [states].
  destruct (Z.ltb_spec (index h + 1) 0); [lia|].
  rewrite take_ge by lia. rewrite length_app. cbn [length].
  destruct (Z.ltb_spec (maxLength h) (Z.of_nat (length (states h) + 1))); [|lia].
  destruct (states h); [cbn in *; lia|reflexivity].
Qed.

(** C6, as amended.  A history stack created with [maxLength >= 1] keeps,
    after any sequence of push, undo, redo, goTo and reset, between one and
    [maxLength] states and an index inside them.  A push never discards the
    entry it adds, and leaves [min (index + 2) maxLength] states: when the
    stack is at [maxLength] and the current entry is the newest one, the
    length stays at [maxLength] and the oldest entry is the one dropped. *)
Theorem history_bounded (initialState : T) (bound : Z) (ops : list (op T)) :
  1 <= bound ->
  well_formed (run ops (create initialState bound)) /\
  forall s : T,
    last (states (push s (run ops (create initialState bound)))) = Some s /\
    length_ (push s (run ops (create initialState bound)))
    = Z.min (index (run ops (create initialState bound)) + 2) bound /\
    (length_ (run ops (create initialState bound)) = bound ->
     canRedo (run ops (create initialState bound)) = false ->
     states (push s (run ops (create initialState bound)))
     = tail (states (run ops (create initialState bound))) ++ [s] /\
     length_ (push s (run ops (create initialState bound))) = bound).
Proof.
  intros Hb.
  assert (Hwf : well_formed (run ops (create initialState bound)))
    by (apply run_well_formed; by apply create_well_formed).
  assert (Hmax : maxLength (run ops (create initialState bound)) = bound)
    by (by rewrite run_maxLength).
  split; [exact Hwf|]. intros s.
  split; [by apply push_keeps_newest|].
  split; [by rewrite push_length, Hmax|].
  intros Hcap Hredo. split.
  - apply push_at_capacity; [done|by rewrite Hmax|done].
  - rewrite push_length, Hmax by done.
    unfold canRedo in Hredo. apply Z.ltb_ge in Hredo.
    destruct Hwf as [_ [_ Hi]]. lia.
Qed.

End Facts.

Lemma history_bounded_witness :
  1 <= 3 /\
  well_formed (run [Push "b"; Push "c"; Push "d"; Undo] (create "a" 3)) /\
  forall s : string,
    last (states (push s (run [Push "b"; Push "c"; Push "d"; Undo] (create "a" 3))))
    = Some s /\
    length_ (push s (run [Push "b"; Push "c"; Push "d"; Undo] (create "a" 3)))
    = Z.min (index (run [Push "b"; Push "c"; Push "d"; Undo] (create "a" 3)) + 2) 3 /\
    (length_ (run [Push "b"; Push "c"; Push "d"; Undo] (create "a" 3)) = 3 ->
     canRedo (run [Push "b"; Push "c"; Push "d"; Undo] (create "a" 3)) = false ->
     states (push s (run [Push "b"; Push "c"; Push "d"; Undo] (create "a" 3)))
     = tail (states (run [Push "b"; Push "c"; Push "d"; Undo] (create "a" 3))) ++ [s] /\
     length_ (push s (run [Push "b"; Push "c"; Push "d"; Undo] (create "a" 3))) = 3).
Proof.
  assert (H : 1 <= 3) by lia.
  split; [exact H|].
  exact (history_bounded "a" 3 [Push "b"; Push "c"; Push "d"; Undo] H).
Defined.

(** C6, counterexample.  Three states at [maxLength = 3], then two undos:
    the stack is at [maxLength] with the index on the oldest entry.  The
    push drops the two entries after the index and the length becomes 2. *)
Lemma push_at_maxLength_after_undo :
  states (run [Push "b"; Push "c"; Undo; Undo] (create "a" 3)) = ["a"; "b"; "c"] /\
  length_ (run [Push "b"; Push "c"; Undo; Undo] (create "a" 3))
  = maxLength (run [Push "b"; Push "c"; Undo; Undo] (create "a" 3)) /\
  states (push "d" (run [Push "b"; Push "c"; Undo; Undo] (create "a" 3))) = ["a"; "d"] /\
  length_ (push "d" (run [Push "b"; Push "c"; Undo; Undo] (create "a" 3))) = 2.
Proof. repeat split. Qed.

End HistoryFacts.

Module TransformFacts.
Import Js Transform.

Lemma compressLoop_acc chars : forall prevChar count result,
  compressLoop chars prevChar count result
  = result ++ compressLoop chars prevChar count [].
Proof.
  induction chars as [|c chars IH]; intros p n r; cbn [compressLoop].
  - reflexivity.
  - destruct ((c =? p)%N && (n <? 255)%N).
    + apply IH.
    + rewrite IH, (IH _ _ ([] ++ _)). by rewrite app_assoc.
Qed.

Lemma decompressLoop_literal (c : N) (n : nat) (rest : str) :
  c <> 0%N ->
  decompressLoop (repeat c n ++ rest)
  = option_map (app (repeat c n)) (decompressLoop rest).
Proof.
  intros Hc. induction n as [|n IH]; cbn [repeat app].
  - by destruct (decompressLoop rest).
  - destruct c as [|p]; [done|]. cbn [decompressLoop].
    rewrite IH. by destruct (decompressLoop rest).
Qed.

Lemma decompressLoop_emitRun (count c : N) (rest : str) :
  c <> 0%N ->
  decompressLoop (emitRun count c ++ rest)
  = option_map (app (repeat c (N.to_nat count))) (decompressLoop rest).
Proof.
  intros Hc. unfold emitRun. destruct (4 <=? count)%N.
  - reflexivity.
  - by apply decompressLoop_literal.
Qed.

(** Decoding what the loop emits gives back the pending run followed by the
    characters still to be read. *)
Lemma decompressLoop_compressLoop chars : forall prevChar count,
  prevChar <> 0%N -> Forall (fun c => c <> 0%N) chars ->
  decompressLoop (compressLoop chars prevChar count [])
  = Some (repeat prevChar (N.to_nat count) ++ chars).
Proof.
  induction chars as [|c chars IH]; intros p n Hp Hall; cbn [compressLoop].
  - rewrite app_nil_l, <- (app_nil_r (emitRun n p)), decompressLoop_emitRun by done.
    cbn. by rewrite !app_nil_r.
  - inversion Hall as [|? ? Hc Hrest]; subst.
    destruct (N.eqb_spec c p) as [->|Hne]; cbn [andb].
    + destruct (n <? 255)%N.
      * rewrite IH by done. f_equal.
        rewrite N.add_1_r, N2Nat.inj_succ.
        change (p :: chars) with ([p] ++ chars). rewrite app_assoc. f_equal.
        by rewrite <- repeat_cons.
      * rewrite compressLoop_acc, app_nil_l, decompressLoop_emitRun by done.
        rewrite IH by done. reflexivity.
    + rewrite compressLoop_acc, app_nil_l, decompressLoop_emitRun by done.
      rewrite IH by done. reflexivity.
Qed.

(** A string without the character [\x00] that does not start with the
    marker [\x01] survives compression followed by decompression. *)
Lemma simpleDecompress_simpleCompress (data : str) :
  Forall (fun c => c <> 0%N) data ->
  head data <> Some 1%N ->
  simpleDecompress (simpleCompress data) = Some data.
Proof.
  intros Hall Hhd. unfold simpleCompress.
  assert (Hraw : simpleDecompress data = Some data).
  { destruct data as [|c rest]; [done|]. cbn in Hhd.
    destruct c as [|[?|?|]]; try done. }
  destruct (len data <? DEFAULT_COMPRESSION_THRESHOLD); [exact Hraw|].
  destruct data as [|first rest]; [done|].
  destruct (len _ <? len _); [|exact Hraw].
  inversion Hall; subst. cbn [simpleDecompress].
  by rewrite decompressLoop_compressLoop.
Qed.

#[local] Ltac Zify.zify_post_hook ::= Z.to_euclidean_division_equations.

(** Decide the comparisons of the goal, closing the impossible cases. *)
Ltac ncases :=
  repeat match goal with
  | |- context [N.ltb ?a ?b] => destruct (N.ltb_spec a b); try lia
  | |- context [N.leb ?a ?b] => destruct (N.leb_spec a b); try lia
  | |- context [N.eqb ?a ?b] => destruct (N.eqb_spec a b); try lia
  end.

Ltac ncases_in H :=
  repeat match type of H with
  | context [N.ltb ?a ?b] => destruct (N.ltb_spec a b); try lia
  | context [N.leb ?a ?b] => destruct (N.leb_spec a b); try lia
  | context [N.eqb ?a ?b] => destruct (N.eqb_spec a b); try lia
  end.

Lemma scanSurrogates_app (a b : str) : forall p,
  scanSurrogates p (a ++ b)
  = match scanSurrogates p a with
    | Some q => scanSurrogates q b
    | None => None
    end.
Proof.
  induction a as [|c a IH]; intros p; [reflexivity|].
  cbn [app scanSurrogates].
  destruct (negb _); [reflexivity|].
  destruct p, (isLowSurrogate c), (isHighSurrogate c); try reflexivity; apply IH.
Qed.

Lemma surrogates_disjoint (c : N) :
  isHighSurrogate c = true -> isLowSurrogate c = false.
Proof. unfold isHighSurrogate, isLowSurrogate, inRange. ncases; done. Qed.

Lemma scanSurrogates_plain_run (c : N) (n : nat) :
  (c <? 65536)%N = true -> isHighSurrogate c = false -> isLowSurrogate c = false ->
  scanSurrogates false (repeat c n) = Some false.
Proof.
  intros Hv Hh Hl. induction n as [|n IH]; [reflexivity|].
  cbn [repeat scanSurrogates]. by rewrite Hv, Hh, Hl.
Qed.

(** A character that repeats is not a surrogate, and the scan is in its
    idle state around the run. *)
Lemma scanSurrogates_repeat (c : N) (n : nat) (p q : bool) :
  (2 <= n)%nat ->
  scanSurrogates p (repeat c n) = Some q ->
  p = false /\ q = false /\ (c <? 65536)%N = true /\
  isHighSurrogate c = false /\ isLowSurrogate c = false.
Proof.
  intros Hn. destruct n as [|[|n]]; [lia|lia|].
  cbn [repeat scanSurrogates].
  destruct (c <? 65536)%N eqn:Hv; cbn [negb]; [|discriminate].
  destruct (isHighSurrogate c) eqn:Hh.
  - rewrite (surrogates_disjoint c Hh). destruct p; discriminate.
  - destruct (isLowSurrogate c) eqn:Hl; destruct p; try discriminate.
    intros Hscan. rewrite scanSurrogates_plain_run in Hscan by done.
    repeat split; congruence.
Qed.

(** Replacing a run by what [simpleCompress] emits for it keeps the string
    well-formed. *)
Lemma scanSurrogates_emitRun (count c : N) (p q : bool) :
  (count <= 255)%N ->
  scanSurrogates p (repeat c (N.to_nat count)) = Some q ->
  scanSurrogates p (emitRun count c) = Some q.
Proof.
  intros Hcount Hscan. unfold emitRun.
  destruct (N.leb_spec 4 count); [|exact Hscan].
  apply scanSurrogates_repeat in Hscan as (-> & -> & Hc & Hhi & Hlo); [|lia].
  cbn [scanSurrogates]. rewrite Hc, Hhi, Hlo.
  unfold isHighSurrogate, isLowSurrogate, inRange. ncases; reflexivity.
Qed.

Lemma scanSurrogates_compressLoop chars : forall prevChar count p q,
  (count <= 255)%N ->
  scanSurrogates p (repeat prevChar (N.to_nat count) ++ chars) = Some q ->
  scanSurrogates p (compressLoop chars prevChar count []) = Some q.
Proof.
  induction chars as [|c chars IH]; intros prev count p q Hcount Hscan;
    cbn [compressLoop].
  - rewrite app_nil_r in Hscan. rewrite app_nil_l.
    by apply scanSurrogates_emitRun.
  - destruct (N.eqb_spec c prev) as [->|Hne]; cbn [andb].
    + destruct (N.ltb_spec count 255).
      * apply IH; [lia|].
        rewrite N.add_1_r, N2Nat.inj_succ.
        replace (repeat prev (S (N.to_nat count)) ++ chars)
          with (repeat prev (N.to_nat count) ++ prev :: chars); [done|].
        change (prev :: chars) with ([prev] ++ chars).
        rewrite app_assoc. f_equal. by rewrite <- repeat_cons.
      * rewrite compressLoop_acc, app_nil_l.
        rewrite scanSurrogates_app in Hscan |- *.
        destruct (scanSurrogates p (repeat prev (N.to_nat count))) as [r|] eqn:Hrun;
          [|done].
        rewrite (scanSurrogates_emitRun count prev p r) by done.
        apply IH; [lia|exact Hscan].
    + rewrite compressLoop_acc, app_nil_l.
      rewrite scanSurrogates_app in Hscan |- *.
      destruct (scanSurrogates p (repeat prev (N.to_nat count))) as [r|] eqn:Hrun;
        [|done].
      rewrite (scanSurrogates_emitRun count prev p r) by done.
      apply IH; [lia|exact Hscan].
Qed.

(** Compression keeps a string well-formed. *)
Lemma wellFormed_simpleCompress (data : str) :
  wellFormed data -> wellFormed (simpleCompress data).
Proof.
  unfold wellFormed, simpleCompress. intros Hwf.
  destruct (len data <? DEFAULT_COMPRESSION_THRESHOLD); [exact Hwf|].
  destruct data as [|first rest]; [exact Hwf|].
  destruct (len _ <? len _); [|exact Hwf].
  change (scanSurrogates false (compressLoop rest first 1 []) = Some false).
  apply scanSurrogates_compressLoop; [lia|exact Hwf].
Qed.

(** *** The glue of [base64Encode] and [base64Decode] *)

Lemma isUpperHex_hexUpper (d : N) : (d < 16)%N -> isUpperHex (hexUpper d) = true.
Proof. intros Hd. unfold isUpperHex, hexUpper, inRange. ncases; reflexivity. Qed.

Lemma parseUpperHex_hexUpper (x y : N) :
  (x < 16)%N -> (y < 16)%N ->
  parseUpperHex (hexUpper x) (hexUpper y) = (x * 16 + y)%N.
Proof. intros Hx Hy. unfold parseUpperHex, hexUpper. ncases. Qed.

Lemma replaceEscapes_plain (c : N) (rest : str) :
  c <> 37%N -> replaceEscapes (c :: rest) = c :: replaceEscapes rest.
Proof.
  intros Hc. cbn [replaceEscapes].
  destruct rest as [|h [|l rest]]; try reflexivity.
  destruct (N.eqb_spec c 37); [done|reflexivity].
Qed.

Lemma replaceEscapes_percentUpper (b : N) (rest : str) :
  (b < 256)%N -> replaceEscapes (percentUpper b ++ rest) = b :: replaceEscapes rest.
Proof.
  intros Hb. unfold percentUpper. cbn [app replaceEscapes].
  rewrite !isUpperHex_hexUpper by lia. cbn [N.eqb Pos.eqb andb].
  rewrite parseUpperHex_hexUpper by lia. f_equal. lia.
Qed.

Lemma replaceEscapes_octets (os : list N) (rest : str) :
  Forall (fun b => (b < 256)%N) os ->
  replaceEscapes (concat (map percentUpper os) ++ rest) = os ++ replaceEscapes rest.
Proof.
  induction 1 as [|b os Hb Hos IH]; [reflexivity|].
  cbn [map concat]. rewrite <- app_assoc, replaceEscapes_percentUpper by done.
  by rewrite IH.
Qed.

Lemma hexValue_hexLower (d : N) : (d < 16)%N -> hexValue (hexLower d) = Some d.
Proof.
  intros Hd. unfold hexValue, hexLower, inRange.
  ncases; cbn [andb]; f_equal; lia.
Qed.

Lemma uriItems_percentLower (bytes : list N) :
  Forall (fun b => (b < 256)%N) bytes ->
  uriItems (concat (map percentLower bytes)) = Some (map Octet bytes).
Proof.
  induction 1 as [|b bytes Hb Hbytes IH]; [reflexivity|].
  cbn [map concat]. unfold percentLower at 1. cbn [app uriItems N.eqb Pos.eqb].
  rewrite !hexValue_hexLower by lia. rewrite IH. cbn [option_map].
  do 3 f_equal. lia.
Qed.

(** *** UTF-8 *)

Lemma utf8Octets_bytes (cp : N) :
  (cp < 1114112)%N -> Forall (fun b => (b < 256)%N) (utf8Octets cp).
Proof.
  intros Hcp. unfold utf8Octets. ncases; repeat constructor; lia.
Qed.

Lemma not_surrogate (c : N) :
  isHighSurrogate c = false -> isLowSurrogate c = false ->
  (c < 55296 \/ 57343 < c)%N.
Proof.
  unfold isHighSurrogate, isLowSurrogate, inRange.
  ncases; cbn; try discriminate; lia.
Qed.

(** Reading back the octets of a code point of the basic plane. *)
Lemma decodeItems_basic (c : N) (items : list uriItem) :
  (c < 65536)%N -> isHighSurrogate c = false -> isLowSurrogate c = false ->
  decodeItems (map Octet (utf8Octets c) ++ items)
  = option_map (cons c) (decodeItems items).
Proof.
  intros Hc Hh Hl. pose proof (not_surrogate c Hh Hl) as Hns. clear Hh Hl.
  unfold utf8Octets. ncases; cbn [map app decodeItems];
    unfold inRange, isContinuation, inRange; ncases; cbn [andb negb];
    destruct (decodeItems items); cbn [option_map]; try reflexivity;
    do 2 f_equal; lia.
Qed.

(** Reading back the octets of a code point beyond the basic plane. *)
Lemma decodeItems_supplementary (cp : N) (items : list uriItem) :
  (65536 <= cp)%N -> (cp <= 1114111)%N ->
  decodeItems (map Octet (utf8Octets cp) ++ items)
  = option_map (app (utf16Units cp)) (decodeItems items).
Proof.
  intros Hlo Hhi.
  unfold utf8Octets. ncases; cbn [map app decodeItems].
  unfold inRange, isContinuation, inRange. ncases; cbn [andb negb].
  replace ((240 + cp / 262144 - 240) * 262144 +
           (128 + (cp / 4096) mod 64 - 128) * 4096 +
           (128 + (cp / 64) mod 64 - 128) * 64 + (128 + cp mod 64 - 128))%N
    with cp by lia.
  reflexivity.
Qed.

(** A surrogate pair and its code point. *)
Lemma pair_code_point (hi lo : N) :
  isHighSurrogate hi = true -> isLowSurrogate lo = true ->
  let cp := ((hi - 55296) * 1024 + (lo - 56320) + 65536)%N in
  (65536 <= cp)%N /\ (cp <= 1114111)%N /\ utf16Units cp = [hi; lo].
Proof.
  unfold isHighSurrogate, isLowSurrogate, inRange.
  ncases; cbn; try discriminate. intros _ _.
  split; [lia|]. split; [lia|].
  unfold utf16Units. ncases. f_equal; [lia|]. f_equal. lia.
Qed.

Lemma unreserved_ascii (c : N) :
  unreserved c = true -> (c < 128)%N /\ c <> 37%N.
Proof.
  unfold unreserved, inRange. cbn [existsb].
  ncases; cbn; try discriminate; intros _; split; lia.
Qed.

(** [encodeURIComponent] succeeds on a well-formed string; the escapes it
    writes are what the [replace] of [base64Encode] reads, octets all of
    them, and those octets decode to the string. *)
Lemma uri_round_trip (n : nat) : forall s : str,
  (length s <= n)%nat ->
  scanSurrogates false s = Some false ->
  exists escaped : str,
    encodeURIComponent s = Some escaped /\
    Forall (fun b => (b < 256)%N) (replaceEscapes escaped) /\
    decodeItems (map Octet (replaceEscapes escaped)) = Some s.
Proof.
  induction n as [|n IH]; intros s Hlen Hscan.
  { destruct s; [|cbn in Hlen; lia]. exists []. by repeat split. }
  destruct s as [|c rest]; [exists []; by repeat split|].
  cbn [length] in Hlen. cbn [scanSurrogates] in Hscan.
  destruct (N.ltb_spec c 65536) as [Hc|]; [|discriminate]. cbn [negb] in Hscan.
  cbn [encodeURIComponent].
  destruct (isHighSurrogate c) eqn:Hh.
  - (* a surrogate pair *)
    destruct rest as [|lo rest]; [discriminate|].
    cbn [scanSurrogates] in Hscan.
    destruct (negb (lo <? 65536)%N); [discriminate|].
    destruct (isLowSurrogate lo) eqn:Hl; [|discriminate].
    destruct (unreserved c) eqn:Hu.
    { apply unreserved_ascii in Hu as [Hu _].
      revert Hh. unfold isHighSurrogate, inRange. ncases; discriminate. }
    rewrite (surrogates_disjoint c Hh).
    destruct (IH rest ltac:(cbn [length] in Hlen; lia) Hscan)
      as (escaped & -> & Hbytes & Hback).
    destruct (pair_code_point c lo Hh Hl) as (Hlo & Hhi & Hunits).
    eexists. split; [reflexivity|].
    rewrite replaceEscapes_octets by (apply utf8Octets_bytes; lia). split.
    + apply Forall_app. split; [apply utf8Octets_bytes; lia|exact Hbytes].
    + rewrite map_app, decodeItems_supplementary, Hback by done.
      cbn [option_map]. by rewrite Hunits.
  - destruct (isLowSurrogate c) eqn:Hl; [discriminate|].
    destruct (IH rest ltac:(lia) Hscan) as (escaped & -> & Hbytes & Hback).
    destruct (unreserved c) eqn:Hu.
    + apply unreserved_ascii in Hu as [Hascii Hpercent].
      eexists. split; [reflexivity|].
      rewrite replaceEscapes_plain by done. split.
      * constructor; [lia|exact Hbytes].
      * cbn [map decodeItems]. destruct (N.ltb_spec c 128); [|lia].
        by rewrite Hback.
    + eexists. split; [reflexivity|].
      rewrite replaceEscapes_octets by (apply utf8Octets_bytes; lia). split.
      * apply Forall_app. split; [apply utf8Octets_bytes; lia|exact Hbytes].
      * by rewrite map_app, decodeItems_basic, Hback.
Qed.

(** *** Base64 *)

Lemma list_ind3 {A : Type} (P : list A -> Prop) :
  P [] -> (forall a, P [a]) -> (forall a b, P [a; b]) ->
  (forall a b c l, P l -> P (a :: b :: c :: l)) ->
  forall l, P l.
Proof.
  intros H0 H1 H2 H3. fix IH 1.
  intros [|a [|b [|c l]]]; [exact H0|apply H1|apply H2|apply H3, IH].
Qed.

Lemma base64Char_not_equals (i : N) : base64Char i <> 61%N.
Proof. unfold base64Char. ncases. Qed.

Lemma base64Char_not_whitespace (i : N) : isAsciiWhitespace (base64Char i) = false.
Proof.
  unfold base64Char. ncases;
    unfold isAsciiWhitespace; cbn [existsb]; ncases; reflexivity.
Qed.

Lemma base64Index_base64Char (i : N) :
  (i < 64)%N -> base64Index (base64Char i) = Some i.
Proof.
  intros Hi. unfold base64Char.
  ncases; unfold base64Index, inRange; ncases; cbn [andb]; f_equal; lia.
Qed.

Lemma base64Groups_split (bytes : list N) :
  base64Groups bytes = base64Body bytes ++ base64Padding bytes.
Proof.
  induction bytes as [|a|a b|a b c rest IH] using list_ind3; try reflexivity.
  cbn [base64Groups base64Body base64Padding]. by rewrite IH, <- app_assoc.
Qed.

Lemma base64Body_alphabet (bytes : list N) :
  Forall (fun c => c <> 61%N /\ isAsciiWhitespace c = false) (base64Body bytes).
Proof.
  induction bytes as [|a|a b|a b c rest IH] using list_ind3;
    cbn [base64Body app];
    repeat (constructor;
            [split; [apply base64Char_not_equals|apply base64Char_not_whitespace]|]);
    try constructor.
  exact IH.
Qed.

Lemma base64Padding_cases (bytes : list N) :
  base64Padding bytes = [] \/ base64Padding bytes = [61%N] \/
  base64Padding bytes = [61%N; 61%N].
Proof.
  induction bytes as [|a|a b|a b c rest IH] using list_ind3; cbn; auto.
Qed.

Lemma filter_base64Groups (bytes : list N) :
  List.filter (fun c => negb (isAsciiWhitespace c)) (base64Groups bytes)
  = base64Groups bytes.
Proof.
  rewrite base64Groups_split.
  assert (Hall : Forall (fun c => isAsciiWhitespace c = false)
                   (base64Body bytes ++ base64Padding bytes)).
  { apply Forall_app. split.
    - eapply Forall_impl; [apply base64Body_alphabet|]. by intros c [_ H].
    - destruct (base64Padding_cases bytes) as [->|[->| ->]]; repeat constructor. }
  induction Hall as [|c l Hc Hl IH]; [reflexivity|].
  cbn [List.filter]. by rewrite Hc, IH.
Qed.

Lemma mod4_step (n : nat) : (S (S (S (S n))) mod 4 = n mod 4)%nat.
Proof.
  replace (S (S (S (S n)))) with (n + 1 * 4)%nat by lia.
  apply Nat.Div0.mod_add.
Qed.

Lemma length_base64Groups (bytes : list N) :
  (length (base64Groups bytes) mod 4 = 0)%nat.
Proof.
  induction bytes as [|a|a b|a b c rest IH] using list_ind3; try reflexivity.
  cbn [base64Groups app length]. by rewrite mod4_step.
Qed.

Lemma length_base64Body (bytes : list N) :
  (length (base64Body bytes) mod 4 <> 1)%nat.
Proof.
  induction bytes as [|a|a b|a b c rest IH] using list_ind3; try (cbn; lia).
  cbn [base64Body app length]. by rewrite mod4_step.
Qed.

Lemma dropEquals_snoc (s : str) : dropEquals (s ++ [61%N]) = Some s.
Proof. unfold dropEquals. rewrite rev_unit. cbn. by rewrite rev_involutive. Qed.

Lemma dropEquals_none (s : str) :
  Forall (fun c => c <> 61%N) s -> dropEquals s = None.
Proof.
  intros Hall. unfold dropEquals.
  destruct (rev s) as [|c r] eqn:Hrev; [reflexivity|].
  assert (Hc : c <> 61%N).
  { rewrite Forall_forall in Hall. apply Hall.
    apply list_elem_of_In, in_rev. rewrite Hrev. by left. }
  by destruct (N.eqb_spec c 61).
Qed.

Lemma stripPadding_base64Groups (bytes : list N) :
  stripPadding (base64Groups bytes) = base64Body bytes.
Proof.
  unfold stripPadding. rewrite length_base64Groups. cbn [Nat.eqb].
  rewrite base64Groups_split.
  assert (Hbody : dropEquals (base64Body bytes) = None).
  { apply dropEquals_none. eapply Forall_impl; [apply base64Body_alphabet|].
    by intros c [H _]. }
  destruct (base64Padding_cases bytes) as [->|[->| ->]].
  - by rewrite app_nil_r, Hbody.
  - by rewrite dropEquals_snoc, Hbody.
  - change [61%N; 61%N] with ([61%N] ++ [61%N]).
    by rewrite app_assoc, dropEquals_snoc, dropEquals_snoc.
Qed.

Lemma octets_base64Body (bytes : list N) :
  Forall (fun b => (b < 256)%N) bytes ->
  option_map octets (sextets (base64Body bytes)) = Some bytes.
Proof.
  induction bytes as [|a|a b|a b c rest IH] using list_ind3; intros Hall.
  - reflexivity.
  - apply Forall_cons_1 in Hall as [Ha _].
    cbn [base64Body sextets]. rewrite !base64Index_base64Char by lia.
    cbn [option_map octets]. do 2 f_equal. lia.
  - apply Forall_cons_1 in Hall as [Ha Hall].
    apply Forall_cons_1 in Hall as [Hb _].
    cbn [base64Body sextets]. rewrite !base64Index_base64Char by lia.
    cbn [option_map octets]. do 2 f_equal; [lia|]. f_equal. lia.
  - apply Forall_cons_1 in Hall as [Ha Hall].
    apply Forall_cons_1 in Hall as [Hb Hall].
    apply Forall_cons_1 in Hall as [Hc Hall].
    specialize (IH Hall).
    cbn [base64Body app sextets]. rewrite !base64Index_base64Char by lia.
    destruct (sextets (base64Body rest)) as [idx|]; [|discriminate].
    cbn [option_map] in IH |- *. injection IH as IH.
    cbn [octets app]. rewrite IH. do 2 f_equal; [lia|]. f_equal; [lia|]. f_equal. lia.
Qed.

(** [atob] undoes [btoa] on a string of octets. *)
Lemma atob_btoa (bytes : list N) :
  Forall (fun b => (b < 256)%N) bytes ->
  exists encoded, btoa bytes = Some encoded /\ atob encoded = Some bytes.
Proof.
  intros Hall. exists (base64Groups bytes). split.
  - unfold btoa.
    assert (Hcheck : forallb (fun c => (c <? 256)%N) bytes = true).
    { apply forallb_forall. intros b Hb. apply N.ltb_lt.
      rewrite Forall_forall in Hall. by apply Hall, list_elem_of_In. }
    by rewrite Hcheck.
  - unfold atob. rewrite filter_base64Groups, stripPadding_base64Groups.
    pose proof (length_base64Body bytes) as Hlen.
    destruct (Nat.eqb_spec (length (base64Body bytes) mod 4) 1); [done|].
    by apply octets_base64Body.
Qed.

(** [base64Decode] undoes [base64Encode] on a well-formed string. *)
Lemma base64_round_trip (s : str) :
  wellFormed s ->
  exists encoded, base64Encode s = Some encoded /\ base64Decode encoded = s.
Proof.
  intros Hwf.
  destruct (uri_round_trip (length s) s (le_n _) Hwf)
    as (escaped & Hescaped & Hbytes & Hback).
  destruct (atob_btoa _ Hbytes) as (encoded & Hbtoa & Hatob).
  exists encoded. unfold base64Encode, base64Decode, decodeURIComponent.
  by rewrite Hescaped, Hbtoa, Hatob, uriItems_percentLower, Hback.
Qed.

Lemma simpleDecompress_raw (data : str) :
  head data <> Some 1%N -> simpleDecompress data = Some data.
Proof.
  destruct data as [|c rest]; [done|]. cbn.
  destruct c as [|[?|?|]]; done.
Qed.

Lemma jsonText_clean (text : str) :
  jsonText text ->
  Forall (fun c => c <> 0%N) text /\ head text <> Some 1%N /\ wellFormed text.
Proof.
  intros [Hall Hwf]. split; [|split; [|exact Hwf]].
  - eapply Forall_impl; [exact Hall|]. cbn. lia.
  - destruct Hall as [|c rest Hc _]; [done|]. cbn. intros [= ->]. lia.
Qed.

(** C1.  With the default JSON serializer, whatever the compression and
    obfuscation settings: when the runtime's [JSON.stringify] gives for [x]
    a text that [JSON.parse] reads back as [x] (the text of a
    JSON-representable value: well-formed, control characters escaped),
    [serialize(x)] returns a string and [deserialize] of that string is
    [x]. *)
Theorem pipeline_round_trip
    (json : Json) (options : option TransformOptions)
    (compress : CompressOption) (encrypt : bool) (x : value) (text : str) :
  defaultJson options ->
  stringify json x = Ok text ->
  parse json text = Some x ->
  jsonText text ->
  exists stored : str,
    pipelineSerialize json options compress encrypt x = Ok stored /\
    pipelineDeserialize json options compress encrypt stored = x.
Proof.
  intros Hdefault Hprint Hparse Htext.
  apply jsonText_clean in Htext as (Hzero & Hhead & Hwf).
  set (payload :=
         if shouldCompress compress && (compressionThreshold compress <=? len text)
         then simpleCompress text else text).
  assert (Hpayload : wellFormed payload).
  { unfold payload. destruct (_ && _); [by apply wellFormed_simpleCompress|done]. }
  assert (Hback : (if shouldCompress compress then simpleDecompress payload
                   else Some payload) = Some text).
  { unfold payload. destruct (shouldCompress compress); cbn [andb]; [|reflexivity].
    destruct (_ <=? _).
    - by apply simpleDecompress_simpleCompress.
    - by apply simpleDecompress_raw. }
  assert (Hser : pipelineSerialize json options compress encrypt x
                 = if encrypt
                   then match base64Encode payload with
                        | Some encoded => Ok encoded
                        | None => Throw uriError
                        end
                   else Ok payload).
  { unfold pipelineSerialize, defaultSerialize.
    destruct options as [[ser de]|]; cbn in Hdefault;
      [destruct Hdefault as [-> ->]|]; by rewrite Hprint. }
  assert (Hde : forall stored,
             (if encrypt then base64Decode stored else stored) = payload ->
             pipelineDeserialize json options compress encrypt stored = x).
  { intros stored Hstored. unfold pipelineDeserialize, defaultDeserialize.
    rewrite Hstored, Hback.
    destruct options as [[ser de]|]; cbn in Hdefault;
      [destruct Hdefault as [-> ->]|]; by rewrite Hparse. }
  rewrite Hser. destruct encrypt.
  - destruct (base64_round_trip payload Hpayload) as (encoded & -> & Hdecode).
    exists encoded. split; [reflexivity|]. by apply Hde.
  - exists payload. split; [reflexivity|]. by apply Hde.
Qed.

Lemma pipeline_round_trip_witness :
  exists stored : str,
    pipelineSerialize Sample.longJson None (CompressFlag true) true Sample.longValue
    = Ok stored /\
    pipelineDeserialize Sample.longJson None (CompressFlag true) true stored
    = Sample.longValue.
Proof.
  apply (pipeline_round_trip Sample.longJson None (CompressFlag true) true
           Sample.longValue Sample.longText).
  - exact I.
  - reflexivity.
  - vm_compute. reflexivity.
  - split.
    + apply (bool_decide_unpack _). vm_compute. exact I.
    + vm_compute. reflexivity.
Defined.

(** The two thousand letters are stored compressed: the marker, the
    quotes and eight runs, 27 characters before obfuscation. *)
Example long_text_is_compressed :
  option_map (@length N)
    (match pipelineSerialize Sample.longJson None (CompressFlag true) false
             Sample.longValue with
     | Ok stored => Some stored
     | Throw _ => None
     end)
  = Some 27%nat.
Proof. vm_compute. reflexivity. Qed.

End TransformFacts.

Module DebounceFacts.
Import Debounce.

Section Facts.
Context {A : Type}.
Implicit Types (w : world A) (a : A).

Ltac open_world w :=
  destruct w as [? ? ? [? ?] [? ? ?]]; cbn in *; subst.

Ltac decide_leb :=
  repeat match goal with
  | |- context [Z.leb ?x ?y] => destruct (Z.leb_spec x y); try lia
  | |- context [Z.ltb ?x ?y] => destruct (Z.ltb_spec x y); try lia
  | |- context [Z.eqb ?x ?y] => destruct (Z.eqb_spec x y); try lia
  end.

Lemma armed_first (wait t0 t : Z) a :
  t0 <= t -> armed wait t a (debounced wait a (advance t (init t0))).
Proof.
  intros Ht. unfold armed. cbn.
  repeat split; try lia; eexists; repeat f_equal; lia.
Qed.

Lemma armed_next (wait t t' : Z) a a' w :
  armed wait t a w -> t <= t' < t + wait ->
  armed wait t' a' (debounced wait a' (advance t' w)).
Proof.
  intros (Hnow & Hinv & [n Hd] & Ha & Ht) Hgap. open_world w.
  unfold armed, advance, pendingTimers, debounced. cbn.
  unfold nextTimer. cbn. decide_leb. cbn.
  repeat split; try lia; eexists; repeat f_equal; lia.
Qed.

Lemma armed_settle (wait t : Z) a w :
  armed wait t a w -> invoked (settle w) = [a].
Proof.
  intros (Hnow & Hinv & [n Hd] & Ha & Ht). open_world w.
  reflexivity.
Qed.

Lemma last_cons {B : Type} (l : list B) : forall x d : B,
  List.last (x :: l) d = List.last l x.
Proof.
  induction l as [|y l IH]; intros x d; [reflexivity|].
  change (List.last (x :: y :: l) d) with (List.last (y :: l) d).
  by rewrite !IH.
Qed.

Lemma armed_script (wait : Z) rest : forall t a w,
  armed wait t a w -> rapid wait t rest ->
  invoked (settle (runScript (debouncedCalls wait rest) w))
  = [List.last (map snd rest) a].
Proof.
  induction rest as [|[t' a'] rest IH]; intros t a w Harmed Hrapid.
  - cbn. by eapply armed_settle.
  - destruct Hrapid as [Hgap Hrest].
    cbn [debouncedCalls map runScript fold_left fst snd perform].
    change (fold_left _ ?l ?w0) with (runScript l w0).
    erewrite (IH t' a'); [|by eapply armed_next|done].
    cbn [map snd]. by rewrite last_cons.
Qed.

(** Quiescence is reached: running to quiescence leaves no timer pending. *)
Lemma settle_quiescent w : pendingTimers (settle w) = 0%nat.
Proof.
  destruct w as [? ? ? [[[d1 s1]|] [?|]] [? [[d2 s2]|] [?|]]];
    unfold settle, pendingTimers; cbn; try reflexivity;
    unfold nextTimer, before; cbn;
    destruct (d1 <? d2), (d1 =? d2), (s1 <=? s2)%nat; reflexivity.
Qed.

Ltac close_state :=
  repeat split; try lia; try reflexivity;
  eexists; refine (f_equal Some _); refine (f_equal2 mkTimer _ eq_refl); lia.

Lemma led_first (wait interval t_init t0 : Z) a0 :
  0 < interval -> t_init <= t0 -> interval <= t0 ->
  led wait t0 a0 (save (combined wait interval) a0 (advance t0 (init t_init))).
Proof.
  intros Hi Ht Hlead. unfold led, save. cbn.
  decide_leb. unfold throttled. cbn. decide_leb. cbn.
  close_state.
Qed.

Lemma trailing_after_led (wait interval t0 t' : Z) a0 a' w :
  0 < interval -> led wait t0 a0 w ->
  t0 <= t' < t0 + wait -> t' < t0 + interval ->
  trailing wait interval t0 a0 t' a'
    (save (combined wait interval) a' (advance t' w)).
Proof.
  intros Hi (Hnow & Hinv & [n Hd] & Ha & Hlc & Htt & Hta) Hgap Hwin.
  open_world w. unfold trailing, save, advance, pendingTimers. cbn.
  unfold nextTimer. cbn. decide_leb. cbn.
  unfold throttled. cbn. decide_leb. cbn. close_state.
Qed.

Lemma trailing_next (wait interval t0 t t' : Z) a0 a a' w :
  0 < interval -> trailing wait interval t0 a0 t a w ->
  t <= t' < t + wait -> t' < t0 + interval ->
  trailing wait interval t0 a0 t' a'
    (save (combined wait interval) a' (advance t' w)).
Proof.
  intros Hi (Hnow & Hinv & [n Hd] & Ha & Hlc & [m Htt] & Hta) Hgap Hwin.
  open_world w. unfold trailing, save, advance, pendingTimers. cbn.
  unfold nextTimer. cbn. decide_leb. cbn.
  unfold throttled. cbn. decide_leb. cbn. close_state.
Qed.

Lemma led_settle (wait t0 : Z) a0 w :
  led wait t0 a0 w -> invoked (settle w) = [a0; a0].
Proof.
  intros (Hnow & Hinv & [n Hd] & Ha & Hlc & Htt & Hta). open_world w.
  reflexivity.
Qed.

Lemma trailing_settle (wait interval t0 t : Z) a0 a w :
  trailing wait interval t0 a0 t a w -> invoked (settle w) = [a0; a; a].
Proof.
  intros (Hnow & Hinv & [n Hd] & Ha & Hlc & [m Htt] & Hta). open_world w.
  unfold settle, pendingTimers. cbn. unfold nextTimer. cbn.
  destruct (before _ _); reflexivity.
Qed.

Lemma trailing_script (wait interval t0 : Z) a0 rest : forall t a w,
  0 < interval -> trailing wait interval t0 a0 t a w ->
  rapid wait t rest -> allBefore (t0 + interval) rest ->
  invoked (settle (runScript (saveCalls (combined wait interval) rest) w))
  = [a0; List.last (map snd rest) a; List.last (map snd rest) a].
Proof.
  induction rest as [|[t' a'] rest IH]; intros t a w Hi Htr Hrapid Hwin.
  - cbn. by eapply trailing_settle.
  - destruct Hrapid as [Hgap Hrest].
    apply Forall_cons_1 in Hwin as [Hw Hwin]. cbn in Hw.
    cbn [saveCalls map runScript fold_left fst snd perform].
    change (fold_left _ ?l ?w0) with (runScript l w0).
    erewrite (IH t' a'); [|done|by eapply trailing_next|done|done].
    cbn [map snd]. by rewrite last_cons.
Qed.

(** C7.  A debounced function created with wait [wait] receives a burst
    of calls, [first] and then [rest], each made less than [wait]
    milliseconds after the one before, and is then left alone until its
    timer has run.  The underlying callback is invoked exactly once, with the
    arguments of the last call of the burst. *)
Theorem debounce_burst_invokes_once_with_last_args
    (wait t_init : Z) (first : Z * A) (rest : list (Z * A)) :
  t_init <= fst first ->
  rapid wait (fst first) rest ->
  invoked (settle (runScript (debouncedCalls wait (first :: rest)) (init t_init)))
  = [List.last (map snd rest) (snd first)].
Proof.
  intros Ht Hrapid. destruct first as [t0 a0].
  cbn [debouncedCalls map runScript fold_left fst snd perform] in *.
  change (fold_left _ ?l ?w0) with (runScript l w0).
  eapply armed_script; [|exact Hrapid].
  by apply armed_first.
Qed.

(** C2, as amended.  On the combined controller, a burst of [save] calls
    that starts with the throttle idle (the first call is its leading edge),
    has consecutive calls less than [wait] apart and ends less than
    [interval] after its first call, followed by quiescence, invokes the
    callback twice when the burst is a single call (throttle leading edge,
    debounce trailing edge) and three times otherwise: the leading edge with
    the first arguments, then the trailing edges of the debounce and of the
    throttle, each with the last arguments. *)
Theorem combined_burst_invocations
    (wait interval t_init : Z) (first : Z * A) (rest : list (Z * A)) :
  0 < interval ->
  t_init <= fst first ->
  interval <= fst first ->
  rapid wait (fst first) rest ->
  allBefore (fst first + interval) rest ->
  invoked (settle (runScript (saveCalls (combined wait interval) (first :: rest))
                     (init t_init)))
  = snd first ::
    match rest with
    | [] => [snd first]
    | _ :: _ => [List.last (map snd rest) (snd first);
                 List.last (map snd rest) (snd first)]
    end.
Proof.
  intros Hi Ht Hlead Hrapid Hwin. destruct first as [t0 a0].
  cbn [saveCalls map runScript fold_left fst snd perform] in *.
  change (fold_left _ ?l ?w0) with (runScript l w0).
  pose proof (led_first wait interval t_init t0 a0 Hi Ht Hlead) as Hled.
  destruct rest as [|[t1 a1] rest].
  - cbn. by eapply led_settle.
  - destruct Hrapid as [Hgap Hrest].
    apply Forall_cons_1 in Hwin as [Hw Hwin]. cbn in Hw.
    cbn [map runScript fold_left fst snd perform].
    change (fold_left _ ?l ?w0) with (runScript l w0).
    erewrite (trailing_script wait interval t0 a0 rest t1 a1);
      [|done|by eapply trailing_after_led|done|done].
    cbn [map snd]. by rewrite last_cons.
Qed.

End Facts.

Lemma debounce_burst_witness :
  1700000000000 <= fst (1700000000000, "a") /\
  rapid 100 (fst (1700000000000, "a"))
    [(1700000000040, "b"); (1700000000139, "c")] /\
  invoked (settle (runScript
    (debouncedCalls 100
       [(1700000000000, "a"); (1700000000040, "b"); (1700000000139, "c")])
    (init 1700000000000)))
  = ["c"].
Proof.
  assert (H1 : 1700000000000 <= fst (1700000000000, "a")) by (cbn; lia).
  assert (H2 : rapid 100 (fst (1700000000000, "a"))
                 [(1700000000040, "b"); (1700000000139, "c")])
    by (cbn; lia).
  split; [exact H1|]. split; [exact H2|].
  exact (debounce_burst_invokes_once_with_last_args 100 1700000000000
           (1700000000000, "a") _ H1 H2).
Defined.

(** C2, counterexample.  Debounce 100 ms, throttle 500 ms, three [save]
    calls in one burst: the throttle runs the first at once, the debounce
    timer runs 100 ms after the last, and the throttle's trailing timer runs
    at the end of the window.  Three invocations, not at most two. *)
Lemma combined_burst_exceeds_two :
  invoked (settle (runScript
    (saveCalls (combined 100 500)
       [(1700000000000, "first"); (1700000000010, "second");
        (1700000000020, "third")])
    (init 1700000000000)))
  = ["first"; "third"; "third"] /\
  ~ Z.of_nat (length (invoked (settle (runScript
       (saveCalls (combined 100 500)
          [(1700000000000, "first"); (1700000000010, "second");
           (1700000000020, "third")])
       (init 1700000000000))))) <= 2.
Proof. split; [reflexivity|]. vm_compute. intros H. by apply H. Qed.

Lemma combined_burst_witness :
  0 < 500 /\
  1700000000000 <= fst (1700000000000, "first") /\
  500 <= fst (1700000000000, "first") /\
  rapid 100 (fst (1700000000000, "first"))
    [(1700000000010, "second"); (1700000000020, "third")] /\
  allBefore (fst (1700000000000, "first") + 500)
    [(1700000000010, "second"); (1700000000020, "third")] /\
  invoked (settle (runScript
    (saveCalls (combined 100 500)
       [(1700000000000, "first"); (1700000000010, "second");
        (1700000000020, "third")])
    (init 1700000000000)))
  = ["first"; "third"; "third"].
Proof.
  assert (H0 : 0 < 500) by lia.
  assert (H1 : 1700000000000 <= fst (1700000000000, "first")) by (cbn; lia).
  assert (H2 : 500 <= fst (1700000000000, "first")) by (cbn; lia).
  assert (H3 : rapid 100 (fst (1700000000000, "first"))
                 [(1700000000010, "second"); (1700000000020, "third")])
    by (cbn; lia).
  assert (H4 : allBefore (fst (1700000000000, "first") + 500)
                 [(1700000000010, "second"); (1700000000020, "third")])
    by (repeat constructor; cbn; lia).
  repeat (split; [assumption|]).
  exact (combined_burst_invocations 100 500 1700000000000
           (1700000000000, "first") _ H0 H1 H2 H3 H4).
Defined.

End DebounceFacts.

Module MergeFacts.
Import Js Merge.

Lemma get_set_eq (k : string) (v : value) (o : obj) : get k (set k v o) = Some v.
Proof.
  induction o as [|[k' w] o IH]; cbn.
  - by rewrite String.eqb_refl.
  - destruct (String.eqb_spec k' k) as [->|Hne]; cbn.
    + by rewrite String.eqb_refl.
    + destruct (String.eqb_spec k' k); [done|exact IH].
Qed.

Lemma get_set_ne (k k' : string) (v : value) (o : obj) :
  k <> k' -> get k' (set k v o) = get k' o.
Proof.
  intros Hne. induction o as [|[k0 w] o IH]; cbn.
  - destruct (String.eqb_spec k k'); [done|reflexivity].
  - destruct (String.eqb_spec k0 k) as [->|Hk0]; cbn.
    + destruct (String.eqb_spec k k'); [done|reflexivity].
    + destruct (String.eqb_spec k0 k'); [reflexivity|exact IH].
Qed.

Lemma get_None_not_key (k : string) (o : obj) : k ∉ keys o -> get k o = None.
Proof.
  induction o as [|[k' w] o IH]; cbn; [done|].
  intros Hnot. destruct (String.eqb_spec k' k) as [->|Hne].
  - exfalso. apply Hnot. by left.
  - apply IH. intros Hin. apply Hnot. by right.
Qed.

(** Reading a property of [{ ...target, ...source }]. *)
Lemma get_assign (k : string) (source : obj) : forall target : obj,
  NoDup (keys source) ->
  get k (assign target source)
  = match get k source with
    | Some v => Some v
    | None => get k target
    end.
Proof.
  induction source as [|[k0 v0] source IH]; intros target Hnd; [reflexivity|].
  apply NoDup_cons in Hnd as [Hnot Hnd].
  change (assign target ((k0, v0) :: source)) with (assign (set k0 v0 target) source).
  rewrite IH by done. cbn [get].
  destruct (String.eqb_spec k0 k) as [->|Hne].
  - by rewrite get_None_not_key, get_set_eq.
  - by rewrite get_set_ne.
Qed.

(** The loop of [deepMerge] is a left fold of [deepMerge_step]. *)
Lemma deepMerge_objects (s i : obj) :
  deepMerge (VObj s) (VObj i) = VObj (fold_left (deepMerge_step i) s i).
Proof.
  cbn [deepMerge]. f_equal.
  match goal with
  | |- ?go s i = _ =>
      assert (Hgo : forall ks result, go ks result = fold_left (deepMerge_step i) ks result)
  end.
  { induction ks as [|[key storedValue] ks IH]; intros result; [reflexivity|].
    cbn [fold_left deepMerge_step].
    destruct (includes dangerousKeys key); [apply IH|].
    destruct storedValue; cbn [defined]; try apply IH.
    destruct (get key i) as [[]|]; apply IH. }
  apply Hgo.
Qed.

(** A turn of the loop writes at most the key it looks at, and never a
    dangerous one. *)
Lemma get_deepMerge_step (d : string) (i result : obj) (kv : string * value) :
  includes dangerousKeys d = true \/ d <> fst kv ->
  get d (deepMerge_step i result kv) = get d result.
Proof.
  destruct kv as [key storedValue]. cbn [fst deepMerge_step]. intros Hd.
  destruct (includes dangerousKeys key) eqn:Hkey; [reflexivity|].
  assert (Hne : key <> d).
  { intros ->. destruct Hd as [Hd|Hd]; congruence. }
  destruct storedValue; cbn [defined]; try reflexivity; try by apply get_set_ne.
  destruct (get key i) as [[]|]; by apply get_set_ne.
Qed.

Lemma get_fold_dangerous (d : string) (i : obj) (s : obj) : forall result : obj,
  includes dangerousKeys d = true ->
  get d (fold_left (deepMerge_step i) s result) = get d result.
Proof.
  induction s as [|kv s IH]; intros result Hd; [reflexivity|].
  cbn [fold_left]. rewrite IH by done. apply get_deepMerge_step. by left.
Qed.

Lemma get_fold_absent (k : string) (i : obj) (s : obj) : forall result : obj,
  k ∉ keys s ->
  get k (fold_left (deepMerge_step i) s result) = get k result.
Proof.
  induction s as [|[k0 v0] s IH]; intros result Hnot; [reflexivity|].
  cbn [fold_left]. rewrite IH.
  - apply get_deepMerge_step. right. cbn. intros ->. apply Hnot. by left.
  - intros Hin. apply Hnot. by right.
Qed.

Lemma get_fold_safe (k : string) (i : obj) (s : obj) : forall result : obj,
  includes dangerousKeys k = false ->
  NoDup (keys s) ->
  get k (fold_left (deepMerge_step i) s result)
  = match get k s with
    | None => get k result
    | Some VUndefined => get k result
    | Some sv => mergedProperty (Some sv) (get k i)
    end.
Proof.
  induction s as [|[k0 v0] s IH]; intros result Hk Hnd; [reflexivity|].
  apply NoDup_cons in Hnd as [Hnot Hnd]. cbn [fold_left get].
  destruct (String.eqb_spec k0 k) as [->|Hne].
  - rewrite get_fold_absent by done. cbn [deepMerge_step]. rewrite Hk.
    destruct v0; cbn [defined mergedProperty]; try apply get_set_eq; try reflexivity.
    destruct (get k i) as [[]|]; apply get_set_eq.
  - rewrite IH by done.
    destruct (get k s) as [[]|]; try reflexivity;
      apply get_deepMerge_step; by right.
Qed.

(** C8.  [shallowMerge(stored, initial)] on two objects merges one level:
    a top-level key of [stored] carries stored's value as it is, so a nested
    object of [stored] replaces the one of [initial] whole and the nested
    keys only [initial] had are gone; a top-level key absent from [stored]
    keeps the value of [initial]. *)
Theorem shallowMerge_one_level (stored initial : obj) :
  NoDup (keys stored) ->
  exists merged : obj,
    shallowMerge (VObj stored) (VObj initial) = VObj merged /\
    forall k : string,
      get k merged
      = match get k stored with
        | Some v => Some v
        | None => get k initial
        end.
Proof.
  intros Hnd. exists (assign initial stored). split; [reflexivity|].
  intros k. by apply get_assign.
Qed.

(** C4, as amended.  At every level [deepMerge] merges key by key, that is
    for every pair of plain objects it is called on, the three dangerous
    keys of [stored] are skipped: under such a key the result has what
    [initial] has.  Under any other key it has the merge of the two values
    when both are plain objects, which is such a level again, and otherwise
    stored's value whole (or initial's, when stored has none). *)
Theorem deepMerge_skips_dangerous_keys (stored initial : obj) :
  NoDup (keys stored) ->
  exists merged : obj,
    deepMerge (VObj stored) (VObj initial) = VObj merged /\
    (forall d : string,
        includes dangerousKeys d = true -> get d merged = get d initial) /\
    (forall k : string,
        includes dangerousKeys k = false ->
        get k merged = mergedProperty (get k stored) (get k initial)).
Proof.
  intros Hnd. exists (fold_left (deepMerge_step initial) stored initial).
  split; [apply deepMerge_objects|]. split.
  - intros d Hd. by apply get_fold_dangerous.
  - intros k Hk. rewrite get_fold_safe by done.
    destruct (get k stored) as [[]|]; reflexivity.
Qed.

Lemma shallowMerge_witness :
  NoDup (keys [("name", VStr "John"); ("address", VObj [("city", VStr "NYC")])]) /\
  exists merged : obj,
    shallowMerge
      (VObj [("name", VStr "John"); ("address", VObj [("city", VStr "NYC")])])
      (VObj [("name", VStr ""); ("email", VStr "");
             ("address", VObj [("city", VStr ""); ("zip", VStr "")])])
    = VObj merged /\
    forall k : string,
      get k merged
      = match get k [("name", VStr "John"); ("address", VObj [("city", VStr "NYC")])] with
        | Some v => Some v
        | None =>
            get k [("name", VStr ""); ("email", VStr "");
                   ("address", VObj [("city", VStr ""); ("zip", VStr "")])]
        end.
Proof.
  assert (H : NoDup (keys [("name", VStr "John");
                           ("address", VObj [("city", VStr "NYC")])])).
  { apply (bool_decide_unpack _). vm_compute. exact I. }
  split; [exact H|].
  exact (shallowMerge_one_level _ _ H).
Defined.

(** The example of the source: [address.zip] is lost. *)
Example shallowMerge_drops_nested_sibling :
  shallowMerge
    (VObj [("name", VStr "John"); ("address", VObj [("city", VStr "NYC")])])
    (VObj [("name", VStr ""); ("email", VStr "");
           ("address", VObj [("city", VStr ""); ("zip", VStr "")])])
  = VObj [("name", VStr "John"); ("email", VStr "");
          ("address", VObj [("city", VStr "NYC")])].
Proof. reflexivity. Qed.

(** C4, counterexample.  [initial] has no dangerous key anywhere and holds
    [null] under ["profile"]; the object [stored] holds there is taken over
    whole, and the key ["constructor"] inside it is in the result. *)
Lemma deepMerge_copies_nested_dangerous_key :
  hasDangerousKey (VObj [("profile", VNull)]) = false /\
  deepMerge
    (VObj [("profile", VObj [("constructor", VObj [("polluted", VBool true)])])])
    (VObj [("profile", VNull)])
  = VObj [("profile", VObj [("constructor", VObj [("polluted", VBool true)])])] /\
  hasDangerousKey
    (deepMerge
       (VObj [("profile", VObj [("constructor", VObj [("polluted", VBool true)])])])
       (VObj [("profile", VNull)]))
  = true.
Proof. repeat split. Qed.

Lemma deepMerge_witness :
  NoDup (keys [("__proto__", VObj [("polluted", VBool true)]); ("name", VStr "safe")]) /\
  exists merged : obj,
    deepMerge
      (VObj [("__proto__", VObj [("polluted", VBool true)]); ("name", VStr "safe")])
      (VObj [("name", VStr ""); ("email", VStr "")])
    = VObj merged /\
    (forall d : string,
        includes dangerousKeys d = true ->
        get d merged = get d [("name", VStr ""); ("email", VStr "")]) /\
    (forall k : string,
        includes dangerousKeys k = false ->
        get k merged
        = mergedProperty
            (get k [("__proto__", VObj [("polluted", VBool true)]); ("name", VStr "safe")])
            (get k [("name", VStr ""); ("email", VStr "")])).
Proof.
  assert (H : NoDup (keys [("__proto__", VObj [("polluted", VBool true)]);
                           ("name", VStr "safe")])).
  { apply (bool_decide_unpack _). vm_compute. exact I. }
  split; [exact H|].
  exact (deepMerge_skips_dangerous_keys _ _ H).
Defined.

End MergeFacts.

Module SyncFacts.
Import Js Transform Sync.

Section Facts.
Context {C : Type}.
Implicit Types (m : SyncManager C).

(** A message carrying the manager's own tab identifier is dropped. *)
Lemma own_message_ignored m (message : SyncMessage) :
  msg_tabId message = tabId m -> handleBroadcastMessage m message = [].
Proof.
  intros Hid. unfold handleBroadcastMessage.
  destruct (isDestroyed m); [reflexivity|].
  by rewrite Hid, String.eqb_refl.
Qed.

(** A storage event that clears the manager's key reaches the [onSync]
    hook of the options and nothing else. *)
Lemma cleared_key_notifies_hook (json : Json) m (event : StorageEvent) :
  isDestroyed m = false ->
  ev_key event = Some (key m) ->
  ev_newValue event = None ->
  handleStorageEvent json m event
  = invoke (opt_onSync (options m)) VUndefined FromStorage.
Proof.
  intros Hlive Hkey Hnull. unfold handleStorageEvent.
  by rewrite Hlive, Hkey, String.eqb_refl, Hnull.
Qed.

(** C3, as amended.  On a manager that has not been destroyed, a storage
    event for the manager's key with [newValue = null] invokes the [onSync]
    hook of the options, when there is one, with [undefined] and source
    ['storage'], and invokes nothing else: the callback registered with
    [onSync(cb)] is not called.  A broadcast message with the manager's own
    [tabId] invokes nothing. *)
Theorem storage_clear_and_own_messages
    (json : Json) m (cb : C) (event : StorageEvent) (message : SyncMessage) :
  isDestroyed m = false ->
  ev_key event = Some (key m) ->
  ev_newValue event = None ->
  msg_tabId message = tabId m ->
  handleStorageEvent json (onSync cb m) event
  = match opt_onSync (options m) with
    | Some hook => [{| callee := hook; payload := VUndefined; source := FromStorage |}]
    | None => []
    end /\
  handleBroadcastMessage (onSync cb m) message = [].
Proof.
  intros Hlive Hkey Hnull Hid. split.
  - rewrite (cleared_key_notifies_hook json (onSync cb m) event); try done.
  - by apply own_message_ignored.
Qed.

End Facts.

(** C3, counterexample.  A manager with a callback registered through
    [onSync(cb)] and no [onSync] option receives the storage event of a
    cleared key: nothing is invoked.  With an [onSync] option, that hook is
    the only callee. *)
Lemma storage_clear_skips_registered_callback :
  handleStorageEvent
    {| stringify := fun _ => Ok []; parse := fun _ => None |}
    (onSync "cb"
       (create "form"
          {| strategy := None; opt_onSync := None; conflictResolver := false;
             channel := None |}
          "tab-1"))
    {| ev_key := Some "form"; ev_newValue := None |}
  = [] /\
  handleStorageEvent
    {| stringify := fun _ => Ok []; parse := fun _ => None |}
    (onSync "cb"
       (create "form"
          {| strategy := None; opt_onSync := Some "hook"; conflictResolver := false;
             channel := None |}
          "tab-1"))
    {| ev_key := Some "form"; ev_newValue := None |}
  = [{| callee := "hook"; payload := VUndefined; source := FromStorage |}].
Proof. split; reflexivity. Qed.

Lemma storage_clear_witness :
  isDestroyed
    (create "form"
       {| strategy := None; opt_onSync := Some "hook"; conflictResolver := false;
          channel := None |} "tab-1") = false /\
  handleStorageEvent
    {| stringify := fun _ => Ok []; parse := fun _ => None |}
    (onSync "cb"
       (create "form"
          {| strategy := None; opt_onSync := Some "hook"; conflictResolver := false;
             channel := None |} "tab-1"))
    {| ev_key := Some "form"; ev_newValue := None |}
  = [{| callee := "hook"; payload := VUndefined; source := FromStorage |}] /\
  handleBroadcastMessage
    (onSync "cb"
       (create "form"
          {| strategy := None; opt_onSync := Some "hook"; conflictResolver := false;
             channel := None |} "tab-1"))
    {| msg_type := Update; msg_key := "form"; msg_data := VObj [("name", VStr "x")];
       msg_timestamp := 1700000000000; msg_tabId := "tab-1" |}
  = [].
Proof.
  split; [reflexivity|].
  exact (storage_clear_and_own_messages
           {| stringify := fun _ => Ok []; parse := fun _ => None |}
           (create "form"
              {| strategy := None; opt_onSync := Some "hook";
                 conflictResolver := false; channel := None |} "tab-1")
           "cb"
           {| ev_key := Some "form"; ev_newValue := None |}
           {| msg_type := Update; msg_key := "form";
              msg_data := VObj [("name", VStr "x")];
              msg_timestamp := 1700000000000; msg_tabId := "tab-1" |}
           eq_refl eq_refl eq_refl eq_refl).
Defined.

End SyncFacts.

Module HookFacts.
Import Js Transform Validate Storage Hook.

(** [processData] does not look at the [validate] hook. *)
Lemma processData_withValidate (f : option (value -> result bool))
    (o : FormPersistOptions) (d : value) :
  processData (withValidate f o) d = processData o d.
Proof. reflexivity. Qed.

(** A save whose validation does not pass changes nothing. *)
Lemma save_rejected (env : Environment) (key : string) (o : FormPersistOptions)
    (now : Z) (d p : value) (w : world) :
  processData o d = Ok p ->
  validateData p (validate o) = false ->
  saveToStorage env key o now d w = w.
Proof.
  intros Hp Hv. unfold saveToStorage.
  destruct (negb (enabled o) || isPaused (hook w) || isSSR env); [reflexivity|].
  by rewrite Hp, Hv.
Qed.

Section Facts.
Variable env : Environment.
Variable key : string.
Variable initialState : value.
Variable options : FormPersistOptions.

Lemma valid_is_truthy (parsed : value) :
  isValidPersistedData parsed = true -> truthy parsed = true.
Proof. by destruct parsed. Qed.

Lemma expired_when_past (now e : Z) (parsed : value) :
  field "expiresAt" parsed = VNum e -> e < now ->
  isExpired (coerce env) now parsed = true.
Proof.
  intros He Hlt. unfold isExpired. rewrite He. cbn. by apply Z.ltb_lt.
Qed.

(** The load of an expired envelope: the key is removed through the
    adapter and nothing else changes. *)
Lemma load_expired (now e : Z) (raw : str) (w : world) :
  isSSR env = false -> enabled options = true -> isMounted (hook w) = false ->
  getItem (storage env) (fullKey key options) (backend w) = Some raw ->
  raw <> [] ->
  isValidPersistedData (transformerDeserialize env options raw) = true ->
  field "expiresAt" (transformerDeserialize env options raw) = VNum e ->
  e < now ->
  loadOnMount env key initialState options now w
  = {| backend := removeItem (storage env) (fullKey key options) (backend w);
       hook := mounted (hook w);
       effects := effects w |}.
Proof.
  intros Hssr Hen Hmo Hget Hraw Hvalid Hexp Hlt.
  unfold loadOnMount. rewrite Hssr, Hen, Hmo. cbn [orb negb].
  unfold loadFromStorage. cbn [backend hook effects]. rewrite Hget.
  destruct raw as [|c raw]; [done|].
  rewrite (valid_is_truthy _ Hvalid), Hvalid. cbn [negb].
  by rewrite (expired_when_past now e _ Hexp Hlt).
Qed.

(** C5, as amended.  With an envelope under the hook's key whose
    [expiresAt] is earlier than the current time, the load on mount removes
    the key from the backend, leaves the live state equal to the caller's
    initial state, returns normally, and invokes no callback: expiry is not
    reported through [onError]. *)
Theorem expired_envelope_dropped_silently
    (now e : Z) (raw : str) (st : store) :
  isSSR env = false ->
  enabled options = true ->
  (storage env = createMemoryStorage \/
   exists rejects, storage env = createBrowserStorageAdapter rejects) ->
  st !! fullKey key options = Some raw ->
  raw <> [] ->
  isValidPersistedData (transformerDeserialize env options raw) = true ->
  field "expiresAt" (transformerDeserialize env options raw) = VNum e ->
  e < now ->
  loadOnMount env key initialState options now
    {| backend := st; hook := mount initialState; effects := [] |}
  = {| backend := delete (fullKey key options) st;
       hook := mounted (mount initialState);
       effects := [] |} /\
  delete (fullKey key options) st !! fullKey key options = None /\
  state (mounted (mount initialState)) = initialState.
Proof.
  intros Hssr Hen Hstore Hget Hraw Hvalid Hexp Hlt.
  split; [|split; [apply lookup_delete_eq|reflexivity]].
  rewrite (load_expired now e raw); try done.
  - cbn [backend hook effects]. by destruct Hstore as [->|[r ->]].
  - cbn [backend]. by destruct Hstore as [->|[r ->]].
Qed.

(** The load of an envelope whose migration throws. *)
Lemma load_migration_failed (now sv : Z) (raw : str) (f : MigrateFn) (e : Error)
    (w : world) :
  isSSR env = false -> enabled options = true -> isMounted (hook w) = false ->
  getItem (storage env) (fullKey key options) (backend w) = Some raw ->
  raw <> [] ->
  isValidPersistedData (transformerDeserialize env options raw) = true ->
  isExpired (coerce env) now (transformerDeserialize env options raw) = false ->
  field "version" (transformerDeserialize env options raw) = VNum sv ->
  sv < default 1 (version options) ->
  migrate options = Some f ->
  f (field "data" (transformerDeserialize env options raw)) sv = Throw e ->
  loadOnMount env key initialState options now w
  = handleError key options MIGRATION_FAILED "Failed to migrate data" None
      {| backend := backend w; hook := mounted (hook w); effects := effects w |}.
Proof.
  intros Hssr Hen Hmo Hget Hraw Hvalid Hexp Hver Hlt Hmig Hthrow.
  unfold loadOnMount. rewrite Hssr, Hen, Hmo. cbn [orb negb].
  unfold loadFromStorage. cbn [backend hook effects]. rewrite Hget.
  destruct raw as [|c raw]; [done|].
  rewrite (valid_is_truthy _ Hvalid), Hvalid, Hexp. cbn [negb].
  rewrite Hver. cbn [numberOf]. unfold migrateData, needsMigration.
  apply Z.ltb_lt in Hlt. rewrite Hlt, Hmig, Hthrow. reflexivity.
Qed.

(** C9.  [migrateData] returns the data as it is when the stored version
    is not below the current one, and when no [migrateFn] is given; when
    [migrateFn] throws it returns [null], and the load on mount then reports
    [MIGRATION_FAILED] through [onError] and leaves the backend and the
    caller's initial state as they were. *)
Theorem migration_failure_keeps_initial_state
    (now sv cv : Z) (data : value) (g : option MigrateFn)
    (raw : str) (f : MigrateFn) (e : Error) (st : store) :
  isSSR env = false ->
  enabled options = true ->
  getItem (storage env) (fullKey key options) st = Some raw ->
  raw <> [] ->
  isValidPersistedData (transformerDeserialize env options raw) = true ->
  isExpired (coerce env) now (transformerDeserialize env options raw) = false ->
  field "version" (transformerDeserialize env options raw) = VNum sv ->
  sv < default 1 (version options) ->
  migrate options = Some f ->
  f (field "data" (transformerDeserialize env options raw)) sv = Throw e ->
  (cv <= sv -> migrateData data sv cv g = data) /\
  migrateData data sv cv None = data /\
  migrateData (field "data" (transformerDeserialize env options raw)) sv
    (default 1 (version options)) (Some f) = VNull /\
  loadOnMount env key initialState options now
    {| backend := st; hook := mount initialState; effects := [] |}
  = {| backend := st;
       hook := mounted (mount initialState);
       effects :=
         if onError options
         then [OnError (createErrorInfo MIGRATION_FAILED (fullKey key options)
                          "Failed to migrate data" None)]
         else [] |} /\
  state (mounted (mount initialState)) = initialState.
Proof.
  intros Hssr Hen Hget Hraw Hvalid Hexp Hver Hlt Hmig Hthrow.
  repeat split.
  - intros Hge. unfold migrateData, needsMigration.
    apply Z.ltb_ge in Hge. by rewrite Hge.
  - unfold migrateData. by destruct (negb _).
  - unfold migrateData, needsMigration.
    apply Z.ltb_lt in Hlt. by rewrite Hlt, Hthrow.
  - rewrite (load_migration_failed now sv raw f e); try done.
Qed.

(** C10.  When the caller's [validate] hook throws on the data about to be
    saved, [validateData] is [false] and [saveToStorage] returns with the
    backend, the hook and the callbacks untouched, exactly as when the hook
    returns [false]. *)
Theorem throwing_validate_skips_save
    (now : Z) (d p : value) (f : value -> result bool) (e : Error) (w : world) :
  processData options d = Ok p ->
  validate options = Some f ->
  f p = Throw e ->
  validateData p (validate options) = false /\
  saveToStorage env key options now d w = w /\
  saveToStorage env key (withValidate (Some (fun _ => Ok false)) options) now d w
  = saveToStorage env key options now d w.
Proof.
  intros Hp Hf Hthrow.
  assert (Hv : validateData p (validate options) = false).
  { unfold validateData. by rewrite Hf, Hthrow. }
  split; [exact Hv|].
  rewrite (save_rejected env key options now d p w Hp Hv). split; [reflexivity|].
  apply (save_rejected env key _ now d p); [by rewrite processData_withValidate|reflexivity].
Qed.

End Facts.

(** The history kept by the hook obeys the same bounds as a
    [HistoryManager]: [setState], [undo], [redo] and [reset] keep between
    one and [maxHistory] states and the index inside them. *)
Lemma hook_history_bounded (initialState : value) (options : FormPersistOptions)
    (calls : list historyCall) :
  1 <= maxHistory options ->
  historyWellFormed options
    (fold_left (historyStep initialState options) calls (mount initialState)).
Proof.
  intros Hmax.
  assert (Hmount : historyWellFormed options (mount initialState))
    by (unfold historyWellFormed; cbn; lia).
  revert Hmount. generalize (mount initialState).
  induction calls as [|c calls IH]; intros h Hwf; [exact Hwf|].
  cbn [fold_left]. apply IH. clear IH.
  destruct Hwf as [[Hl1 Hl2] [Hi1 Hi2]].
  destruct c as [s| | |]; cbn [historyStep].
  - unfold setState. destruct (historyEnabled options); [|by repeat split].
    set (ns := History.slice0 (historyIndex h + 1) (history h) ++ [s]).
    assert (Hns : Z.of_nat (length ns) = historyIndex h + 2).
    { unfold ns. rewrite length_app, Nat2Z.inj_add,
        HistoryFacts.slice0_length by lia. cbn. lia. }
    unfold historyWellFormed, withHistory, History.shift.
    cbn [history historyIndex].
    destruct (Z.ltb_spec (maxHistory options) (Z.of_nat (length ns))).
    + assert (Hlen : length (tail ns) = Nat.pred (length ns))
        by (destruct ns; reflexivity).
      rewrite Hlen. lia.
    + lia.
  - unfold undo, canUndo. destruct (Z.ltb_spec 0 (historyIndex h)); cbn [negb];
      [|by repeat split].
    unfold historyWellFormed, withHistory. cbn [history historyIndex]. lia.
  - unfold redo, canRedo.
    destruct (Z.ltb_spec (historyIndex h) (Z.of_nat (length (history h)) - 1));
      cbn [negb]; [|by repeat split].
    unfold historyWellFormed, withHistory. cbn [history historyIndex]. lia.
  - unfold historyWellFormed, resetState, withHistory. cbn. lia.
Qed.

(** C5, counterexample.  The backend holds, under the hook's key, the text
    of an envelope that expired at time 2000; the hook is given an [onError]
    callback and mounts at time 5000.  The key is removed and the state is
    the initial one, but no callback is invoked: the expiry is not reported
    through [onError]. *)
Lemma expired_load_invokes_no_callback :
  onError Sample.options = true /\
  transformerDeserialize Sample.environment Sample.options Sample.expiredText
  = Sample.expiredEnvelope /\
  backend (loadOnMount Sample.environment "form" Sample.initialState Sample.options
             5000 (Sample.fresh Sample.expiredStore))
    !! "rfp:form" = None /\
  state (hook (loadOnMount Sample.environment "form" Sample.initialState
                 Sample.options 5000
                 (Sample.fresh Sample.expiredStore)))
  = Sample.initialState /\
  effects (loadOnMount Sample.environment "form" Sample.initialState Sample.options
             5000 (Sample.fresh Sample.expiredStore))
  = [].
Proof. repeat split; vm_compute; reflexivity. Qed.

Lemma expired_envelope_witness :
  loadOnMount Sample.environment "form" Sample.initialState Sample.options 5000
    {| backend := Sample.expiredStore;
       hook := mount Sample.initialState; effects := [] |}
  = {| backend := delete (fullKey "form" Sample.options)
                    Sample.expiredStore;
       hook := mounted (mount Sample.initialState);
       effects := [] |} /\
  delete (fullKey "form" Sample.options) Sample.expiredStore
    !! fullKey "form" Sample.options = None /\
  state (mounted (mount Sample.initialState)) = Sample.initialState.
Proof.
  apply (expired_envelope_dropped_silently Sample.environment "form"
           Sample.initialState Sample.options 5000 2000 Sample.expiredText).
  - reflexivity.
  - reflexivity.
  - left. reflexivity.
  - vm_compute. reflexivity.
  - vm_compute. discriminate.
  - vm_compute. reflexivity.
  - vm_compute. reflexivity.
  - lia.
Defined.

Lemma migration_failure_witness :
  (1 <= 1 -> migrateData (VStr "kept") 1 1 (Some Sample.throwingMigrate) = VStr "kept") /\
  migrateData (VStr "kept") 1 1 None = VStr "kept" /\
  migrateData
    (field "data"
       (transformerDeserialize Sample.environment
          (withMigrate (Some 2) (Some Sample.throwingMigrate) Sample.options)
          Sample.oldText))
    1 (default 1 (version (withMigrate (Some 2) (Some Sample.throwingMigrate)
                             Sample.options)))
    (Some Sample.throwingMigrate)
  = VNull /\
  loadOnMount Sample.environment "form" Sample.initialState
    (withMigrate (Some 2) (Some Sample.throwingMigrate) Sample.options) 5000
    {| backend := Sample.oldStore;
       hook := mount Sample.initialState; effects := [] |}
  = {| backend := Sample.oldStore;
       hook := mounted (mount Sample.initialState);
       effects :=
         if onError (withMigrate (Some 2) (Some Sample.throwingMigrate) Sample.options)
         then [OnError (createErrorInfo MIGRATION_FAILED
                          (fullKey "form"
                             (withMigrate (Some 2) (Some Sample.throwingMigrate)
                                Sample.options))
                          "Failed to migrate data" None)]
         else [] |} /\
  state (mounted (mount Sample.initialState)) = Sample.initialState.
Proof.
  apply (migration_failure_keeps_initial_state Sample.environment "form"
           Sample.initialState
           (withMigrate (Some 2) (Some Sample.throwingMigrate) Sample.options)
           5000 1 1 (VStr "kept") (Some Sample.throwingMigrate)
           Sample.oldText Sample.throwingMigrate Sample.failure).
  - reflexivity.
  - reflexivity.
  - vm_compute. reflexivity.
  - vm_compute. discriminate.
  - vm_compute. reflexivity.
  - vm_compute. reflexivity.
  - vm_compute. reflexivity.
  - vm_compute. reflexivity.
  - reflexivity.
  - reflexivity.
Defined.

Lemma throwing_validate_witness :
  validateData (VObj [("name", VStr "a")])
    (validate (withValidate (Some Sample.throwingValidate) Sample.options)) = false /\
  saveToStorage Sample.environment "form"
    (withValidate (Some Sample.throwingValidate) Sample.options) 5000
    (VObj [("name", VStr "a")]) (Sample.fresh ∅)
  = Sample.fresh ∅ /\
  saveToStorage Sample.environment "form"
    (withValidate (Some (fun _ => Ok false))
       (withValidate (Some Sample.throwingValidate) Sample.options)) 5000
    (VObj [("name", VStr "a")]) (Sample.fresh ∅)
  = saveToStorage Sample.environment "form"
      (withValidate (Some Sample.throwingValidate) Sample.options) 5000
      (VObj [("name", VStr "a")]) (Sample.fresh ∅).
Proof.
  apply (throwing_validate_skips_save Sample.environment "form"
           (withValidate (Some Sample.throwingValidate) Sample.options) 5000
           (VObj [("name", VStr "a")]) (VObj [("name", VStr "a")])
           Sample.throwingValidate Sample.failure (Sample.fresh ∅)).
  - reflexivity.
  - reflexivity.
  - reflexivity.
Defined.

End HookFacts.

Module HistoryMore.
Import History HistoryFacts.

Section Facts.
Context {T : Type}.
Implicit Types (h : HistoryState T) (o : op T).

Lemma current_defined h :
  well_formed h -> exists s : T, current h = Some s /\ s ∈ states h.
Proof.
  intros [[Hl1 Hl2] [Hi1 Hi2]]. unfold current, nth_js, length_ in *.
  destruct (Z.ltb_spec (index h) 0); [lia|].
  destruct (lookup_lt_is_Some_2 (states h) (Z.to_nat (index h))) as [s Hs]; [lia|].
  exists s. split; [exact Hs|]. by eapply list_elem_of_lookup_2.
Qed.

(** X1.  After any sequence of operations on a history stack created with
    [maxLength >= 1], [current] is one of the recorded states: it is never
    [undefined]. *)
Theorem current_never_undefined (initialState : T) (bound : Z) (ops : list (op T)) :
  1 <= bound ->
  exists s : T,
    current (run ops (create initialState bound)) = Some s /\
    s ∈ states (run ops (create initialState bound)).
Proof.
  intros Hb. apply current_defined, run_well_formed. by apply create_well_formed.
Qed.

Lemma push_index s h : well_formed h -> index (push s h) = length_ (push s h) - 1.
Proof. reflexivity. Qed.

Lemma push_current (s : T) h : well_formed h -> current (push s h) = Some s.
Proof.
  intros Hwf. pose proof (push_well_formed s h Hwf) as Hwf'.
  pose proof (push_keeps_newest s h Hwf) as Hlast.
  assert (Hidx : index (push s h) = length_ (push s h) - 1) by reflexivity.
  destruct Hwf' as [[Hl1' Hl2'] [Hi1' Hi2']].
  unfold current, nth_js. rewrite Hidx.
  destruct (Z.ltb_spec (length_ (push s h) - 1) 0); [lia|].
  rewrite last_lookup in Hlast. rewrite <- Hlast. f_equal.
  unfold length_. lia.
Qed.

Lemma push_canUndo (s : T) h :
  well_formed h -> 2 <= maxLength h -> canUndo (push s h) = true.
Proof.
  intros Hwf Hroom. pose proof (push_length s h Hwf) as Hlen.
  assert (Hidx : index (push s h) = length_ (push s h) - 1) by reflexivity.
  destruct Hwf as [[Hl1 Hl2] [Hi1 Hi2]].
  unfold canUndo. apply Z.ltb_lt. lia.
Qed.

(** X2.  A push makes the new state current and leaves nothing to redo; with
    room for two states there is then something to undo. *)
Theorem push_makes_current (s : T) h :
  well_formed h ->
  current (push s h) = Some s /\
  canRedo (push s h) = false /\
  (2 <= maxLength h -> canUndo (push s h) = true).
Proof.
  intros Hwf. repeat split.
  - by apply push_current.
  - unfold canRedo. change (index (push s h)) with (length_ (push s h) - 1).
    apply Z.ltb_ge. lia.
  - by apply push_canUndo.
Qed.

(** X3.  [undo] and [redo] undo each other. *)
Theorem undo_redo_inverse h :
  well_formed h ->
  (canUndo h = true -> canRedo (undo h) = true /\ redo (undo h) = h) /\
  (canRedo h = true -> canUndo (redo h) = true /\ undo (redo h) = h).
Proof.
  intros [[Hl1 Hl2] [Hi1 Hi2]]. destruct h as [st idx bound].
  unfold length_ in *. cbn [states index maxLength] in *. split.
  - intros Hu. unfold undo. rewrite Hu. cbn [negb states index maxLength].
    unfold canUndo in Hu. cbn [index] in Hu. apply Z.ltb_lt in Hu.
    assert (Hr : canRedo {| states := st; index := idx - 1; maxLength := bound |} = true)
      by (unfold canRedo, length_; cbn [states index]; apply Z.ltb_lt; lia).
    split; [exact Hr|]. unfold redo. rewrite Hr. cbn [negb states index maxLength].
    f_equal. lia.
  - intros Hr. unfold redo. rewrite Hr. cbn [negb states index maxLength].
    unfold canRedo, length_ in Hr. cbn [states index] in Hr. apply Z.ltb_lt in Hr.
    assert (Hu : canUndo {| states := st; index := idx + 1; maxLength := bound |} = true)
      by (unfold canUndo; cbn [index]; apply Z.ltb_lt; lia).
    split; [exact Hu|]. unfold undo. rewrite Hu. cbn [negb states index maxLength].
    f_equal. lia.
Qed.

(** X4.  Undoing a push shows the state that was current before it, when the
    stack has room for two states. *)
Theorem undo_after_push (s : T) h :
  well_formed h -> 2 <= maxLength h ->
  current (undo (push s h)) = current h.
Proof.
  intros Hwf Hroom.
  pose proof (push_canUndo s h Hwf Hroom) as Hu.
  pose proof (push_length s h Hwf) as Hlen.
  destruct Hwf as [[Hl1 Hl2] [Hi1 Hi2]].
  unfold undo. rewrite Hu. cbn [negb]. unfold current, nth_js. cbn [states index].
  change (index (push s h)) with (length_ (push s h) - 1). rewrite Hlen.
  unfold push, shift, slice0, length_ in *. cbn [states].
  destruct (Z.ltb_spec (index h + 1) 0); [lia|].
  destruct (Z.ltb_spec (index h) 0); [lia|].
  assert (Htake : length (take (Z.to_nat (index h + 1)) (states h))
                  = Z.to_nat (index h + 1)) by (rewrite length_take; lia).
  rewrite length_app, Htake. cbn [length].
  destruct (Z.ltb_spec (maxLength h) (Z.of_nat (Z.to_nat (index h + 1) + 1))).
  - destruct (Z.ltb_spec (Z.min (index h + 2) (maxLength h) - 1 - 1) 0); [lia|].
    rewrite lookup_tail, lookup_app_l by lia.
    rewrite lookup_take_lt by lia. f_equal. lia.
  - destruct (Z.ltb_spec (Z.min (index h + 2) (maxLength h) - 1 - 1) 0); [lia|].
    rewrite lookup_app_l by lia.
    rewrite lookup_take_lt by lia. f_equal. lia.
Qed.

End Facts.

Lemma current_never_undefined_witness :
  exists s : string,
    current (run [Push "b"; Undo; Undo; GoTo 7; Redo] (create "a" 3)) = Some s /\
    s ∈ states (run [Push "b"; Undo; Undo; GoTo 7; Redo] (create "a" 3)).
Proof.
  apply (current_never_undefined "a" 3 [Push "b"; Undo; Undo; GoTo 7; Redo]). lia.
Defined.

Lemma push_makes_current_witness :
  current (push "b" (create "a" 3)) = Some "b" /\
  canRedo (push "b" (create "a" 3)) = false /\
  (2 <= maxLength (create "a" 3) -> canUndo (push "b" (create "a" 3)) = true).
Proof.
  apply (push_makes_current "b" (create "a" 3)).
  unfold well_formed, length_. cbn. lia.
Defined.

Lemma undo_redo_inverse_witness :
  (canRedo (undo {| states := ["a"; "b"; "c"]; index := 1; maxLength := 3 |}) = true /\
   redo (undo {| states := ["a"; "b"; "c"]; index := 1; maxLength := 3 |})
   = {| states := ["a"; "b"; "c"]; index := 1; maxLength := 3 |}) /\
  (canUndo (redo {| states := ["a"; "b"; "c"]; index := 1; maxLength := 3 |}) = true /\
   undo (redo {| states := ["a"; "b"; "c"]; index := 1; maxLength := 3 |})
   = {| states := ["a"; "b"; "c"]; index := 1; maxLength := 3 |}).
Proof.
  assert (Hwf : well_formed {| states := ["a"; "b"; "c"]; index := 1; maxLength := 3 |})
    by (unfold well_formed, length_; cbn; lia).
  split.
  - apply (proj1 (undo_redo_inverse _ Hwf)). reflexivity.
  - apply (proj2 (undo_redo_inverse _ Hwf)). reflexivity.
Defined.

Lemma undo_after_push_witness :
  current (undo (push "d" {| states := ["a"; "b"; "c"]; index := 2; maxLength := 3 |}))
  = current {| states := ["a"; "b"; "c"]; index := 2; maxLength := 3 |}.
Proof.
  apply (undo_after_push "d" {| states := ["a"; "b"; "c"]; index := 2; maxLength := 3 |}).
  - unfold well_formed, length_. cbn. lia.
  - cbn. lia.
Defined.

End HistoryMore.

Module DebounceMore.
Import Debounce DebounceFacts Schedules.

Section Facts.
Context {A : Type}.
Implicit Types (w : world A) (a : A).

Ltac open_world w :=
  destruct w as [? ? ? [? ?] [? ? ?]]; cbn in *; subst.

Ltac decide_leb :=
  repeat match goal with
  | |- context [Z.leb ?x ?y] => destruct (Z.leb_spec x y); try lia
  | |- context [Z.ltb ?x ?y] => destruct (Z.ltb_spec x y); try lia
  | |- context [Z.eqb ?x ?y] => destruct (Z.eqb_spec x y); try lia
  end.

Ltac close_state :=
  repeat split; try lia; try reflexivity;
  eexists; refine (f_equal Some _); refine (f_equal2 mkTimer _ eq_refl); lia.

Lemma throttleLed_first (interval t_init t0 : Z) a0 :
  t_init <= t0 -> interval <= t0 ->
  throttleLed t0 a0 (throttled interval a0 (advance t0 (init t_init))).
Proof.
  intros Ht Hlead. unfold throttleLed, throttled. cbn. decide_leb. cbn.
  repeat split; lia.
Qed.

Lemma throttleTrailing_after_led (interval t0 t' : Z) a0 a' w :
  throttleLed t0 a0 w -> t0 <= t' -> t' < t0 + interval ->
  throttleTrailing interval t0 a0 t' a' (throttled interval a' (advance t' w)).
Proof.
  intros (Hnow & Hinv & Hd & Hlc & Htt & Hta) Hle Hwin.
  open_world w. unfold throttleTrailing, advance, pendingTimers. cbn.
  unfold throttled. cbn. decide_leb. cbn. close_state.
Qed.

Lemma throttleTrailing_next (interval t0 t t' : Z) a0 a a' w :
  throttleTrailing interval t0 a0 t a w -> t <= t' -> t' < t0 + interval ->
  throttleTrailing interval t0 a0 t' a' (throttled interval a' (advance t' w)).
Proof.
  intros (Hnow & Hinv & Hd & Hlc & [m Htt] & Hta) Hle Hwin.
  open_world w. unfold throttleTrailing, advance, pendingTimers. cbn.
  unfold nextTimer. cbn. decide_leb. cbn.
  unfold throttled. cbn. decide_leb. cbn. close_state.
Qed.

Lemma throttleTrailing_settle (interval t0 t : Z) a0 a w :
  0 < interval -> t < t0 + interval ->
  throttleTrailing interval t0 a0 t a w ->
  invoked (settle w) = [a0; a] /\
  now (settle w) = t0 + interval /\
  t_lastCall (throttle (settle w)) = t0 + interval /\
  pendingTimers (settle w) = 0%nat.
Proof.
  intros Hi Hwin (Hnow & Hinv & Hd & Hlc & [m Htt] & Hta). open_world w.
  unfold settle, pendingTimers. cbn. repeat split; lia.
Qed.

Lemma throttleTrailing_run (interval t0 : Z) a0 rest : forall t a w,
  t < t0 + interval ->
  throttleTrailing interval t0 a0 t a w ->
  ascending t rest -> allBefore (t0 + interval) rest ->
  exists t', t' < t0 + interval /\
    throttleTrailing interval t0 a0 t' (List.last (map snd rest) a)
      (runScript (throttledCalls interval rest) w).
Proof.
  induction rest as [|[t' a'] rest IH]; intros t a w Ht Htr Hasc Hwin.
  - exists t. split; [exact Ht|exact Htr].
  - destruct Hasc as [Hle Hasc].
    apply Forall_cons_1 in Hwin as [Hw Hwin]. cbn in Hw.
    cbn [throttledCalls map runScript fold_left fst snd perform].
    change (fold_left _ ?l ?w0) with (runScript l w0).
    destruct (IH t' a' (throttled interval a' (advance t' w)))
      as (t'' & Ht'' & Hfinal); try done.
    { by eapply throttleTrailing_next. }
    exists t''. split; [exact Ht''|]. cbn [map snd]. by rewrite last_cons.
Qed.

(** X5.  A burst of calls on a throttled function that starts with the
    throttle idle and stays inside one interval: the first call runs the
    callback at once, and the later calls are coalesced into one trailing
    call, made at the end of the interval with the arguments of the last
    call.  A single call has no trailing call. *)
Theorem throttle_burst_leading_and_trailing
    (interval t_init : Z) (first : Z * A) (rest : list (Z * A)) :
  0 < interval ->
  t_init <= fst first ->
  interval <= fst first ->
  ascending (fst first) rest ->
  allBefore (fst first + interval) rest ->
  invoked (runScript (throttledCalls interval [first]) (init t_init)) = [snd first] /\
  invoked (settle (runScript (throttledCalls interval (first :: rest)) (init t_init)))
  = snd first ::
    match rest with
    | [] => []
    | _ :: _ => [List.last (map snd rest) (snd first)]
    end /\
  (rest <> [] ->
   now (settle (runScript (throttledCalls interval (first :: rest)) (init t_init)))
   = fst first + interval).
Proof.
  intros Hi Ht Hlead Hasc Hwin. destruct first as [t0 a0].
  cbn [throttledCalls map runScript fold_left fst snd perform] in *.
  change (fold_left _ ?l ?w0) with (runScript l w0).
  pose proof (throttleLed_first interval t_init t0 a0 Ht Hlead) as Hled.
  split; [by destruct Hled as (_ & -> & _)|].
  destruct rest as [|[t1 a1] rest].
  - split; [|done]. cbn [runScript fold_left map].
    destruct Hled as (Hnow & Hinv & Hd & Hlc & Htt & Hta).
    set (w := throttled interval a0 (advance t0 (init t_init))) in *.
    clearbody w. open_world w. reflexivity.
  - destruct Hasc as [Hle Hasc].
    apply Forall_cons_1 in Hwin as [Hw Hwin]. cbn in Hw.
    cbn [map runScript fold_left fst snd perform].
    change (fold_left _ ?l ?w0) with (runScript l w0).
    destruct (throttleTrailing_run interval t0 a0 rest t1 a1
                (throttled interval a1
                   (advance t1 (throttled interval a0 (advance t0 (init t_init))))))
      as (t' & Ht' & Hfinal); try done.
    { by eapply throttleTrailing_after_led. }
    destruct (throttleTrailing_settle interval t0 t' a0 _ _ Hi Ht' Hfinal)
      as (Hinv & Hnow & _).
    split; [|intros _; exact Hnow].
    etransitivity; [exact Hinv|]. cbn [map snd]. by rewrite last_cons.
Qed.

(** X6.  [cancel] on the combined controller drops both timers: whatever the
    controller was doing, the callback is not invoked again. *)
Theorem cancel_stops_everything (wait interval : Z) w :
  interval <> 0 ->
  invoked (cancel (combined wait interval) w) = invoked w /\
  pending (combined wait interval) (cancel (combined wait interval) w) = false /\
  pendingTimers (cancel (combined wait interval) w) = 0%nat /\
  invoked (settle (cancel (combined wait interval) w)) = invoked w.
Proof.
  intros Hi. unfold cancel, noThrottle, combined. cbn [throttleInterval].
  destruct (Z.eqb_spec interval 0); [done|].
  destruct w as [? ? ? [? ?] [? ? ?]]. repeat split.
Qed.

Lemma armedAfter_first (wait t0 t : Z) a :
  t0 <= t -> armedAfter [] wait t a (debounced wait a (advance t (init t0))).
Proof.
  intros Ht. unfold armedAfter. cbn.
  repeat split; try lia; eexists; repeat f_equal; lia.
Qed.

Lemma armedAfter_next (log : list A) (wait t t' : Z) a a' w :
  armedAfter log wait t a w -> t <= t' < t + wait ->
  armedAfter log wait t' a' (debounced wait a' (advance t' w)).
Proof.
  intros (Hnow & Hinv & [n Hd] & Ha & Ht) Hgap. open_world w.
  unfold armedAfter, advance, pendingTimers, debounced. cbn.
  unfold nextTimer. cbn. decide_leb. cbn.
  repeat split; try lia; eexists; repeat f_equal; lia.
Qed.

Lemma armedAfter_run (log : list A) (wait : Z) rest : forall t a w,
  armedAfter log wait t a w -> rapid wait t rest ->
  exists t',
    armedAfter log wait t' (List.last (map snd rest) a)
      (runScript (debouncedCalls wait rest) w).
Proof.
  induction rest as [|[t' a'] rest IH]; intros t a w Harmed Hrapid.
  - by exists t.
  - destruct Hrapid as [Hgap Hrest].
    cbn [debouncedCalls map runScript fold_left fst snd perform].
    change (fold_left _ ?l ?w0) with (runScript l w0).
    destruct (IH t' a' (debounced wait a' (advance t' w))) as (t'' & Hfinal);
      [by eapply armedAfter_next|done|].
    exists t''. cbn [map snd]. by rewrite last_cons.
Qed.

(** X7.  [flush] during a burst on a debounced function runs the callback at
    once with the arguments of the last call and drops the timer, so the
    callback is not invoked a second time. *)
Theorem flush_runs_pending_call_once
    (wait t_init : Z) (first : Z * A) (rest : list (Z * A)) :
  t_init <= fst first ->
  rapid wait (fst first) rest ->
  debounce_pending (runScript (debouncedCalls wait (first :: rest)) (init t_init))
  = true /\
  invoked (debounce_flush
             (runScript (debouncedCalls wait (first :: rest)) (init t_init)))
  = [List.last (map snd rest) (snd first)] /\
  debounce_pending
    (debounce_flush (runScript (debouncedCalls wait (first :: rest)) (init t_init)))
  = false /\
  invoked (settle (debounce_flush
                     (runScript (debouncedCalls wait (first :: rest)) (init t_init))))
  = [List.last (map snd rest) (snd first)].
Proof.
  intros Ht Hrapid. destruct first as [t0 a0].
  cbn [debouncedCalls map runScript fold_left fst snd perform] in *.
  change (fold_left _ ?l ?w0) with (runScript l w0).
  destruct (armedAfter_run [] wait rest t0 a0
              (debounced wait a0 (advance t0 (init t_init))))
    as (t' & Hnow & Hinv & [n Hd] & Ha & Htt); [by apply armedAfter_first|done|].
  set (w := runScript _ _) in *. clearbody w.
  destruct w as [? ? ? [? ?] [? ? ?]]. cbn in *. subst. repeat split.
Qed.

End Facts.

Lemma throttle_burst_witness :
  invoked (runScript (throttledCalls 500 [(1700000000000, "a")]) (init 1700000000000))
  = ["a"] /\
  invoked (settle (runScript
    (throttledCalls 500
       [(1700000000000, "a"); (1700000000010, "b"); (1700000000020, "c")])
    (init 1700000000000)))
  = ["a"; "c"] /\
  ([(1700000000010, "b"); (1700000000020, "c")] <> [] ->
   now (settle (runScript
     (throttledCalls 500
        [(1700000000000, "a"); (1700000000010, "b"); (1700000000020, "c")])
     (init 1700000000000)))
   = 1700000000500).
Proof.
  assert (H0 : 0 < 500) by lia.
  assert (H1 : 1700000000000 <= fst (1700000000000, "a")) by (cbn; lia).
  assert (H2 : 500 <= fst (1700000000000, "a")) by (cbn; lia).
  assert (H3 : ascending (fst (1700000000000, "a"))
                 [(1700000000010, "b"); (1700000000020, "c")])
    by (cbn; lia).
  assert (H4 : allBefore (fst (1700000000000, "a") + 500)
                 [(1700000000010, "b"); (1700000000020, "c")])
    by (repeat constructor; cbn; lia).
  exact (throttle_burst_leading_and_trailing 500 1700000000000
           (1700000000000, "a") _ H0 H1 H2 H3 H4).
Defined.

Lemma cancel_stops_everything_witness :
  pending (combined 100 500)
    (runScript (saveCalls (combined 100 500)
                  [(1700000000000, "a"); (1700000000010, "b")])
       (init 1700000000000)) = true /\
  invoked (settle (cancel (combined 100 500)
    (runScript (saveCalls (combined 100 500)
                  [(1700000000000, "a"); (1700000000010, "b")])
       (init 1700000000000))))
  = ["a"].
Proof.
  split; [reflexivity|].
  assert (H : 500 <> 0) by lia.
  exact (proj2 (proj2 (proj2 (cancel_stops_everything 100 500
           (runScript (saveCalls (combined 100 500)
                         [(1700000000000, "a"); (1700000000010, "b")])
              (init 1700000000000)) H)))).
Defined.

Lemma flush_witness :
  debounce_pending (runScript
    (debouncedCalls 100 [(1700000000000, "a"); (1700000000040, "b")])
    (init 1700000000000)) = true /\
  invoked (debounce_flush (runScript
    (debouncedCalls 100 [(1700000000000, "a"); (1700000000040, "b")])
    (init 1700000000000))) = ["b"] /\
  debounce_pending (debounce_flush (runScript
    (debouncedCalls 100 [(1700000000000, "a"); (1700000000040, "b")])
    (init 1700000000000))) = false /\
  invoked (settle (debounce_flush (runScript
    (debouncedCalls 100 [(1700000000000, "a"); (1700000000040, "b")])
    (init 1700000000000)))) = ["b"].
Proof.
  assert (H1 : 1700000000000 <= fst (1700000000000, "a")) by (cbn; lia).
  assert (H2 : rapid 100 (fst (1700000000000, "a")) [(1700000000040, "b")])
    by (cbn; lia).
  exact (flush_runs_pending_call_once 100 1700000000000
           (1700000000000, "a") _ H1 H2).
Defined.

End DebounceMore.

Module TransformMore.
Import Js Transform Validate Envelope TransformFacts MergeFacts.

(** X8.  [simpleCompress] never makes a string longer. *)
Theorem simpleCompress_never_longer (data : str) :
  len (simpleCompress data) <= len data.
Proof.
  unfold simpleCompress.
  destruct (len data <? DEFAULT_COMPRESSION_THRESHOLD); [lia|].
  destruct data as [|first rest]; [lia|].
  destruct (Z.ltb_spec (len (compressLoop rest first 1 [])) (len (first :: rest)));
    [|lia].
  unfold len in *. cbn [length] in *. lia.
Qed.

(** X9.  A string without the character [\\x00] that does not begin with the
    marker [\\x01] is given back by [simpleDecompress] after
    [simpleCompress], whatever its length. *)
Theorem compress_round_trip (data : str) :
  Forall (fun c => c <> 0%N) data ->
  head data <> Some 1%N ->
  simpleDecompress (simpleCompress data) = Some data.
Proof. apply simpleDecompress_simpleCompress. Qed.

Lemma decompressLoop_plain (l : str) :
  Forall (fun c => c <> 0%N) l -> decompressLoop l = Some l.
Proof.
  induction 1 as [|c l Hc Hl IH]; [reflexivity|].
  destruct c as [|p]; [done|]. cbn [decompressLoop]. by rewrite IH.
Qed.

(** X10.  The marker is not escaped: a string below the compression threshold
    that begins with [\\x01] is stored as it is, and [simpleDecompress] takes
    its first character for the marker and drops it. *)
Theorem uncompressed_marker_is_dropped (rest : str) :
  len (1%N :: rest) < DEFAULT_COMPRESSION_THRESHOLD ->
  Forall (fun c => c <> 0%N) rest ->
  simpleDecompress (simpleCompress (1%N :: rest)) = Some rest.
Proof.
  intros Hshort Hrest. unfold simpleCompress.
  destruct (Z.ltb_spec (len (1%N :: rest)) DEFAULT_COMPRESSION_THRESHOLD); [|lia].
  cbn [simpleDecompress]. by apply decompressLoop_plain.
Qed.

(** X11.  [base64Encode] returns on every well-formed string, and
    [base64Decode] gives the string back. *)
Theorem base64Decode_base64Encode (s : str) :
  wellFormed s ->
  exists encoded : str, base64Encode s = Some encoded /\ base64Decode encoded = s.
Proof. apply base64_round_trip. Qed.



(** X13.  What [wrapWithMetadata] writes passes [isValidPersistedData]; it is
    expired at a later time exactly when a positive expiration was given
    and that many minutes have passed since the write. *)
Theorem wrapped_is_valid_and_expires (coerce : value -> option Z)
    (now later : Z) (data : value) (version : Z) (expiration : option Z) :
  isValidPersistedData (wrapWithMetadata now data version expiration) = true /\
  field "data" (wrapWithMetadata now data version expiration) = data /\
  field "version" (wrapWithMetadata now data version expiration) = VNum version /\
  field "timestamp" (wrapWithMetadata now data version expiration) = VNum now /\
  isExpired coerce later (wrapWithMetadata now data version expiration)
  = match expiration with
    | Some minutes => (0 <? minutes) && (now + minutes * 60 * 1000 <? later)
    | None => false
    end.
Proof.
  unfold wrapWithMetadata.
  destruct expiration as [minutes|]; [destruct (0 <? minutes)|]; repeat split.
Qed.

(** X14.  [unwrapData] gives back the data [wrapWithMetadata] wrapped, or [null]
    once the envelope has expired. *)
Theorem unwrapData_wrapWithMetadata (coerce : value -> option Z)
    (now later : Z) (data : value) (version : Z) (expiration : option Z) :
  0 <= now ->
  unwrapData coerce later (wrapWithMetadata now data version expiration)
  = if isExpired coerce later (wrapWithMetadata now data version expiration)
    then VNull else data.
Proof.
  intros Hnow. unfold wrapWithMetadata.
  destruct expiration as [minutes|]; [|reflexivity].
  destruct (Z.ltb_spec 0 minutes); [|reflexivity].
  unfold unwrapData, isExpired. cbn.
  destruct (Z.eqb_spec (now + minutes * 60 * 1000) 0); [lia|reflexivity].
Qed.

Lemma compress_round_trip_witness :
  simpleDecompress (simpleCompress (repeat 97%N 1500 ++ Sample.units "tail"))
  = Some (repeat 97%N 1500 ++ Sample.units "tail").
Proof.
  apply (compress_round_trip (repeat 97%N 1500 ++ Sample.units "tail")).
  - apply (bool_decide_unpack _). vm_compute. exact I.
  - vm_compute. discriminate.
Defined.

Lemma uncompressed_marker_witness :
  simpleDecompress (simpleCompress (1%N :: Sample.units "abc"))
  = Some (Sample.units "abc").
Proof.
  apply (uncompressed_marker_is_dropped (Sample.units "abc")).
  - vm_compute. reflexivity.
  - apply (bool_decide_unpack _). vm_compute. exact I.
Defined.

Lemma base64_witness :
  exists encoded : str,
    base64Encode [104; 233; 8364; 55357; 56832]%N = Some encoded /\
    base64Decode encoded = [104; 233; 8364; 55357; 56832]%N.
Proof.
  apply (base64Decode_base64Encode [104; 233; 8364; 55357; 56832]%N).
  vm_compute. reflexivity.
Defined.


Lemma unwrapData_witness :
  unwrapData (fun _ => None) 70000
    (wrapWithMetadata 1000 (VObj [("name", VStr "John")]) 1 (Some 1))
  = (if isExpired (fun _ => None) 70000
          (wrapWithMetadata 1000 (VObj [("name", VStr "John")]) 1 (Some 1))
     then VNull else VObj [("name", VStr "John")]).
Proof.
  apply (unwrapData_wrapWithMetadata (fun _ => None) 1000 70000
           (VObj [("name", VStr "John")]) 1 (Some 1)).
  lia.
Defined.

End TransformMore.

Module SyncMore.
Import Js Transform Sync Broadcast.

Section Facts.
Context {C : Type}.
Implicit Types (m : SyncManager C).

(** X15.  [destroy] can be called twice, and a destroyed manager reacts to
    nothing and posts nothing. *)
Theorem destroy_is_final (json : Json) m (event : StorageEvent)
    (message : SyncMessage) (isSSR channelOpen : bool) (now : Z) (data : value) :
  destroy (destroy m) = destroy m /\
  handleStorageEvent json (destroy m) event = [] /\
  handleBroadcastMessage (destroy m) message = [] /\
  broadcast isSSR channelOpen now data (destroy m) = [] /\
  broadcastClear isSSR channelOpen now (destroy m) = [] /\
  requestSync isSSR channelOpen now (destroy m) = [].
Proof. repeat split. Qed.

Lemma handleIncomingData_invokes m (data : value) (src : Source) :
  handleIncomingData m data src
  = invoke (callback m) data src ++ invoke (opt_onSync (options m)) data src.
Proof.
  unfold handleIncomingData.
  destruct (default LatestWins (strategy (options m))); try reflexivity;
    by destruct (conflictResolver (options m)).
Qed.

(** X16.  Incoming data reaches the registered callback and then the [onSync]
    hook of the options, whatever the conflict strategy and whether or not a
    conflict resolver was supplied: two managers with the same callback and
    the same [onSync] hook react alike, and the resolver is never
    consulted. *)
Theorem incoming_data_ignores_strategy (m1 m2 : SyncManager C) (data : value)
    (src : Source) :
  callback m1 = callback m2 ->
  opt_onSync (options m1) = opt_onSync (options m2) ->
  handleIncomingData m1 data src = handleIncomingData m2 data src /\
  handleIncomingData m1 data src
  = invoke (callback m1) data src ++ invoke (opt_onSync (options m1)) data src.
Proof.
  intros Hcallback Hhook. rewrite !handleIncomingData_invokes.
  by rewrite Hcallback, Hhook.
Qed.

(** X17.  What one tab broadcasts is ignored by the tab itself and, in another
    live tab that watches the same key, handed to the callback and to the
    [onSync] hook with source ['broadcast']. *)
Theorem broadcast_reaches_other_tabs
    (sender receiver : SyncManager C) (isSSR channelOpen : bool) (now : Z)
    (data : value) :
  defined data = true ->
  isDestroyed receiver = false ->
  key receiver = key sender ->
  tabId receiver <> tabId sender ->
  deliver sender (broadcast isSSR channelOpen now data sender) = [] /\
  deliver receiver (broadcast false true now data sender)
  = (if isDestroyed sender then []
     else invoke (callback receiver) data FromBroadcast ++
          invoke (opt_onSync (options receiver)) data FromBroadcast).
Proof.
  intros Hdata Hlive Hkey Hid. split.
  - unfold deliver, broadcast, post.
    destruct (isDestroyed sender || isSSR); [reflexivity|].
    destruct channelOpen; [|reflexivity]. cbn [map concat].
    unfold handleBroadcastMessage. cbn [msg_tabId].
    destruct (isDestroyed sender); [reflexivity|].
    by rewrite String.eqb_refl.
  - unfold deliver, broadcast, post. rewrite orb_false_r.
    destruct (isDestroyed sender); [reflexivity|]. cbn [map concat].
    unfold handleBroadcastMessage.
    cbn [msg_tabId msg_key msg_type msg_data isUpdate].
    rewrite Hlive, Hkey, String.eqb_refl, Hdata. cbn [negb andb].
    destruct (String.eqb_spec (tabId sender) (tabId receiver)); [congruence|].
    by rewrite app_nil_r, handleIncomingData_invokes.
Qed.

(** X18.  A storage event whose new value is not JSON, or is JSON without a
    truthy [data], invokes nothing. *)
Theorem malformed_storage_value_is_swallowed (json : Json) m (event : StorageEvent)
    (newValue : str) :
  ev_newValue event = Some newValue ->
  (parse json newValue = None \/
   exists parsed, parse json newValue = Some parsed /\ truthy (dataOf parsed) = false) ->
  handleStorageEvent json m event = [].
Proof.
  intros Hnew Hbad. unfold handleStorageEvent. rewrite Hnew.
  destruct (isDestroyed m); [reflexivity|].
  destruct (ev_key event) as [k|]; [|reflexivity].
  destruct (negb (String.eqb k (key m))); [reflexivity|].
  destruct Hbad as [->|(parsed & -> & ->)]; [reflexivity|].
  by rewrite andb_false_r.
Qed.

End Facts.

Lemma incoming_data_witness :
  handleIncomingData
    (onSync "cb"
       (create "form"
          {| strategy := Some MergeStrategy; opt_onSync := Some "hook";
             conflictResolver := true; channel := None |} "tab-1"))
    (VStr "x") FromBroadcast
  = handleIncomingData
      (onSync "cb"
         (create "form"
            {| strategy := None; opt_onSync := Some "hook";
               conflictResolver := false; channel := None |} "tab-2"))
      (VStr "x") FromBroadcast /\
  handleIncomingData
    (onSync "cb"
       (create "form"
          {| strategy := Some MergeStrategy; opt_onSync := Some "hook";
             conflictResolver := true; channel := None |} "tab-1"))
    (VStr "x") FromBroadcast
  = [{| callee := "cb"; payload := VStr "x"; source := FromBroadcast |};
     {| callee := "hook"; payload := VStr "x"; source := FromBroadcast |}].
Proof.
  apply (incoming_data_ignores_strategy
           (onSync "cb"
              (create "form"
                 {| strategy := Some MergeStrategy; opt_onSync := Some "hook";
                    conflictResolver := true; channel := None |} "tab-1"))
           (onSync "cb"
              (create "form"
                 {| strategy := None; opt_onSync := Some "hook";
                    conflictResolver := false; channel := None |} "tab-2"))
           (VStr "x") FromBroadcast); reflexivity.
Defined.

Lemma broadcast_witness :
  deliver
    (create "form"
       {| strategy := None; opt_onSync := Some "sender"; conflictResolver := false;
          channel := None |} "tab-1")
    (broadcast false true 5000 (VStr "x")
       (create "form"
          {| strategy := None; opt_onSync := Some "sender"; conflictResolver := false;
             channel := None |} "tab-1"))
  = [] /\
  deliver
    (onSync "cb"
       (create "form"
          {| strategy := None; opt_onSync := Some "hook"; conflictResolver := false;
             channel := None |} "tab-2"))
    (broadcast false true 5000 (VStr "x")
       (create "form"
          {| strategy := None; opt_onSync := Some "sender"; conflictResolver := false;
             channel := None |} "tab-1"))
  = [{| callee := "cb"; payload := VStr "x"; source := FromBroadcast |};
     {| callee := "hook"; payload := VStr "x"; source := FromBroadcast |}].
Proof.
  apply (broadcast_reaches_other_tabs
           (create "form"
              {| strategy := None; opt_onSync := Some "sender";
                 conflictResolver := false; channel := None |} "tab-1")
           (onSync "cb"
              (create "form"
                 {| strategy := None; opt_onSync := Some "hook";
                    conflictResolver := false; channel := None |} "tab-2"))
           false true 5000 (VStr "x")).
  - reflexivity.
  - reflexivity.
  - reflexivity.
  - cbn. discriminate.
Defined.

Lemma malformed_storage_value_witness :
  handleStorageEvent
    {| stringify := fun _ => Ok []; parse := fun _ => None |}
    (onSync "cb"
       (create "form"
          {| strategy := None; opt_onSync := Some "hook"; conflictResolver := false;
             channel := None |} "tab-1"))
    {| ev_key := Some "form"; ev_newValue := Some (Sample.units "{oops") |}
  = [].
Proof.
  apply (malformed_storage_value_is_swallowed
           {| stringify := fun _ => Ok []; parse := fun _ => None |}
           (onSync "cb"
              (create "form"
                 {| strategy := None; opt_onSync := Some "hook";
                    conflictResolver := false; channel := None |} "tab-1"))
           {| ev_key := Some "form"; ev_newValue := Some (Sample.units "{oops") |}
           (Sample.units "{oops")).
  - reflexivity.
  - left. reflexivity.
Defined.

End SyncMore.

Module HookMore.
Import Js Transform Validate Storage Hook Actions TransformFacts HookFacts.

Lemma simpleCompress_nonempty (data : str) : data <> [] -> simpleCompress data <> [].
Proof.
  intros Hdata. unfold simpleCompress.
  destruct (len data <? DEFAULT_COMPRESSION_THRESHOLD); [exact Hdata|].
  destruct data as [|first rest]; [done|].
  by destruct (len _ <? len _).
Qed.

(** The hook's transformer, which never obfuscates, gives back what it
    serialized. *)
Lemma transformer_round_trip (env : Environment) (options : FormPersistOptions)
    (x : value) (text : str) :
  defaultJson (transform options) ->
  stringify (json env) x = Ok text ->
  parse (json env) text = Some x ->
  jsonText text ->
  text <> [] ->
  exists stored : str,
    transformerSerialize env options x = Ok stored /\
    transformerDeserialize env options stored = x /\
    stored <> [].
Proof.
  intros Hdefault Hprint Hparse Htext Hne.
  apply jsonText_clean in Htext as (Hzero & Hhead & Hwf).
  unfold transformerSerialize, transformerDeserialize,
    pipelineSerialize, pipelineDeserialize, defaultSerialize, defaultDeserialize.
  set (payload :=
         if shouldCompress (compress options) &&
            (compressionThreshold (compress options) <=? len text)
         then simpleCompress text else text).
  assert (Hback : (if shouldCompress (compress options)
                   then simpleDecompress payload else Some payload) = Some text).
  { unfold payload. destruct (shouldCompress (compress options)); cbn [andb];
      [|reflexivity].
    destruct (_ <=? _).
    - by apply simpleDecompress_simpleCompress.
    - by apply simpleDecompress_raw. }
  assert (Hpayload : payload <> []).
  { unfold payload. destruct (_ && _); [by apply simpleCompress_nonempty|done]. }
  exists payload.
  destruct (transform options) as [[ser de]|]; cbn in Hdefault;
    [destruct Hdefault as [-> ->]|];
    rewrite Hprint; cbn [bind]; fold payload; rewrite Hback, Hparse; by repeat split.
Qed.

Lemma wrapped_fields (now : Z) (data : value) (version : Z) (expiration : option Z) :
  isValidPersistedData (wrapWithMetadata now data version expiration) = true /\
  field "data" (wrapWithMetadata now data version expiration) = data /\
  field "version" (wrapWithMetadata now data version expiration) = VNum version /\
  field "timestamp" (wrapWithMetadata now data version expiration) = VNum now.
Proof.
  unfold wrapWithMetadata.
  destruct expiration as [minutes|]; [destruct (0 <? minutes)|]; repeat split.
Qed.

Section Facts.
Variable env : Environment.
Variable key : string.
Variable initialState : value.
Variable options : FormPersistOptions.

Lemma builtin_getItem (k : string) (st : store) :
  builtin (storage env) -> getItem (storage env) k st = st !! k.
Proof. by intros [->|[r ->]]. Qed.

Lemma builtin_removeItem (k : string) (st : store) :
  builtin (storage env) -> removeItem (storage env) k st = delete k st.
Proof. by intros [->|[r ->]]. Qed.

Lemma builtin_setItem (k : string) (v : str) (st st' : store) :
  builtin (storage env) ->
  setItem (storage env) k v st = Ok st' -> st' = <[k := v]> st.
Proof.
  intros [->|[r ->]]; cbn.
  - by intros [= <-].
  - destruct (r k v st); [discriminate|]. by intros [= <-].
Qed.

(** The successful path of [saveToStorage]. *)
Lemma save_accepted (now : Z) (d p : value) (serialized : str) (st' : store)
    (w : world) :
  isSSR env = false -> enabled options = true -> isPaused (hook w) = false ->
  processData options d = Ok p ->
  validateData p (validate options) = true ->
  transformerSerialize env options
    (wrapWithMetadata now p (default 1 (version options)) (expiration options))
  = Ok serialized ->
  setItem (storage env) (fullKey key options) serialized (backend w) = Ok st' ->
  saveToStorage env key options now d w
  = {| backend := st';
       hook := {| state := state (hook w); isPersisted := true;
                  isRestored := isRestored (hook w); lastSaved := Some now;
                  isPaused := isPaused (hook w);
                  size := getStringByteSize (blob env) serialized;
                  history := history (hook w);
                  historyIndex := historyIndex (hook w);
                  isMounted := isMounted (hook w) |};
       effects := effects w ++ warning options (getStringByteSize (blob env) serialized) |}.
Proof.
  intros Hssr Hen Hpa Hp Hv Hser Hset. unfold saveToStorage.
  rewrite Hssr, Hen, Hpa, Hp, Hv, Hser. cbn [negb orb emit backend hook effects].
  by rewrite Hset, Hpa.
Qed.

(** A save that the backend accepts stores, under the hook's key, a
    non-empty text from which the transformer reads the envelope back. *)
Lemma save_stores_envelope (now : Z) (d p : value) (text : str) (w : world) :
  isSSR env = false -> enabled options = true -> isPaused (hook w) = false ->
  builtin (storage env) ->
  (forall v st, exists st', setItem (storage env) (fullKey key options) v st = Ok st') ->
  defaultJson (transform options) ->
  processData options d = Ok p ->
  validateData p (validate options) = true ->
  stringify (json env)
    (wrapWithMetadata now p (default 1 (version options)) (expiration options))
  = Ok text ->
  parse (json env) text
  = Some (wrapWithMetadata now p (default 1 (version options)) (expiration options)) ->
  jsonText text -> text <> [] ->
  exists (c : N) (stored : str),
    transformerDeserialize env options (c :: stored)
    = wrapWithMetadata now p (default 1 (version options)) (expiration options) /\
    saveToStorage env key options now d w
    = {| backend := <[fullKey key options := c :: stored]> (backend w);
         hook := {| state := state (hook w); isPersisted := true;
                    isRestored := isRestored (hook w); lastSaved := Some now;
                    isPaused := isPaused (hook w);
                    size := getStringByteSize (blob env) (c :: stored);
                    history := history (hook w);
                    historyIndex := historyIndex (hook w);
                    isMounted := isMounted (hook w) |};
         effects := effects w ++
                    warning options (getStringByteSize (blob env) (c :: stored)) |}.
Proof.
  intros Hssr Hen Hpa Hbuiltin Haccept Hdefault Hp Hv Hprint Hparse Htext Hne.
  destruct (transformer_round_trip env options _ text Hdefault Hprint Hparse Htext Hne)
    as (stored & Hser & Hde & Hstored).
  destruct (Haccept stored (backend w)) as [st' Hset].
  destruct stored as [|c stored]; [done|]. exists c, stored. split; [exact Hde|].
  rewrite (save_accepted now d p (c :: stored) st' w) by done.
  by apply builtin_setItem in Hset as ->.
Qed.

(** After such a save [getPersistedValue] reads the saved data until the
    envelope expires. *)
Lemma read_after_save (later : Z) (c : N) (stored : str) (wrapped : value)
    (st : store) (h : HookState) (es : list effect) :
  isSSR env = false -> builtin (storage env) ->
  transformerDeserialize env options (c :: stored) = wrapped ->
  isValidPersistedData wrapped = true ->
  getPersistedValue env key options later
    {| backend := <[fullKey key options := c :: stored]> st; hook := h; effects := es |}
  = if isExpired (coerce env) later wrapped then VNull else field "data" wrapped.
Proof.
  intros Hssr Hbuiltin Hde Hvalid. unfold getPersistedValue. cbn [backend].
  rewrite Hssr, builtin_getItem, lookup_insert_eq, Hde by done.
  by rewrite Hvalid, (valid_is_truthy _ Hvalid).
Qed.

(** X19.  When the backend refuses the write with a [QuotaExceededError],
    [saveToStorage] leaves the backend and the hook, the live state included,
    as they were, and reports [QUOTA_EXCEEDED] to [onStorageFull] and then to
    [onError]. *)
Theorem quota_failure_is_reported (now : Z) (d p : value) (serialized : str)
    (e : Error) (w : world) :
  isSSR env = false -> enabled options = true -> isPaused (hook w) = false ->
  processData options d = Ok p ->
  validateData p (validate options) = true ->
  transformerSerialize env options
    (wrapWithMetadata now p (default 1 (version options)) (expiration options))
  = Ok serialized ->
  setItem (storage env) (fullKey key options) serialized (backend w) = Throw e ->
  name e = "QuotaExceededError" ->
  backend (saveToStorage env key options now d w) = backend w /\
  hook (saveToStorage env key options now d w) = hook w /\
  effects (saveToStorage env key options now d w)
  = effects w ++ warning options (getStringByteSize (blob env) serialized) ++
    (if onStorageFull options
     then [OnStorageFull (createErrorInfo QUOTA_EXCEEDED (fullKey key options)
                            (message e) (Some e))]
     else []) ++
    (if onError options
     then [OnError (createErrorInfo QUOTA_EXCEEDED (fullKey key options)
                      (message e) (Some e))]
     else []).
Proof.
  intros Hssr Hen Hpa Hp Hv Hser Hset Hname. unfold saveToStorage.
  rewrite Hssr, Hen, Hpa, Hp, Hv, Hser. cbn [negb orb emit backend hook effects].
  rewrite Hset. unfold saveFailed.
  assert (Htype : detectErrorType e = QUOTA_EXCEEDED).
  { unfold detectErrorType. by rewrite Hname. }
  rewrite Htype. unfold handleError, emit. cbn [backend hook effects].
  repeat split. by rewrite <- app_assoc.
Qed.

(** X20.  What [saveToStorage] wrote is what [getPersistedValue] reads: the
    data after [beforePersist] and the exclusion filter, until the envelope
    expires. *)
Theorem saved_value_is_read_back (now later : Z) (d p : value) (text : str)
    (w : world) :
  isSSR env = false -> enabled options = true -> isPaused (hook w) = false ->
  builtin (storage env) ->
  (forall v st, exists st', setItem (storage env) (fullKey key options) v st = Ok st') ->
  defaultJson (transform options) ->
  processData options d = Ok p ->
  validateData p (validate options) = true ->
  stringify (json env)
    (wrapWithMetadata now p (default 1 (version options)) (expiration options))
  = Ok text ->
  parse (json env) text
  = Some (wrapWithMetadata now p (default 1 (version options)) (expiration options)) ->
  jsonText text -> text <> [] ->
  isPersisted (hook (saveToStorage env key options now d w)) = true /\
  lastSaved (hook (saveToStorage env key options now d w)) = Some now /\
  state (hook (saveToStorage env key options now d w)) = state (hook w) /\
  getPersistedValue env key options later (saveToStorage env key options now d w)
  = if isExpired (coerce env) later
         (wrapWithMetadata now p (default 1 (version options)) (expiration options))
    then VNull else p.
Proof.
  intros Hssr Hen Hpa Hbuiltin Haccept Hdefault Hp Hv Hprint Hparse Htext Hne.
  destruct (save_stores_envelope now d p text w) as (c & stored & Hde & ->); try done.
  cbn [hook isPersisted lastSaved state]. repeat split.
  destruct (wrapped_fields now p (default 1 (version options)) (expiration options))
    as (Hvalid & Hdata & _ & _).
  by rewrite (read_after_save later c stored _ _ _ _ Hssr Hbuiltin Hde Hvalid), Hdata.
Qed.

(** X21.  A value saved by one hook instance is what the next instance over
    the same backend restores on mount: with the schema version unchanged
    and the envelope not expired, the state becomes the merge of the saved
    data with the initial state, [lastSaved] is the time of the write, and
    [onRestore] is called once with the merged data. *)
Theorem saved_value_is_restored_on_mount (now later : Z) (d p merged : value)
    (text : str) (w : world) :
  isSSR env = false -> enabled options = true -> isPaused (hook w) = false ->
  builtin (storage env) ->
  (forall v st, exists st', setItem (storage env) (fullKey key options) v st = Ok st') ->
  defaultJson (transform options) ->
  processData options d = Ok p ->
  validateData p (validate options) = true ->
  stringify (json env)
    (wrapWithMetadata now p (default 1 (version options)) (expiration options))
  = Ok text ->
  parse (json env) text
  = Some (wrapWithMetadata now p (default 1 (version options)) (expiration options)) ->
  jsonText text -> text <> [] ->
  isExpired (coerce env) later
    (wrapWithMetadata now p (default 1 (version options)) (expiration options))
  = false ->
  p <> VNull ->
  merge options p initialState = Ok merged ->
  loadOnMount env key initialState options later
    {| backend := backend (saveToStorage env key options now d w);
       hook := mount initialState; effects := [] |}
  = {| backend := backend (saveToStorage env key options now d w);
       hook := {| state := merged; isPersisted := true; isRestored := true;
                  lastSaved := Some now; isPaused := false; size := 0;
                  history := [merged]; historyIndex := 0; isMounted := true |};
       effects := if onRestore options then [OnRestore merged] else [] |}.
Proof.
  intros Hssr Hen Hpa Hbuiltin Haccept Hdefault Hp Hv Hprint Hparse Htext Hne
    Hfresh Hnull Hmerge.
  destruct (save_stores_envelope now d p text w) as (c & stored & Hde & ->); try done.
  cbn [backend].
  unfold loadOnMount. rewrite Hssr, Hen. cbn [mount hook isMounted negb orb].
  unfold loadFromStorage. cbn [backend hook effects].
  rewrite builtin_getItem, lookup_insert_eq, Hde by done.
  destruct (wrapped_fields now p (default 1 (version options)) (expiration options))
    as (Hvalid & Hdata & Hversion & Htime).
  rewrite Hvalid, (valid_is_truthy _ Hvalid), Hfresh, Hdata, Hversion, Htime.
  cbn [negb numberOf]. unfold migrateData, needsMigration.
  rewrite Z.ltb_irrefl. cbn [negb]. rewrite Hmerge.
  by destruct p.
Qed.

(** X22.  [clear()] removes the stored value and resets the bookkeeping but
    leaves the live state, its history and every other key alone;
    afterwards [getPersistedValue] returns [null], [revert] changes nothing
    and a load finds nothing to restore. *)
Theorem clear_forgets_stored_value (now : Z) (w : world) :
  builtin (storage env) ->
  state (hook (clear env key options w)) = state (hook w) /\
  history (hook (clear env key options w)) = history (hook w) /\
  isPersisted (hook (clear env key options w)) = false /\
  lastSaved (hook (clear env key options w)) = None /\
  backend (clear env key options w) !! fullKey key options = None /\
  (forall k, k <> fullKey key options ->
     backend (clear env key options w) !! k = backend w !! k) /\
  getPersistedValue env key options now (clear env key options w) = VNull /\
  revert env key options now (clear env key options w) = clear env key options w /\
  loadFromStorage env key initialState options now (clear env key options w)
  = clear env key options w.
Proof.
  intros Hbuiltin.
  assert (Hgone : getItem (storage env) (fullKey key options)
                    (backend (clear env key options w)) = None).
  { unfold clear. cbn [backend].
    by rewrite builtin_getItem, builtin_removeItem, lookup_delete_eq by done. }
  assert (Hnull : getPersistedValue env key options now (clear env key options w)
                  = VNull).
  { unfold getPersistedValue. rewrite Hgone. by destruct (isSSR env). }
  repeat split.
  - unfold clear. cbn [backend]. rewrite builtin_removeItem by done.
    apply lookup_delete_eq.
  - intros k Hk. unfold clear. cbn [backend]. rewrite builtin_removeItem by done.
    by apply lookup_delete_ne.
  - exact Hnull.
  - unfold revert. by rewrite Hnull.
  - unfold loadFromStorage. by rewrite Hgone.
Qed.

(** X23.  [reset()] puts the initial state back, with a history of that one
    state and nothing to undo or redo, and clears the stored value. *)
Theorem reset_restores_initial_state (now : Z) (w : world) :
  builtin (storage env) ->
  state (hook (reset env key initialState options w)) = initialState /\
  history (hook (reset env key initialState options w)) = [initialState] /\
  historyIndex (hook (reset env key initialState options w)) = 0 /\
  canUndo (hook (reset env key initialState options w)) = false /\
  canRedo (hook (reset env key initialState options w)) = false /\
  isPersisted (hook (reset env key initialState options w)) = false /\
  backend (reset env key initialState options w) = delete (fullKey key options) (backend w) /\
  getPersistedValue env key options now (reset env key initialState options w) = VNull.
Proof.
  intros Hbuiltin. unfold reset, clear. cbn [hook backend effects].
  rewrite builtin_removeItem by done. repeat split.
  unfold getPersistedValue. cbn [backend].
  rewrite builtin_getItem, lookup_delete_eq by done. by destruct (isSSR env).
Qed.

(** X24.  [revert()] after a save puts the saved data in the live state: the
    data after [beforePersist] and the exclusion filter, not the state that
    was live; the history is not touched. *)
Theorem revert_restores_saved_data (now later : Z) (d p : value) (text : str)
    (w : world) :
  isSSR env = false -> enabled options = true -> isPaused (hook w) = false ->
  builtin (storage env) ->
  (forall v st, exists st', setItem (storage env) (fullKey key options) v st = Ok st') ->
  defaultJson (transform options) ->
  processData options d = Ok p ->
  validateData p (validate options) = true ->
  stringify (json env)
    (wrapWithMetadata now p (default 1 (version options)) (expiration options))
  = Ok text ->
  parse (json env) text
  = Some (wrapWithMetadata now p (default 1 (version options)) (expiration options)) ->
  jsonText text -> text <> [] ->
  isExpired (coerce env) later
    (wrapWithMetadata now p (default 1 (version options)) (expiration options))
  = false ->
  truthy p = true ->
  state (hook (revert env key options later (saveToStorage env key options now d w)))
  = p /\
  history (hook (revert env key options later (saveToStorage env key options now d w)))
  = history (hook w) /\
  historyIndex (hook (revert env key options later (saveToStorage env key options now d w)))
  = historyIndex (hook w) /\
  backend (revert env key options later (saveToStorage env key options now d w))
  = backend (saveToStorage env key options now d w).
Proof.
  intros Hssr Hen Hpa Hbuiltin Haccept Hdefault Hp Hv Hprint Hparse Htext Hne
    Hfresh Htruthy.
  destruct (save_stores_envelope now d p text w) as (c & stored & Hde & ->); try done.
  destruct (wrapped_fields now p (default 1 (version options)) (expiration options))
    as (Hvalid & Hdata & _ & _).
  unfold revert.
  rewrite (read_after_save later c stored _ _ _ _ Hssr Hbuiltin Hde Hvalid).
  by rewrite Hfresh, Hdata, Htruthy.
Qed.

End Facts.

Section HistoryOfTheHook.
Variable initialState : value.
Variable options : FormPersistOptions.
Hypothesis Hmax : 1 <= maxHistory options.
Hypothesis Henabled : historyEnabled options = true.





End HistoryOfTheHook.



Lemma quota_failure_witness :
  backend (saveToStorage SaveSample.fullEnvironment "form" Sample.options 1000
             SaveSample.form (Sample.fresh ∅)) = ∅ /\
  state (hook (saveToStorage SaveSample.fullEnvironment "form" Sample.options 1000
                 SaveSample.form (Sample.fresh ∅))) = Sample.initialState /\
  effects (saveToStorage SaveSample.fullEnvironment "form" Sample.options 1000
             SaveSample.form (Sample.fresh ∅))
  = [OnStorageFull (createErrorInfo QUOTA_EXCEEDED "rfp:form"
                      "The quota has been exceeded." (Some SaveSample.quotaError));
     OnError (createErrorInfo QUOTA_EXCEEDED "rfp:form"
                "The quota has been exceeded." (Some SaveSample.quotaError))].
Proof.
  destruct (quota_failure_is_reported SaveSample.fullEnvironment "form" Sample.options
              1000 SaveSample.form SaveSample.form Sample.oldText SaveSample.quotaError
              (Sample.fresh ∅))
    as (Hbackend & Hhook & Heffects);
    try reflexivity.
  split; [exact Hbackend|]. split; [by rewrite Hhook|exact Heffects].
Defined.

Lemma saved_value_witness :
  isPersisted (hook (saveToStorage SaveSample.environment "form" Sample.options 1000
                       SaveSample.form (Sample.fresh ∅))) = true /\
  lastSaved (hook (saveToStorage SaveSample.environment "form" Sample.options 1000
                     SaveSample.form (Sample.fresh ∅))) = Some 1000 /\
  state (hook (saveToStorage SaveSample.environment "form" Sample.options 1000
                 SaveSample.form (Sample.fresh ∅))) = Sample.initialState /\
  getPersistedValue SaveSample.environment "form" Sample.options 5000
    (saveToStorage SaveSample.environment "form" Sample.options 1000
       SaveSample.form (Sample.fresh ∅))
  = SaveSample.form.
Proof.
  apply (saved_value_is_read_back SaveSample.environment "form" Sample.options
           1000 5000 SaveSample.form SaveSample.form Sample.oldText (Sample.fresh ∅)).
  - reflexivity.
  - reflexivity.
  - reflexivity.
  - by left.
  - intros v st. by eexists.
  - exact I.
  - reflexivity.
  - reflexivity.
  - vm_compute. reflexivity.
  - vm_compute. reflexivity.
  - split.
    + apply (bool_decide_unpack _). vm_compute. exact I.
    + vm_compute. reflexivity.
  - vm_compute. discriminate.
Defined.

Lemma restored_on_mount_witness :
  loadOnMount SaveSample.environment "form" Sample.initialState Sample.options 5000
    {| backend := backend (saveToStorage SaveSample.environment "form" Sample.options
                             1000 SaveSample.form (Sample.fresh ∅));
       hook := mount Sample.initialState; effects := [] |}
  = {| backend := backend (saveToStorage SaveSample.environment "form" Sample.options
                             1000 SaveSample.form (Sample.fresh ∅));
       hook := {| state := VObj [("name", VStr "John"); ("email", VStr "")];
                  isPersisted := true; isRestored := true;
                  lastSaved := Some 1000; isPaused := false; size := 0;
                  history := [VObj [("name", VStr "John"); ("email", VStr "")]];
                  historyIndex := 0; isMounted := true |};
       effects := [OnRestore (VObj [("name", VStr "John"); ("email", VStr "")])] |}.
Proof.
  apply (saved_value_is_restored_on_mount SaveSample.environment "form"
           Sample.initialState Sample.options 1000 5000 SaveSample.form SaveSample.form
           (VObj [("name", VStr "John"); ("email", VStr "")]) Sample.oldText
           (Sample.fresh ∅)).
  - reflexivity.
  - reflexivity.
  - reflexivity.
  - by left.
  - intros v st. by eexists.
  - exact I.
  - reflexivity.
  - reflexivity.
  - vm_compute. reflexivity.
  - vm_compute. reflexivity.
  - split.
    + apply (bool_decide_unpack _). vm_compute. exact I.
    + vm_compute. reflexivity.
  - vm_compute. discriminate.
  - reflexivity.
  - discriminate.
  - reflexivity.
Defined.

Lemma clear_witness :
  backend (clear Sample.environment "form" Sample.options (Sample.fresh Sample.oldStore))
    !! "rfp:form" = None /\
  getPersistedValue Sample.environment "form" Sample.options 5000
    (clear Sample.environment "form" Sample.options (Sample.fresh Sample.oldStore))
  = VNull.
Proof.
  destruct (clear_forgets_stored_value Sample.environment "form" Sample.initialState
              Sample.options 5000 (Sample.fresh Sample.oldStore))
    as (_ & _ & _ & _ & Hgone & _ & Hnull & _).
  - by left.
  - split; [exact Hgone|exact Hnull].
Defined.

Lemma reset_witness :
  state (hook (reset Sample.environment "form" Sample.initialState Sample.options
                 {| backend := Sample.oldStore;
                    hook := setState SaveSample.historyOptions SaveSample.form
                              (mount Sample.initialState);
                    effects := [] |}))
  = Sample.initialState /\
  getPersistedValue Sample.environment "form" Sample.options 5000
    (reset Sample.environment "form" Sample.initialState Sample.options
       {| backend := Sample.oldStore;
          hook := setState SaveSample.historyOptions SaveSample.form
                    (mount Sample.initialState);
          effects := [] |})
  = VNull.
Proof.
  destruct (reset_restores_initial_state Sample.environment "form" Sample.initialState
              Sample.options 5000
              {| backend := Sample.oldStore;
                 hook := setState SaveSample.historyOptions SaveSample.form
                           (mount Sample.initialState);
                 effects := [] |})
    as (Hstate & _ & _ & _ & _ & _ & _ & Hnull).
  - by left.
  - split; [exact Hstate|exact Hnull].
Defined.

Lemma revert_witness :
  state (hook (revert SaveSample.environment "form" Sample.options 5000
                 (saveToStorage SaveSample.environment "form" Sample.options 1000
                    SaveSample.form (Sample.fresh ∅))))
  = SaveSample.form.
Proof.
  apply (revert_restores_saved_data SaveSample.environment "form" Sample.options
           1000 5000 SaveSample.form SaveSample.form Sample.oldText (Sample.fresh ∅)).
  - reflexivity.
  - reflexivity.
  - reflexivity.
  - by left.
  - intros v st. by eexists.
  - exact I.
  - reflexivity.
  - reflexivity.
  - vm_compute. reflexivity.
  - vm_compute. reflexivity.
  - split.
    + apply (bool_decide_unpack _). vm_compute. exact I.
    + vm_compute. reflexivity.
  - vm_compute. discriminate.
  - reflexivity.
  - reflexivity.
Defined.



End HookMore.

Module GroupFacts.
Import Transform Group.

Lemma scan_from {A : Type} (visit : string -> A -> A) (storage : Storage) :
  forall (seen : Storage) (acc : A),
    scan visit (seen ++ storage) (length storage) (length seen) acc
    = fold_left (fun acc entry => visit (fst entry) acc) storage acc.
Proof.
  induction storage as [|entry storage IH]; intros seen acc; [reflexivity|].
  cbn [length scan fold_left].
  assert (Hkey : key (length seen) (seen ++ entry :: storage) = Some (fst entry)).
  { exact (f_equal (fmap fst) (list_lookup_middle seen storage entry _ eq_refl)). }
  rewrite Hkey.
  replace (seen ++ entry :: storage) with ((seen ++ [entry]) ++ storage)
    by (by rewrite <- app_assoc).
  replace (S (length seen)) with (length (seen ++ [entry]))
    by (rewrite length_app; cbn; lia).
  apply IH.
Qed.

Lemma scan_all {A : Type} (visit : string -> A -> A) (storage : Storage) (acc : A) :
  scan visit storage (length storage) 0 acc
  = fold_left (fun acc entry => visit (fst entry) acc) storage acc.
Proof. apply (scan_from visit storage []). Qed.

Lemma collect_fold (P : string -> bool) (f : string -> string) (storage : Storage) :
  forall keys : list string,
    fold_left (fun keys entry => if P (fst entry) then keys ++ [f (fst entry)] else keys)
      storage keys
    = keys ++ map f (List.filter P (map fst storage)).
Proof.
  induction storage as [|entry storage IH]; intros keys; cbn [fold_left map List.filter].
  - by rewrite app_nil_r.
  - rewrite IH. destruct (P (fst entry)); [|reflexivity].
    by rewrite <- app_assoc.
Qed.

Lemma remove_fold (keys : list string) :
  forall storage : Storage,
    fold_left (fun st k => removeItem k st) keys storage
    = List.filter (fun entry => negb (existsb (String.eqb (fst entry)) keys)) storage.
Proof.
  induction keys as [|k keys IH]; intros storage; cbn [fold_left existsb].
  - induction storage as [|e storage IHs]; [reflexivity|].
    cbn. f_equal. exact IHs.
  - rewrite IH. unfold removeItem.
    induction storage as [|e storage IHs]; [reflexivity|].
    cbn [List.filter]. destruct (String.eqb (fst e) k); cbn [negb orb].
    + exact IHs.
    + cbn [List.filter]. destruct (negb _); [|exact IHs]. by rewrite IHs.
Qed.

Lemma startsWith_nonempty (prefix k : string) :
  startsWith k (fullPrefix prefix) = true -> inGroup (fullPrefix prefix) k = true.
Proof.
  unfold inGroup. intros Hs. rewrite Hs. by destruct k.
Qed.

Lemma inGroup_startsWith (prefix k : string) :
  inGroup (fullPrefix prefix) k = startsWith k (fullPrefix prefix).
Proof.
  destruct (startsWith k (fullPrefix prefix)) eqn:Hs.
  - by apply startsWith_nonempty.
  - unfold inGroup. rewrite Hs. apply andb_false_r.
Qed.

Lemma existsb_filter (P : string -> bool) (l : list string) (k : string) :
  k ∈ l -> existsb (String.eqb k) (List.filter P l) = P k.
Proof.
  intros Hin. destruct (P k) eqn:HP.
  - apply existsb_exists. exists k. split; [|apply String.eqb_refl].
    apply filter_In. split; [by apply list_elem_of_In|exact HP].
  - apply not_true_is_false. intros (x & Hx & Heq)%existsb_exists.
    apply String.eqb_eq in Heq as <-. apply filter_In in Hx as [_ Hx]. congruence.
Qed.

(** What [clearGroup] leaves: the entries outside the group, in order. *)
Lemma clearGroup_storage (prefix : string) (storage : Storage) :
  snd (clearGroup false prefix storage)
  = List.filter (fun entry => negb (startsWith (fst entry) (fullPrefix prefix))) storage.
Proof.
  unfold clearGroup. cbn [snd]. rewrite scan_all.
  rewrite (collect_fold (inGroup (fullPrefix prefix)) (fun k => k)), app_nil_l, map_id.
  rewrite remove_fold. apply filter_ext_in. intros entry Hin.
  rewrite existsb_filter, inGroup_startsWith; [reflexivity|].
  apply list_elem_of_In. by apply in_map.
Qed.

Lemma getItem_filter (P : string -> bool) (k : string) (storage : Storage) :
  getItem k (List.filter (fun entry => P (fst entry)) storage)
  = if P k then getItem k storage else None.
Proof.
  unfold getItem. induction storage as [|e storage IH]; cbn [List.filter List.find].
  - by destruct (P k).
  - destruct (String.eqb_spec (fst e) k) as [<-|Hne].
    + destruct (P (fst e)) eqn:HP; cbn [List.find].
      * by rewrite String.eqb_refl.
      * rewrite IH. by rewrite ?HP.
    + destruct (P (fst e)); cbn [List.find]; [|exact IH].
      destruct (String.eqb_spec (fst e) k); [done|exact IH].
Qed.

Lemma group_is_empty (prefix : string) (storage : Storage) :
  List.filter (inGroup (fullPrefix prefix))
    (map fst (List.filter
                (fun entry => negb (startsWith (fst entry) (fullPrefix prefix))) storage))
  = [].
Proof.
  induction storage as [|e storage IH]; [reflexivity|]. cbn [List.filter].
  destruct (startsWith (fst e) (fullPrefix prefix)) eqn:Hs; cbn [negb map List.filter];
    [exact IH|].
  by rewrite inGroup_startsWith, Hs.
Qed.

(** X27.  [clearGroup] returns the number of keys [getGroupKeys] lists, removes
    exactly the entries whose key starts with the default prefix followed
    by [prefix], and leaves a storage in which the group is empty. *)
Theorem clearGroup_removes_exactly_the_group (prefix : string) (storage : Storage) :
  fst (clearGroup false prefix storage)
  = Z.of_nat (length (getGroupKeys false prefix storage)) /\
  (forall k : string,
     getItem k (snd (clearGroup false prefix storage))
     = if startsWith k (fullPrefix prefix) then None else getItem k storage) /\
  getGroupKeys false prefix (snd (clearGroup false prefix storage)) = [] /\
  hasGroupData false prefix (snd (clearGroup false prefix storage)) = false /\
  getGroupSize false prefix (snd (clearGroup false prefix storage)) = 0 /\
  fst (clearGroup false prefix (snd (clearGroup false prefix storage))) = 0.
Proof.
  assert (Hkeys : getGroupKeys false prefix (snd (clearGroup false prefix storage)) = []).
  { rewrite clearGroup_storage. unfold getGroupKeys. rewrite scan_all.
    by rewrite collect_fold, group_is_empty. }
  repeat split.
  - unfold clearGroup, getGroupKeys. cbn [fst]. rewrite !scan_all.
    rewrite (collect_fold (inGroup (fullPrefix prefix)) (fun k => k)).
    rewrite collect_fold. by rewrite !app_nil_l, !length_map.
  - intros k. rewrite clearGroup_storage.
    rewrite (getItem_filter (fun k => negb (startsWith k (fullPrefix prefix)))).
    by destruct (startsWith k (fullPrefix prefix)).
  - exact Hkeys.
  - unfold hasGroupData. by rewrite Hkeys.
  - rewrite clearGroup_storage. unfold getGroupSize. rewrite scan_all.
    set (rest := List.filter _ storage).
    assert (Hout : Forall (fun entry => inGroup (fullPrefix prefix) (fst entry) = false) rest).
    { apply Forall_forall. intros e [_ He]%list_elem_of_In%filter_In.
      rewrite inGroup_startsWith. by destruct (startsWith _ _). }
    generalize rest at 1. induction Hout as [|e l He Hl IH]; intros whole; [reflexivity|].
    cbn [fold_left]. rewrite He. apply IH.
  - unfold clearGroup at 1. cbn [fst]. rewrite scan_all.
    rewrite (collect_fold (inGroup (fullPrefix prefix)) (fun k => k)).
    rewrite clearGroup_storage, group_is_empty. reflexivity.
Qed.

Lemma default_prefix (s : string) :
  Hook.DEFAULT_KEY_PREFIX +:+ s
  = String (Ascii.ascii_of_nat 114) (String (Ascii.ascii_of_nat 102)
      (String (Ascii.ascii_of_nat 112) (String (Ascii.ascii_of_nat 58) s))).
Proof. reflexivity. Qed.

Lemma prefix_split (prefix k : string) :
  startsWith k (fullPrefix prefix) = true ->
  k = Hook.DEFAULT_KEY_PREFIX +:+ slice (String.length Hook.DEFAULT_KEY_PREFIX) k /\
  startsWith (slice (String.length Hook.DEFAULT_KEY_PREFIX) k) prefix = true.
Proof.
  unfold startsWith, fullPrefix. rewrite !default_prefix.
  change (String.length Hook.DEFAULT_KEY_PREFIX) with 4%nat.
  do 4 (destruct k as [|? k]; cbn [String.prefix]; [done|];
        destruct (Ascii.ascii_dec _ _) as [<-|]; [|done]).
  intros Hk. by split.
Qed.

Lemma prefix_join (prefix k : string) :
  startsWith k prefix = true ->
  startsWith (Hook.DEFAULT_KEY_PREFIX +:+ k) (fullPrefix prefix) = true /\
  slice (String.length Hook.DEFAULT_KEY_PREFIX) (Hook.DEFAULT_KEY_PREFIX +:+ k) = k.
Proof.
  unfold startsWith, fullPrefix. rewrite !default_prefix.
  change (String.length Hook.DEFAULT_KEY_PREFIX) with 4%nat.
  cbn [String.prefix slice].
  do 4 (destruct (Ascii.ascii_dec _ _); [|done]). intros Hk. by split.
Qed.

(** X28.  [getGroupKeys] lists, without the default prefix, exactly the keys of
    the storage that start with the default prefix followed by [prefix]. *)
Theorem getGroupKeys_lists_the_group (prefix : string) (storage : Storage) (k : string) :
  k ∈ getGroupKeys false prefix storage <->
  startsWith k prefix = true /\
  (Hook.DEFAULT_KEY_PREFIX +:+ k) ∈ map fst storage.
Proof.
  unfold getGroupKeys. rewrite scan_all, collect_fold, app_nil_l.
  rewrite list_elem_of_In, in_map_iff. split.
  - intros (full & <- & [Hin Hgroup]%filter_In).
    rewrite inGroup_startsWith in Hgroup.
    destruct (prefix_split prefix full Hgroup) as [Hfull Hk].
    split; [exact Hk|]. rewrite <- Hfull. by apply list_elem_of_In.
  - intros [Hk Hin]. destruct (prefix_join prefix k Hk) as [Hgroup Hslice].
    exists (Hook.DEFAULT_KEY_PREFIX +:+ k). split; [exact Hslice|].
    apply filter_In. split; [by apply list_elem_of_In|].
    by rewrite inGroup_startsWith.
Qed.

End GroupFacts.
